(** * Channel listings of products and product variants

    A shallow embedding of [saleor/graphql/product/mutations/channels.py]:
    the two mutations [ProductChannelListingUpdate] and
    [ProductVaraintChannelListingUpdate], each a pipeline
    clean -> validate -> save, together with the properties of the
    written specification settled against them.

    Python dictionaries used as maps are [gmap]s, Python sets are [gset]s,
    database tables are lists of rows, the [errors] dictionary that the
    class methods mutate is passed in and handed back, and an exception is
    a value of [Exc]. *)

From Stdlib Require Import ZArith QArith Qpower.
From stdpp Require Import base option list strings gmap.

(** ** Scalars *)

(** Channel, product and variant identifiers of the GraphQL API
    ([graphene.ID]) are strings. *)
Abbreviation GlobalId := string.

(** [graphene.types.datetime.Date]. *)
Record Date := { year : Z; month : Z; day : Z }.

(** A finite [decimal.Decimal]: [coefficient * 10 ^ exponent]. *)
Record Decimal := { coefficient : Z; exponent : Z }.

Definition Decimal_value (d : Decimal) : Q :=
  (inject_Z (coefficient d) * 10 ^ exponent d)%Q.

(** [price < 0]: the power of ten is positive, so the sign is the
    coefficient's ([Decimal_lt_0_value] below). *)
Definition Decimal_lt_0 (price : Decimal) : bool :=
  bool_decide (coefficient price < 0)%Z.

#[global] Instance Date_eq_dec : EqDecision Date.
Proof. solve_decision. Defined.
#[global] Instance Decimal_eq_dec : EqDecision Decimal.
Proof. solve_decision. Defined.

(** ** Validation errors *)

(** Modelled from the spec: [ProductErrorCode] of
    [saleor/product/error_codes.py], the members that the specification's
    error taxonomy lists. *)
Inductive ProductErrorCode :=
  | DUPLICATED_INPUT_ITEM
  | NOT_FOUND
  | PRODUCT_WITHOUT_CATEGORY
  | PRODUCT_NOT_ASSIGNED_TO_CHANNEL
  | INVALID.

#[global] Instance ProductErrorCode_eq_dec : EqDecision ProductErrorCode.
Proof. solve_decision. Defined.

(** One [ValidationError(message, code=..., params={"channels": ...})]. *)
Record ValidationError := {
  message : string;
  code : ProductErrorCode;
  params_channels : list GlobalId
}.

#[global] Instance ValidationError_eq_dec : EqDecision ValidationError.
Proof. solve_decision. Defined.

(** [ErrorType = DefaultDict[str, List[ValidationError]]]. *)
Abbreviation ErrorType := (gmap string (list ValidationError)).

(** [errors[field].append(error)] on a [defaultdict(list)]. *)
Definition append_error (field : string) (error : ValidationError)
    (errors : ErrorType) : ErrorType :=
  <[field := default [] (errors !! field) ++ [error]]> errors.

(** The truth value of the dictionary in [if errors:]. *)
Definition truthy (errors : ErrorType) : bool := bool_decide (errors ≠ ∅).

(** Every failure of the response, field by field. *)
Definition all_errors (errors : ErrorType) : list ValidationError :=
  mjoin (snd <$> map_to_list errors).

(** The failures of the response that carry the code [c]. *)
Definition errors_with_code (c : ProductErrorCode) (errors : ErrorType)
    : list ValidationError :=
  filter (λ e, code e = c) (all_errors errors).

(** ** Exceptions *)

(** The exceptions that the checks of this module and the table manager
    raise; the errors of the Python runtime on an ill-formed request are
    not among them. *)
Inductive Exception :=
  | Raised_ValidationError (error_dict : ErrorType)
  | MultipleObjectsReturned.

Inductive Exc (A : Type) :=
  | Raise (e : Exception)
  | Return (a : A).
Arguments Raise {A} e.
Arguments Return {A} a.

#[global] Instance Exc_ret : MRet Exc := λ A a, Return a.
#[global] Instance Exc_bind : MBind Exc := λ A B f m,
  match m with
  | Raise e => Raise e
  | Return a => f a
  end.

(** ** The database *)

(** Modelled from the spec: the rows of the Django models [Channel],
    [Product], [ProductVariant], [ProductChannelListing] and
    [ProductVariantChannelListing] of [saleor/channel/models.py] and
    [saleor/product/models.py], with the columns this module reads or
    writes. *)
Record Channel := { channel_pk : Z; currency_code : string }.
Record ProductModel := { product_pk : Z; category : option Z }.
Record ProductVariantModel := { variant_pk : Z; product_id : Z }.

Record ProductChannelListing := {
  pcl_product : Z;
  pcl_channel : Z;
  pcl_is_published : bool;
  pcl_publication_date : option Date
}.

Record ProductVariantChannelListing := {
  pvcl_variant : Z;
  pvcl_channel : Z;
  price_amount : option Decimal;
  currency : string
}.

#[global] Instance Channel_eq_dec : EqDecision Channel.
Proof. solve_decision. Defined.
#[global] Instance ProductChannelListing_eq_dec :
  EqDecision ProductChannelListing.
Proof. solve_decision. Defined.
#[global] Instance ProductVariantChannelListing_eq_dec :
  EqDecision ProductVariantChannelListing.
Proof. solve_decision. Defined.

Record Database := {
  channels : list Channel;
  products : list ProductModel;
  variants : list ProductVariantModel;
  product_channel_listings : list ProductChannelListing;
  variant_channel_listings : list ProductVariantChannelListing
}.

Definition set_product_channel_listings
    (rows : list ProductChannelListing) (db : Database) : Database :=
  {| channels := channels db;
     products := products db;
     variants := variants db;
     product_channel_listings := rows;
     variant_channel_listings := variant_channel_listings db |}.

Definition set_variant_channel_listings
    (rows : list ProductVariantChannelListing) (db : Database) : Database :=
  {| channels := channels db;
     products := products db;
     variants := variants db;
     product_channel_listings := product_channel_listings db;
     variant_channel_listings := rows |}.

(** Code that writes to the database: the state is threaded, and an
    exception leaves the state as it was when it was raised. *)
Definition DB (A : Type) : Type := Database → Exc A * Database.

#[global] Instance DB_ret : MRet DB := λ A a db, (Return a, db).
#[global] Instance DB_bind : MBind DB := λ A B f m db,
  match m db with
  | (Raise e, db') => (Raise e, db')
  | (Return a, db') => f a db'
  end.

(** [@transaction.atomic()]: an exception inside the block rolls every
    write of the block back. *)
Definition transaction_atomic {A} (block : DB A) : DB A := λ db,
  match block db with
  | (Raise e, _) => (Raise e, db)
  | (Return a, db') => (Return a, db')
  end.

(** Django's [objects.update_or_create] with lookup fields and defaults
    on a table: the row that matches the lookup gets the defaults, a row is
    created when none matches, and several matches are an error. *)
Definition update_or_create {Row} (lookup : Row → Prop)
    `{∀ r, Decision (lookup r)} (set_defaults : Row → Row) (create : Row)
    (objects : list Row) : Exc (list Row) :=
  match filter lookup objects with
  | [] => Return (objects ++ [create])
  | [_] => Return ((λ r, if decide (lookup r) then set_defaults r else r)
                     <$> objects)
  | _ => Raise MultipleObjectsReturned
  end.

(** Django's [objects.filter] on lookup fields followed by [delete]. *)
Definition filter_delete {Row} (lookup : Row → Prop)
    `{∀ r, Decision (lookup r)} (objects : list Row) : list Row :=
  filter (λ r, ¬ lookup r) objects.

(** ** Collaborators of the mutations *)

(** Modelled from the spec: [get_duplicates_ids] of
    [saleor/graphql/core/utils], the identifiers that appear in both the
    add-list and the remove-list. *)
Definition get_duplicates_ids (first_list second_list : list GlobalId)
    : gset GlobalId :=
  list_to_set first_list ∩ list_to_set second_list.

(** Modelled from the spec: [get_duplicated_values] of
    [saleor/graphql/core/utils], the identifiers that a list repeats. *)
Definition get_duplicated_values (values : list GlobalId) : gset GlobalId :=
  list_to_set
    (filter (λ value, 1 < length (filter (value =.) values)) values).

(** The kinds of node an identifier can name. *)
Inductive NodeType := Product | ProductVariant | ChannelNode.

#[global] Instance NodeType_eq_dec : EqDecision NodeType.
Proof. solve_decision. Defined.

Section Nodes.

(** The identifier resolution service: what kind of node and which primary
    key an opaque identifier stands for, if any.  The encoding of
    identifiers belongs to the GraphQL layer and stays a parameter; nothing
    in this module makes it one-to-one, and the checks on duplicates below
    compare the identifiers as they were submitted. *)
Variable from_global_id : GlobalId → option (NodeType * Z).

Definition to_primary_key (only_type : NodeType) (id : GlobalId)
    : option Z :=
  match from_global_id id with
  | Some (node_type, pk) =>
      if decide (node_type = only_type) then Some pk else None
  | None => None
  end.

(** Modelled from the spec: [resolve_global_ids_to_primary_keys] of
    [saleor/graphql/utils], which resolves every identifier to an internal
    key and drops the identifiers that do not resolve. *)
Definition resolve_global_ids_to_primary_keys (ids : list GlobalId)
    (graphene_type : NodeType) : NodeType * list Z :=
  (graphene_type, omap (to_primary_key graphene_type) ids).

Definition get_channel (db : Database) (id : GlobalId) : option Channel :=
  pk ← to_primary_key ChannelNode id;
  head (filter (λ c, channel_pk c = pk) (channels db)).

Definition not_found (id : GlobalId) : ValidationError :=
  {| message := "Couldn't resolve to a node.";
     code := NOT_FOUND;
     params_channels := [id] |}.

(** Modelled from the spec: [BaseMutation.get_nodes_or_error] of
    [saleor/graphql/core/mutations.py] at the type [Channel], which
    resolves every identifier to a channel and fails, per identifier, with
    "channel not found" under the given field when one does not resolve. *)
Fixpoint get_nodes_or_error (db : Database) (ids : list GlobalId)
    (field : string) : Exc (list Channel) :=
  match ids with
  | [] => Return []
  | id :: ids' =>
      match get_channel db id with
      | None => Raise (Raised_ValidationError {[ field := [not_found id] ]})
      | Some channel =>
          nodes ← get_nodes_or_error db ids' field;
          mret (channel :: nodes)
      end
  end.

(** Modelled from the spec: [BaseMutation.get_node_or_error] of
    [saleor/graphql/core/mutations.py], the target of the mutation or a
    "not found" failure under the given field. *)
Definition get_node_or_error {Node} (only_type : NodeType)
    (pk_of : Node → Z) (table : list Node) (id : GlobalId)
    (field : string) : Exc Node :=
  match
    pk ← to_primary_key only_type id;
    head (filter (λ node, pk_of node = pk) table)
  with
  | Some node => Return node
  | None => Raise (Raised_ValidationError {[ field := [not_found id] ]})
  end.

End Nodes.

(** Reading the database, and raising, inside code that may write. *)
Definition read {A} (query : Database → Exc A) : DB A :=
  λ db, (query db, db).
Definition raise {A} (e : Exception) : DB A := λ db, (Raise e, db).

(** ** Input objects *)

Module ProductChannelListingAddInput.
Record t := {
  channel_id : GlobalId;
  is_published : bool;
  publication_date : option Date
}.
End ProductChannelListingAddInput.

(** Both lists are optional: [None] is the key left out of the input, which
    [input.get(key, [])] reads as the empty list.  A key given with an
    explicit null is not a value of this type: the requests here are those
    whose lists are given or left out. *)
Module ProductChannelListingUpdateInput.
Record t := {
  add_channels : option (list ProductChannelListingAddInput.t);
  remove_channels : option (list GlobalId)
}.
End ProductChannelListingUpdateInput.

(** [price] is read with [.get("price")] and compared with [None], so it is
    optional here. *)
Module ProductVariantChannelListingAddInput.
Record t := {
  channel_id : GlobalId;
  price : option Decimal
}.
End ProductVariantChannelListingAddInput.

(** ** [ProductChannelListingUpdate] *)

Module ProductChannelListingUpdate.
Import ProductChannelListingAddInput ProductChannelListingUpdateInput.

(** An add-entry after [channel_listing["channel"] = channel]. *)
Record channel_listing := {
  data :> ProductChannelListingAddInput.t;
  channel : Channel
}.

(** The dictionary [cleaned_input]; [{}] has neither key. *)
Record cleaned_input_dict := {
  cleaned_add_channels : option (list channel_listing);
  cleaned_remove_channels : option (list Z)
}.

Definition validate_duplicated_ids
    (add_channels_ids remove_channels_ids : list GlobalId)
    (errors : ErrorType) : ErrorType :=
  let duplicated_ids :=
    get_duplicates_ids add_channels_ids remove_channels_ids in
  if bool_decide (duplicated_ids ≠ ∅) then
    let error_msg :=
      "The same object cannot be in both lists for adding and removing items."
    in
    append_error "input"
      {| message := error_msg;
         code := DUPLICATED_INPUT_ITEM;
         params_channels := elements duplicated_ids |}
      errors
  else errors.

Definition validate_duplicated_values (channels_ids : list GlobalId)
    (field_name : string) (errors : ErrorType) : ErrorType :=
  let duplicates := get_duplicated_values channels_ids in
  if bool_decide (duplicates ≠ ∅) then
    append_error field_name
      {| message := "Duplicated channel ID.";
         code := DUPLICATED_INPUT_ITEM;
         params_channels := elements duplicates |}
      errors
  else errors.

Definition validate_product_without_category
    (cleaned_input : cleaned_input_dict) (errors : ErrorType)
    : ErrorType :=
  let channels_with_published_product_without_category :=
    (λ add_channel : channel_listing, channel_id add_channel) <$>
      filter (λ add_channel : channel_listing,
                is_published add_channel = true)
             (default [] (cleaned_add_channels cleaned_input)) in
  if channels_with_published_product_without_category is [] then errors
  else
    append_error "is_published"
      {| message := "You must select a category to be able to publish.";
         code := PRODUCT_WITHOUT_CATEGORY;
         params_channels :=
           channels_with_published_product_without_category |}
      errors.

(** [ProductChannelListing.objects.update_or_create(product=product,
    channel=channel, defaults=defaults)]. *)
Definition objects_update_or_create (product : ProductModel)
    (channel : Channel) (defaults : bool * option Date) : DB unit :=
  λ db,
    match
      update_or_create
        (λ r, pcl_product r = product_pk product
              ∧ pcl_channel r = channel_pk channel)
        (λ r, {| pcl_product := pcl_product r;
                 pcl_channel := pcl_channel r;
                 pcl_is_published := defaults.1;
                 pcl_publication_date := defaults.2 |})
        {| pcl_product := product_pk product;
           pcl_channel := channel_pk channel;
           pcl_is_published := defaults.1;
           pcl_publication_date := defaults.2 |}
        (product_channel_listings db)
    with
    | Raise e => (Raise e, db)
    | Return rows => (Return (), set_product_channel_listings rows db)
    end.

Fixpoint add_channels (product : ProductModel)
    (channel_listings : list channel_listing) : DB unit :=
  match channel_listings with
  | [] => mret ()
  | add_channel :: rest =>
      let defaults :=
        (is_published add_channel, publication_date add_channel) in
      objects_update_or_create product (channel add_channel) defaults
      ;; add_channels product rest
  end.

Definition remove_channels (product : ProductModel)
    (channel_pks : list Z) : DB unit :=
  λ db,
    (Return (),
     set_product_channel_listings
       (filter_delete
          (λ r, pcl_product r = product_pk product
                ∧ pcl_channel r ∈ channel_pks)
          (product_channel_listings db))
       db).

Definition save (product : ProductModel)
    (cleaned_input : cleaned_input_dict) : DB unit :=
  transaction_atomic
    (add_channels product
       (default [] (cleaned_add_channels cleaned_input))
     ;; remove_channels product
          (default [] (cleaned_remove_channels cleaned_input))).

Section Mutation.

Variable from_global_id : GlobalId → option (NodeType * Z).

Definition clean_channels (db : Database)
    (input : ProductChannelListingUpdateInput.t) (errors : ErrorType)
    : Exc (cleaned_input_dict * ErrorType) :=
  let add_channels :=
    default [] (ProductChannelListingUpdateInput.add_channels input) in
  let add_channels_ids := channel_id <$> add_channels in
  let remove_channels_ids :=
    default [] (ProductChannelListingUpdateInput.remove_channels input)
  in
  let errors :=
    validate_duplicated_ids add_channels_ids remove_channels_ids errors in
  let errors :=
    validate_duplicated_values add_channels_ids "add_channels" errors in
  let errors :=
    validate_duplicated_values remove_channels_ids "remove_channels"
      errors in
  if truthy errors then
    mret ({| cleaned_add_channels := None;
             cleaned_remove_channels := None |}, errors)
  else
    channels_to_add ←
      (if add_channels_ids is [] then mret []
       else get_nodes_or_error from_global_id db add_channels_ids
              "channel_id");
    let '(_, remove_channels_pks) :=
      resolve_global_ids_to_primary_keys from_global_id
        remove_channels_ids ChannelNode in
    mret ({| cleaned_add_channels :=
               Some (zip_with Build_channel_listing add_channels
                       channels_to_add);
             cleaned_remove_channels := Some remove_channels_pks |},
          errors).

Definition perform_mutation (id : GlobalId)
    (input : ProductChannelListingUpdateInput.t) : DB ProductModel :=
  product ← read (λ db,
    get_node_or_error from_global_id Product product_pk (products db)
      id "id");
  '(cleaned_input, errors) ← read (λ db, clean_channels db input ∅);
  let errors :=
    if category product is None then
      validate_product_without_category cleaned_input errors
    else errors in
  if truthy errors then raise (Raised_ValidationError errors)
  else
    save product cleaned_input;;
    mret product.

End Mutation.

End ProductChannelListingUpdate.

(** ** [ProductVaraintChannelListingUpdate] *)

Module ProductVaraintChannelListingUpdate.
Import ProductVariantChannelListingAddInput.

(** An entry after [channel_listing_data["channel"] = channel]. *)
Record channel_listing_data := {
  data :> ProductVariantChannelListingAddInput.t;
  channel : Channel
}.

(** [price is not None and price < 0]. *)
Definition price_lower_than_0 (price : option Decimal) : bool :=
  if price is Some amount then Decimal_lt_0 amount else false.

Definition clean_prices (cleaned_input : list channel_listing_data)
    (errors : ErrorType) : list channel_listing_data * ErrorType :=
  let channels_with_invalid_price :=
    (λ d : channel_listing_data, channel_id d) <$>
      filter (λ d : channel_listing_data,
                price_lower_than_0 (price d) = true)
             cleaned_input in
  let errors :=
    if channels_with_invalid_price is [] then errors
    else
      append_error "price"
        {| message := "Product price cannot be lower than 0.";
           code := INVALID;
           params_channels := channels_with_invalid_price |}
        errors in
  (cleaned_input, errors).

Definition validate_product_assigned_to_channel (db : Database)
    (variant : ProductVariantModel)
    (cleaned_input : list channel_listing_data) (errors : ErrorType)
    : ErrorType :=
  let channel_pks :=
    (λ d : channel_listing_data, channel_pk (channel d)) <$> cleaned_input
  in
  let channels_assigned_to_product :=
    pcl_channel <$>
      filter (λ r, pcl_product r = product_id variant)
             (product_channel_listings db) in
  let channels_not_assigned_to_product : gset Z :=
    list_to_set channel_pks ∖ list_to_set channels_assigned_to_product in
  if bool_decide (channels_not_assigned_to_product ≠ ∅) then
    let channel_global_ids :=
      (λ d : channel_listing_data, channel_id d) <$>
        filter (λ d : channel_listing_data,
                  channel_pk (channel d)
                  ∈ channels_not_assigned_to_product)
               cleaned_input in
    append_error "input"
      {| message := "Product not available in channels.";
         code := PRODUCT_NOT_ASSIGNED_TO_CHANNEL;
         params_channels := channel_global_ids |}
      errors
  else errors.

(** [ProductVariantChannelListing.objects.update_or_create(variant=variant,
    channel=channel, defaults=defaults)]. *)
Definition objects_update_or_create (variant : ProductVariantModel)
    (channel : Channel) (defaults : option Decimal * string) : DB unit :=
  λ db,
    match
      update_or_create
        (λ r, pvcl_variant r = variant_pk variant
              ∧ pvcl_channel r = channel_pk channel)
        (λ r, {| pvcl_variant := pvcl_variant r;
                 pvcl_channel := pvcl_channel r;
                 price_amount := defaults.1;
                 currency := defaults.2 |})
        {| pvcl_variant := variant_pk variant;
           pvcl_channel := channel_pk channel;
           price_amount := defaults.1;
           currency := defaults.2 |}
        (variant_channel_listings db)
    with
    | Raise e => (Raise e, db)
    | Return rows => (Return (), set_variant_channel_listings rows db)
    end.

(** The loop of [save]. *)
Fixpoint save_each (variant : ProductVariantModel)
    (cleaned_input : list channel_listing_data) : DB unit :=
  match cleaned_input with
  | [] => mret ()
  | channel_listing_data :: rest =>
      let channel := channel channel_listing_data in
      let defaults :=
        (price channel_listing_data, currency_code channel) in
      objects_update_or_create variant channel defaults
      ;; save_each variant rest
  end.

Definition save (variant : ProductVariantModel)
    (cleaned_input : list channel_listing_data) : DB unit :=
  transaction_atomic (save_each variant cleaned_input).

Section Mutation.

Variable from_global_id : GlobalId → option (NodeType * Z).

Definition clean_channels (db : Database)
    (input : list ProductVariantChannelListingAddInput.t)
    (errors : ErrorType)
    : Exc (list channel_listing_data * ErrorType) :=
  let add_channels_ids := channel_id <$> input in
  let duplicates := get_duplicated_values add_channels_ids in
  if bool_decide (duplicates ≠ ∅) then
    mret ([],
          append_error "channelId"
            {| message := "Duplicated channel ID.";
               code := DUPLICATED_INPUT_ITEM;
               params_channels := elements duplicates |}
            errors)
  else
    channels ←
      (if add_channels_ids is [] then mret []
       else get_nodes_or_error from_global_id db add_channels_ids
              "channel_id");
    mret (zip_with Build_channel_listing_data input channels, errors).

Definition perform_mutation (id : GlobalId)
    (input : list ProductVariantChannelListingAddInput.t)
    : DB ProductVariantModel :=
  variant ← read (λ db,
    get_node_or_error from_global_id ProductVariant variant_pk
      (variants db) id "id");
  '(cleaned_input, errors) ← read (λ db, clean_channels db input ∅);
  errors ← read (λ db,
    mret (validate_product_assigned_to_channel db variant cleaned_input
            errors));
  let '(cleaned_input, errors) := clean_prices cleaned_input errors in
  if truthy errors then raise (Raised_ValidationError errors)
  else
    save variant cleaned_input;;
    mret variant.

End Mutation.

End ProductVaraintChannelListingUpdate.

(** * Properties *)

(** ** Decimals *)

Lemma Decimal_lt_0_value d :
  Decimal_lt_0 d = true ↔ (Decimal_value d < 0)%Q.
Proof.
  unfold Decimal_lt_0, Decimal_value. rewrite bool_decide_eq_true.
  assert (0 < 10 ^ exponent d)%Q as Hpos by (by apply Qpower_0_lt).
  split.
  - intros Hlt. apply (Qlt_le_trans _ (0 * 10 ^ exponent d)).
    + apply Qmult_lt_compat_r; [done|].
      change (inject_Z (coefficient d) < inject_Z 0)%Q. by rewrite <- Zlt_Qlt.
    + rewrite Qmult_0_l. apply Qle_refl.
  - intros Hlt. destruct (Z_lt_le_dec (coefficient d) 0) as [|Hge]; [done|].
    exfalso. apply (Qlt_not_le _ _ Hlt). apply Qmult_le_0_compat.
    + change (inject_Z 0 <= inject_Z (coefficient d))%Q. by rewrite <- Zle_Qle.
    + by apply Qlt_le_weak.
Qed.

(** ** The error dictionary *)

Lemma truthy_empty : truthy ∅ = false.
Proof. unfold truthy. by rewrite bool_decide_eq_false; intros []. Qed.

Lemma truthy_append_error field error (errors : ErrorType) :
  truthy (append_error field error errors) = true.
Proof.
  unfold truthy, append_error. rewrite bool_decide_eq_true.
  apply insert_non_empty.
Qed.

Lemma truthy_false (errors : ErrorType) : truthy errors = false ↔ errors = ∅.
Proof.
  unfold truthy. rewrite bool_decide_eq_false. split; [|by intros ->; intros []].
  intros H. by destruct (decide (errors = ∅)).
Qed.

Lemma append_error_empty field error :
  append_error field error ∅ = {[ field := [error] ]}.
Proof. unfold append_error. by rewrite lookup_empty. Qed.

Lemma all_errors_singleton field (l : list ValidationError) :
  all_errors {[ field := l ]} = l.
Proof.
  unfold all_errors. rewrite map_to_list_singleton. simpl. apply app_nil_r.
Qed.

(** ** Duplicated identifiers *)

Lemma elem_of_get_duplicates_ids x l1 l2 :
  x ∈ get_duplicates_ids l1 l2 ↔ x ∈ l1 ∧ x ∈ l2.
Proof. unfold get_duplicates_ids. set_solver. Qed.

Lemma get_duplicates_ids_empty l1 l2 :
  get_duplicates_ids l1 l2 = ∅ ↔ ∀ x, x ∈ l1 → x ∉ l2.
Proof.
  split.
  - intros H x H1 H2.
    assert (x ∈ get_duplicates_ids l1 l2) as Hin
      by by apply elem_of_get_duplicates_ids.
    rewrite H in Hin. by apply not_elem_of_empty in Hin.
  - intros H. apply set_eq. intros x. rewrite elem_of_get_duplicates_ids.
    split; [intros [H1 H2]; by destruct (H x H1) | by intros ?%not_elem_of_empty].
Qed.

Section Occurrences.
Context {A : Type} `{EqDecision A}.
Implicit Types (x y : A) (l : list A).

Definition occurrences x l : nat := length (filter (x =.) l).

Lemma occurrences_not_elem_of x l : x ∉ l → occurrences x l = 0.
Proof.
  unfold occurrences. induction l as [|y l IH]; [done|].
  rewrite not_elem_of_cons. intros [Hne Hl].
  rewrite filter_cons_False by done. auto.
Qed.

Lemma occurrences_elem_of x l : x ∈ l → 0 < occurrences x l.
Proof.
  unfold occurrences. induction 1 as [x l|x y l _ IH].
  - rewrite filter_cons_True by done. simpl. lia.
  - rewrite filter_cons. destruct (decide (x = y)); simpl; lia.
Qed.

Lemma occurrences_cons x y l :
  occurrences x (y :: l)
  = (if decide (x = y) then 1 else 0) + occurrences x l.
Proof.
  unfold occurrences. rewrite filter_cons. by destruct (decide (x = y)).
Qed.

Lemma NoDup_occurrences l : NoDup l ↔ ∀ x, x ∈ l → occurrences x l ≤ 1.
Proof.
  induction l as [|y l IH].
  - split; [by intros _ x ?%elem_of_nil | constructor].
  - rewrite NoDup_cons, IH. split.
    + intros [Hy Hl] x Hx. rewrite occurrences_cons.
      destruct (decide (x = y)) as [->|Hne].
      * rewrite occurrences_not_elem_of by done. lia.
      * apply elem_of_cons in Hx as [?|Hx]; [done|]. by apply Hl.
    + intros H. split.
      * intros Hy. pose proof (H y (list_elem_of_here _ _)) as Hle.
        rewrite occurrences_cons, decide_True in Hle by done.
        apply occurrences_elem_of in Hy. lia.
      * intros x Hx. pose proof (H x (list_elem_of_further _ _ _ Hx)) as Hle.
        rewrite occurrences_cons in Hle. lia.
Qed.

End Occurrences.

Lemma elem_of_get_duplicated_values x l :
  x ∈ get_duplicated_values l ↔ x ∈ l ∧ 1 < occurrences x l.
Proof.
  unfold get_duplicated_values.
  rewrite elem_of_list_to_set, list_elem_of_filter. tauto.
Qed.

Lemma get_duplicated_values_empty l : get_duplicated_values l = ∅ ↔ NoDup l.
Proof.
  rewrite NoDup_occurrences. split.
  - intros H x Hx. destruct (decide (occurrences x l ≤ 1)) as [|Hgt]; [done|].
    assert (x ∈ get_duplicated_values l) as Hin
      by (apply elem_of_get_duplicated_values; split; [done|lia]).
    rewrite H in Hin. by apply not_elem_of_empty in Hin.
  - intros H. apply set_eq. intros x.
    rewrite elem_of_get_duplicated_values. split.
    + intros [Hx Hgt]. specialize (H x Hx). lia.
    + by intros ?%not_elem_of_empty.
Qed.

(** ** Tables with a unique key *)

Section Tables.
Context {Row K : Type} `{EqDecision K} (key : Row → K).
Implicit Types (rows : list Row) (k : K).

(** The uniqueness constraint of the table on the columns of [key]. *)
Definition unique_together rows : Prop := NoDup (key <$> rows).

Lemma unique_together_filter (P : Row → Prop) `{∀ r, Decision (P r)} rows :
  unique_together rows → unique_together (filter P rows).
Proof.
  unfold unique_together. intros Huniq.
  eapply sublist_NoDup; [exact Huniq|]. apply fmap_sublist, sublist_filter.
Qed.

Lemma unique_together_matches rows k :
  unique_together rows → length (filter (λ r, key r = k) rows) ≤ 1.
Proof.
  unfold unique_together. induction rows as [|r rows IH]; [simpl; lia|].
  rewrite fmap_cons, NoDup_cons. intros [Hr Hrows].
  rewrite filter_cons. destruct (decide (key r = k)) as [<-|]; [|by apply IH].
  assert (filter (λ r', key r' = key r) rows = []) as ->; [|simpl; lia].
  destruct (filter _ rows) as [|r' ?] eqn:Hf; [done|].
  assert (r' ∈ filter (λ r', key r' = key r) rows) as Hin
    by (rewrite Hf; left).
  apply list_elem_of_filter in Hin as [Hk Hin]. destruct Hr.
  rewrite <- Hk. by apply list_elem_of_fmap_2.
Qed.

Lemma unique_together_elem_of rows r1 r2 :
  unique_together rows → r1 ∈ rows → r2 ∈ rows → key r1 = key r2 → r1 = r2.
Proof.
  unfold unique_together. induction rows as [|r rows IH]; [by intros _ ?%elem_of_nil|].
  rewrite fmap_cons, NoDup_cons. intros [Hr Hrows].
  rewrite !elem_of_cons. intros [->|H1] [->|H2] Hk; auto.
  - destruct Hr. rewrite Hk. by apply list_elem_of_fmap_2.
  - destruct Hr. rewrite <- Hk. by apply list_elem_of_fmap_2.
Qed.

Section Upsert.
Context (lookup : Row → Prop) `{∀ r, Decision (lookup r)}.
Context (set_defaults : Row → Row) (create : Row) (k : K).
Hypothesis lookup_key : ∀ r, lookup r ↔ key r = k.
Hypothesis key_create : key create = k.
Hypothesis set_defaults_create : ∀ r, key r = k → set_defaults r = create.

(** On a table that honours the uniqueness constraint the upsert
    succeeds, keeps the constraint, and leaves exactly the rows of the
    other keys together with the upserted row. *)
Lemma update_or_create_unique rows :
  unique_together rows →
  ∃ rows',
    update_or_create lookup set_defaults create rows = Return rows'
    ∧ unique_together rows'
    ∧ ∀ r, r ∈ rows' ↔ (r ∈ rows ∧ key r ≠ k) ∨ r = create.
Proof.
  intros Huniq. unfold update_or_create.
  pose proof (unique_together_matches rows k Huniq) as Hlen.
  rewrite (list_filter_iff _ lookup) in Hlen
    by (intros r; symmetry; apply lookup_key).
  destruct (filter lookup rows) as [|r0 [|r1 ?]] eqn:Hf;
    [| |simpl in Hlen; lia].
  - eexists. split; [done|]. split.
    + unfold unique_together. rewrite fmap_app. apply NoDup_app.
      split; [done|]. split; [|apply NoDup_singleton].
      intros k' Hk' Hs%list_elem_of_singleton. subst k'.
      apply list_elem_of_fmap in Hk' as (r & Hkr & Hr). simpl in Hkr.
      eapply (filter_nil_not_elem_of lookup); [done| |done].
      apply lookup_key. congruence.
    + intros r. rewrite elem_of_app, list_elem_of_singleton.
      split; [|tauto]. intros [Hr| ->]; [left|by right]. split; [done|].
      intros Hk. eapply (filter_nil_not_elem_of lookup); [done| |done].
      by apply lookup_key.
  - eexists. split; [done|].
    assert (∀ r, r ∈ rows →
              key (if decide (lookup r) then set_defaults r else r)
              = key r) as Hkeys.
    { intros r _. destruct (decide (lookup r)) as [Hl|]; [|done].
      apply lookup_key in Hl. rewrite set_defaults_create by done.
      congruence. }
    split.
    + unfold unique_together. rewrite <- list_fmap_compose.
      erewrite list_fmap_ext; [exact Huniq|].
      intros i r Hi. simpl. apply Hkeys.
      by apply list_elem_of_lookup_2 in Hi.
    + intros r. rewrite list_elem_of_fmap. split.
      * intros (r' & -> & Hr'). destruct (decide (lookup r')) as [Hl|Hl].
        -- right. apply set_defaults_create. by apply lookup_key.
        -- left. split; [done|]. by rewrite <- lookup_key.
      * intros [[Hr Hk]| ->].
        -- exists r. split; [|done]. rewrite decide_False; [done|].
           by rewrite lookup_key.
        -- exists r0.
           assert (r0 ∈ filter lookup rows) as Hin by (rewrite Hf; left).
           apply list_elem_of_filter in Hin as [Hl Hin].
           split; [|done]. rewrite decide_True by done.
           symmetry. apply set_defaults_create. by apply lookup_key.
Qed.

End Upsert.

End Tables.

(** ** Resolving identifiers *)

Section Resolution.
Variable from_global_id : GlobalId → option (NodeType * Z).

Lemma get_channel_pk db id channel :
  get_channel from_global_id db id = Some channel →
  to_primary_key from_global_id ChannelNode id = Some (channel_pk channel)
  ∧ channel ∈ channels db.
Proof.
  unfold get_channel.
  destruct (to_primary_key _ _ _) as [pk|]; simpl; [|done].
  intros Hhead%head_Some_elem_of.
  apply list_elem_of_filter in Hhead as [-> ?]. done.
Qed.

Lemma get_nodes_or_error_Return db ids field nodes :
  get_nodes_or_error from_global_id db ids field = Return nodes ↔
  Forall2 (λ id channel, get_channel from_global_id db id = Some channel)
    ids nodes.
Proof.
  revert nodes. induction ids as [|id ids IH]; intros nodes; simpl.
  - split; [intros [= <-]; constructor | by intros ->%Forall2_nil_inv_l].
  - destruct (get_channel _ db id) as [channel|] eqn:Hch.
    + destruct (get_nodes_or_error _ db ids field) as [e|nodes'] eqn:Hrest;
        simpl.
      * split; [done|]. intros (c & nodes' & _ & H & ->)%Forall2_cons_inv_l.
        by apply IH in H.
      * unfold mret, Exc_ret. split.
        -- intros [= <-]. constructor; [done|]. by apply IH.
        -- intros (c & k & Hc & H & ->)%Forall2_cons_inv_l.
           apply IH in H. congruence.
    + split; [done|]. intros (c & k & Hc & _)%Forall2_cons_inv_l. congruence.
Qed.

(** A failed resolution raises one "not found" failure, for the first
    identifier that does not resolve, under the given field. *)
Lemma get_nodes_or_error_Raise db ids field e :
  get_nodes_or_error from_global_id db ids field = Raise e →
  ∃ id, id ∈ ids ∧ get_channel from_global_id db id = None
        ∧ e = Raised_ValidationError {[ field := [not_found id] ]}.
Proof.
  induction ids as [|id ids IH]; simpl; [done|].
  destruct (get_channel _ db id) as [channel|] eqn:Hch.
  - destruct (get_nodes_or_error _ db ids field) as [e'|nodes'] eqn:Hrest;
      simpl; [|done].
    intros [= <-]. destruct IH as (id' & ? & ? & ?); [done|].
    exists id'. split; [by right|done].
  - intros [= <-]. exists id. split; [left|done].
Qed.

Lemma get_nodes_or_error_total db ids field :
  (∀ id, id ∈ ids → is_Some (get_channel from_global_id db id)) →
  ∃ nodes, get_nodes_or_error from_global_id db ids field = Return nodes.
Proof.
  intros H. destruct (get_nodes_or_error _ db ids field) as [e|nodes] eqn:Hg;
    [|by eexists].
  apply get_nodes_or_error_Raise in Hg as (id & Hin & Hnone & _).
  destruct (H id Hin) as [? ?]. congruence.
Qed.

End Resolution.

(** ** The product manager *)

Module ProductFacts.
Import ProductChannelListingAddInput ProductChannelListingUpdateInput.
Import ProductChannelListingUpdate.

(** The columns of the uniqueness constraint of [ProductChannelListing]. *)
Definition pcl_key (r : ProductChannelListing) : Z * Z :=
  (pcl_product r, pcl_channel r).

(** The row that [add_channels] upserts for one cleaned add-entry. *)
Definition listing_row (product : ProductModel)
    (add_channel : channel_listing) : ProductChannelListing :=
  {| pcl_product := product_pk product;
     pcl_channel := channel_pk (channel add_channel);
     pcl_is_published := is_published add_channel;
     pcl_publication_date := publication_date add_channel |}.

(** The three structural checks of [clean_channels] on a fresh
    dictionary. *)
Definition structural_errors (input : ProductChannelListingUpdateInput.t)
    : ErrorType :=
  let add_channels_ids :=
    channel_id <$>
      default [] (ProductChannelListingUpdateInput.add_channels input) in
  let remove_channels_ids :=
    default [] (ProductChannelListingUpdateInput.remove_channels input) in
  validate_duplicated_values remove_channels_ids "remove_channels"
    (validate_duplicated_values add_channels_ids "add_channels"
       (validate_duplicated_ids add_channels_ids remove_channels_ids ∅)).

Lemma validate_duplicated_ids_NoDup add_ids remove_ids errors :
  (∀ x, x ∈ add_ids → x ∉ remove_ids) →
  validate_duplicated_ids add_ids remove_ids errors = errors.
Proof.
  intros H%get_duplicates_ids_empty. unfold validate_duplicated_ids.
  rewrite H. by rewrite bool_decide_false by (by intros []).
Qed.

Lemma validate_duplicated_ids_dup add_ids remove_ids errors x :
  x ∈ add_ids → x ∈ remove_ids →
  validate_duplicated_ids add_ids remove_ids errors
  = append_error "input"
      {| message :=
           "The same object cannot be in both lists for adding and removing items.";
         code := DUPLICATED_INPUT_ITEM;
         params_channels :=
           elements (get_duplicates_ids add_ids remove_ids) |}
      errors.
Proof.
  intros H1 H2. unfold validate_duplicated_ids.
  rewrite bool_decide_true; [done|].
  intros Hempty. eapply get_duplicates_ids_empty in Hempty; eauto.
Qed.

Lemma validate_duplicated_values_NoDup ids field errors :
  NoDup ids → validate_duplicated_values ids field errors = errors.
Proof.
  intros H%get_duplicated_values_empty. unfold validate_duplicated_values.
  rewrite H. by rewrite bool_decide_false by (by intros []).
Qed.

Lemma validate_duplicated_values_dup ids field errors :
  ¬ NoDup ids →
  validate_duplicated_values ids field errors
  = append_error field
      {| message := "Duplicated channel ID.";
         code := DUPLICATED_INPUT_ITEM;
         params_channels := elements (get_duplicated_values ids) |}
      errors.
Proof.
  intros H. unfold validate_duplicated_values.
  rewrite bool_decide_true; [done|]. by rewrite get_duplicated_values_empty.
Qed.

Lemma structural_errors_empty input :
  structural_errors input = ∅ ↔
  let add_ids :=
    channel_id <$>
      default [] (ProductChannelListingUpdateInput.add_channels input) in
  let remove_ids :=
    default [] (ProductChannelListingUpdateInput.remove_channels input) in
  NoDup add_ids ∧ NoDup remove_ids ∧ ∀ x, x ∈ add_ids → x ∉ remove_ids.
Proof.
  unfold structural_errors. cbv zeta.
  set (add_ids := channel_id <$> _). set (remove_ids := default [] _).
  split.
  - intros H.
    destruct (decide (NoDup remove_ids)) as [Hr|Hr]; cycle 1.
    { rewrite (validate_duplicated_values_dup remove_ids) in H by done.
      apply truthy_false in H. by rewrite truthy_append_error in H. }
    rewrite (validate_duplicated_values_NoDup remove_ids) in H by done.
    destruct (decide (NoDup add_ids)) as [Ha|Ha]; cycle 1.
    { rewrite (validate_duplicated_values_dup add_ids) in H by done.
      apply truthy_false in H. by rewrite truthy_append_error in H. }
    rewrite (validate_duplicated_values_NoDup add_ids) in H by done.
    split_and!; [done..|]. intros x H1 H2.
    rewrite (validate_duplicated_ids_dup _ _ _ x) in H by done.
    apply truthy_false in H. by rewrite truthy_append_error in H.
  - intros (Ha & Hr & Hd).
    rewrite (validate_duplicated_values_NoDup remove_ids) by done.
    rewrite (validate_duplicated_values_NoDup add_ids) by done.
    by rewrite validate_duplicated_ids_NoDup.
Qed.

(** *** Writes *)


Lemma set_product_channel_listings_same db :
  set_product_channel_listings (product_channel_listings db) db = db.
Proof. by destruct db. Qed.

(** The channel keys that a list of cleaned add-entries upserts. *)
Definition upserted_keys (add_channels : list channel_listing) : list Z :=
  (λ add_channel : channel_listing, channel_pk (channel add_channel))
    <$> add_channels.

(** [add_channel] is the last entry of the list for its channel. *)
Definition last_for_channel (add_channels : list channel_listing)
    (add_channel : channel_listing) : Prop :=
  ∃ l1 l2, add_channels = l1 ++ add_channel :: l2
           ∧ channel_pk (channel add_channel) ∉ upserted_keys l2.

Lemma objects_update_or_create_spec product channel defaults db :
  unique_together pcl_key (product_channel_listings db) →
  ∃ rows,
    objects_update_or_create product channel defaults db
    = (Return (), set_product_channel_listings rows db)
    ∧ unique_together pcl_key rows
    ∧ ∀ r, r ∈ rows ↔
           (r ∈ product_channel_listings db
            ∧ pcl_key r ≠ (product_pk product, channel_pk channel))
           ∨ r = {| pcl_product := product_pk product;
                    pcl_channel := channel_pk channel;
                    pcl_is_published := defaults.1;
                    pcl_publication_date := defaults.2 |}.
Proof.
  intros Huniq. unfold objects_update_or_create.
  edestruct (update_or_create_unique pcl_key
               (λ r, pcl_product r = product_pk product
                     ∧ pcl_channel r = channel_pk channel))
    as (rows & -> & Hrows & Hmem); [| | |exact Huniq|].
  - intros r. unfold pcl_key. split; [by intros [-> ->]|by intros [= -> ->]].
  - done.
  - intros [] [= <- <-]. done.
  - by exists rows.
Qed.

Lemma add_channels_spec product add_channels_ db :
  unique_together pcl_key (product_channel_listings db) →
  ∃ rows,
    add_channels product add_channels_ db
    = (Return (), set_product_channel_listings rows db)
    ∧ unique_together pcl_key rows
    ∧ ∀ r, r ∈ rows ↔
           (r ∈ product_channel_listings db
            ∧ ¬ (pcl_product r = product_pk product
                 ∧ pcl_channel r ∈ upserted_keys add_channels_))
           ∨ (∃ add_channel, last_for_channel add_channels_ add_channel
                             ∧ r = listing_row product add_channel).
Proof.
  revert db. induction add_channels_ as [|a rest IH]; intros db Huniq.
  - exists (product_channel_listings db). simpl.
    rewrite set_product_channel_listings_same. split_and!; [done..|].
    intros r. split; [intros ?; left; split; [done|]|].
    + by intros [_ ?%elem_of_nil].
    + intros [[? _]|(a & (l1 & l2 & Hl & _) & _)]; [done|].
      by destruct l1.
  - destruct (objects_update_or_create_spec product (channel a)
                (is_published a, publication_date a) db Huniq)
      as (rows1 & Hupsert & Huniq1 & Hmem1).
    destruct (IH (set_product_channel_listings rows1 db) Huniq1)
      as (rows & Hrest & Huniq' & Hmem).
    exists rows. split_and!; [|done|].
    { simpl. unfold mbind, DB_bind. by rewrite Hupsert, Hrest. }
    intros r. rewrite Hmem. simpl. rewrite Hmem1. clear Hmem Hmem1.
    rewrite elem_of_cons. split.
    + intros [[[[Hr Hk]| ->] Hn]|(a' & (l1 & l2 & -> & Hlast) & ->)].
      * left. split; [done|]. intros [Hp [Hc|Hc]]; [|tauto].
        apply Hk. unfold pcl_key. congruence.
      * right. exists a. split; [|done]. exists [], rest.
        split; [done|]. intros Hin. by apply Hn.
      * right. exists a'. split; [|done]. by exists (a :: l1), l2.
    + intros [[Hr Hn]|(a' & (l1 & l2 & Hl & Hlast) & ->)].
      * left. split; [|tauto]. left. split; [done|].
        intros [= Hp Hc]. apply Hn. auto.
      * destruct l1 as [|a0 l1]; simplify_eq/=.
        -- left. split; [by right|]. by intros [_ ?].
        -- right. exists a'. split; [|done]. by exists l1, l2.
Qed.

Lemma save_spec product cleaned_input db :
  unique_together pcl_key (product_channel_listings db) →
  ∃ rows,
    save product cleaned_input db
    = (Return (), set_product_channel_listings rows db)
    ∧ unique_together pcl_key rows
    ∧ ∀ r, r ∈ rows ↔
        ((r ∈ product_channel_listings db
          ∧ ¬ (pcl_product r = product_pk product
               ∧ pcl_channel r
                 ∈ upserted_keys
                     (default [] (cleaned_add_channels cleaned_input))))
         ∨ (∃ add_channel,
              last_for_channel
                (default [] (cleaned_add_channels cleaned_input))
                add_channel
              ∧ r = listing_row product add_channel))
        ∧ ¬ (pcl_product r = product_pk product
             ∧ pcl_channel r
               ∈ default [] (cleaned_remove_channels cleaned_input)).
Proof.
  intros Huniq.
  destruct (add_channels_spec product
              (default [] (cleaned_add_channels cleaned_input)) db Huniq)
    as (rows1 & Hadd & Huniq1 & Hmem1).
  eexists. split_and!.
  - unfold save, transaction_atomic, mbind, DB_bind. rewrite Hadd.
    unfold remove_channels. simpl. reflexivity.
  - by apply unique_together_filter.
  - intros r. unfold filter_delete. rewrite list_elem_of_filter, Hmem1.
    tauto.
Qed.

Section Mutation.
Variable from_global_id : GlobalId → option (NodeType * Z).

Lemma clean_channels_structural db input :
  truthy (structural_errors input) = true →
  clean_channels from_global_id db input ∅
  = Return ({| cleaned_add_channels := None;
               cleaned_remove_channels := None |},
            structural_errors input).
Proof.
  intros H. unfold clean_channels. cbv zeta.
  fold (structural_errors input). by rewrite H.
Qed.

Lemma clean_channels_resolve db input :
  structural_errors input = ∅ →
  clean_channels from_global_id db input ∅
  = (channels_to_add ←
       get_nodes_or_error from_global_id db
         (channel_id <$>
            default []
              (ProductChannelListingUpdateInput.add_channels input))
         "channel_id";
     mret ({| cleaned_add_channels :=
                Some (zip_with Build_channel_listing
                        (default []
                           (ProductChannelListingUpdateInput.add_channels
                              input))
                        channels_to_add);
              cleaned_remove_channels :=
                Some (omap (to_primary_key from_global_id ChannelNode)
                        (default []
                           (ProductChannelListingUpdateInput.remove_channels
                              input))) |},
           ∅)).
Proof.
  intros H. unfold clean_channels. cbv zeta.
  fold (structural_errors input). rewrite H, truthy_empty.
  by destruct (default [] (ProductChannelListingUpdateInput.add_channels input)).
Qed.

(** [perform_mutation], stage by stage. *)
Lemma perform_mutation_unfold id input db :
  perform_mutation from_global_id id input db
  = match get_node_or_error from_global_id Product product_pk
            (products db) id "id" with
    | Raise e => (Raise e, db)
    | Return product =>
        match clean_channels from_global_id db input ∅ with
        | Raise e => (Raise e, db)
        | Return (cleaned_input, errors) =>
            let errors :=
              if category product is None then
                validate_product_without_category cleaned_input errors
              else errors in
            if truthy errors then (Raise (Raised_ValidationError errors), db)
            else
              match save product cleaned_input db with
              | (Raise e, db') => (Raise e, db')
              | (Return _, db') => (Return product, db')
              end
        end
    end.
Proof.
  unfold perform_mutation, mbind, DB_bind, read, raise.
  destruct (get_node_or_error _ _ _ _ _ _) as [e|product]; [done|].
  destruct (clean_channels _ _ _ _) as [e|[cleaned_input errors]]; [done|].
  cbv zeta. by destruct (truthy _).
Qed.

Lemma get_node_or_error_Raise {Node} only_type (pk_of : Node → Z)
    table id field e :
  get_node_or_error from_global_id only_type pk_of table id field
  = Raise e →
  e = Raised_ValidationError {[ field := [not_found id] ]}.
Proof.
  unfold get_node_or_error. destruct (_ ≫= _); [done|]. by intros [= <-].
Qed.

Lemma truthy_validate_product_without_category cleaned_input errors :
  truthy (validate_product_without_category cleaned_input errors) = false →
  errors = ∅
  ∧ validate_product_without_category cleaned_input errors = ∅
  ∧ ∀ add_channel : channel_listing,
      add_channel ∈ default [] (cleaned_add_channels cleaned_input) →
      is_published add_channel = false.
Proof.
  unfold validate_product_without_category. cbv zeta.
  destruct (_ <$> filter _ _) as [|x l] eqn:Hf.
  - intros H%truthy_false. split_and!; [done..|].
    intros a Ha. apply fmap_nil_inv in Hf.
    destruct (is_published a) eqn:Hp; [|done].
    by destruct (filter_nil_not_elem_of _ _ a Hf Hp).
  - by rewrite truthy_append_error.
Qed.

(** What a request that produces no validation error went through. *)
Lemma no_validation_errors_inv id input db :
  (∀ errors, (perform_mutation from_global_id id input db).1
             ≠ Raise (Raised_ValidationError errors)) →
  ∃ product channels_to_add,
    get_node_or_error from_global_id Product product_pk (products db)
      id "id" = Return product
    ∧ structural_errors input = ∅
    ∧ Forall2
        (λ (a : ProductChannelListingAddInput.t) c,
           get_channel from_global_id db (channel_id a) = Some c)
        (default []
           (ProductChannelListingUpdateInput.add_channels input))
        channels_to_add
    ∧ (category product = None →
       ∀ a, a ∈ default []
                  (ProductChannelListingUpdateInput.add_channels input) →
            is_published a = false)
    ∧ perform_mutation from_global_id id input db
      = match
          save product
            {| cleaned_add_channels :=
                 Some (zip_with Build_channel_listing
                         (default []
                            (ProductChannelListingUpdateInput.add_channels
                               input))
                         channels_to_add);
               cleaned_remove_channels :=
                 Some (omap (to_primary_key from_global_id ChannelNode)
                         (default []
                            (ProductChannelListingUpdateInput.remove_channels
                               input))) |}
            db
        with
        | (Raise e, db') => (Raise e, db')
        | (Return _, db') => (Return product, db')
        end.
Proof.
  rewrite perform_mutation_unfold. intros Hno.
  destruct (get_node_or_error _ _ _ _ _ _) as [e|product] eqn:Hnode.
  { apply get_node_or_error_Raise in Hnode as ->. by destruct (Hno _ eq_refl). }
  destruct (truthy (structural_errors input)) eqn:Hstruct.
  { rewrite clean_channels_structural in Hno |- * by done. exfalso.
    cbv zeta in Hno. destruct (truthy _) eqn:Ht in Hno;
      [by destruct (Hno _ eq_refl)|].
    destruct (category product).
    - congruence.
    - apply truthy_validate_product_without_category in Ht as [Hs _].
      by rewrite Hs, truthy_empty in Hstruct. }
  apply truthy_false in Hstruct.
  rewrite clean_channels_resolve in Hno |- * by done.
  destruct (get_nodes_or_error _ _ _ _) as [e|channels_to_add] eqn:Hnodes.
  { apply get_nodes_or_error_Raise in Hnodes as (? & _ & _ & ->).
    by destruct (Hno _ eq_refl). }
  apply get_nodes_or_error_Return, Forall2_fmap_l in Hnodes.
  simpl in Hno |- *. exists product, channels_to_add.
  destruct (truthy _) eqn:Ht; [by destruct (Hno _ eq_refl)|].
  split_and!; [done..| |done].
  intros Hcat a Ha. rewrite Hcat in Ht.
  apply truthy_validate_product_without_category in Ht as (_ & _ & Hpub).
  simpl in Hpub.
  apply list_elem_of_lookup in Ha as [i Hi].
  destruct (Forall2_lookup_l _ _ _ _ _ Hnodes Hi) as (c & Hc & _).
  apply (Hpub (Build_channel_listing a c)).
  apply list_elem_of_lookup. exists i.
  by rewrite lookup_zip_with, Hi, Hc.
Qed.

End Mutation.

End ProductFacts.

(** ** An example shop *)

(** Identifiers written [Type:key], the key in decimal digits. *)
Fixpoint parse_key (digits : string) (acc : Z) : option Z :=
  match digits with
  | EmptyString => Some acc
  | String c rest =>
      let n := Z.of_nat (Ascii.nat_of_ascii c) in
      if bool_decide (48 ≤ n ≤ 57)%Z
      then parse_key rest (10 * acc + (n - 48))%Z
      else None
  end.

Fixpoint split_colon (id : string) : option (string * string) :=
  match id with
  | EmptyString => None
  | String c rest =>
      if decide (Ascii.nat_of_ascii c = 58) then Some (EmptyString, rest)
      else '(name, digits) ← split_colon rest; Some (String c name, digits)
  end.

Definition node_type_of_name (name : string) : option NodeType :=
  if decide (name = "Product") then Some Product
  else if decide (name = "ProductVariant") then Some ProductVariant
  else if decide (name = "Channel") then Some ChannelNode
  else None.

Definition typed_key (id : GlobalId) : option (NodeType * Z) :=
  '(name, digits) ← split_colon id;
  node_type ← node_type_of_name name;
  if decide (digits = "") then None
  else pk ← parse_key digits 0; Some (node_type, pk).

(** Three channels; product 1 has no category and no listing, product 2 has
    a category and is listed on the channels 1 and 2; variant 1 belongs to
    product 2. *)
Definition shop : Database :=
  {| channels :=
       [ {| channel_pk := 1; currency_code := "USD" |};
         {| channel_pk := 2; currency_code := "EUR" |};
         {| channel_pk := 3; currency_code := "PLN" |} ];
     products :=
       [ {| product_pk := 1; category := None |};
         {| product_pk := 2; category := Some 7%Z |} ];
     variants := [ {| variant_pk := 1; product_id := 2 |} ];
     product_channel_listings :=
       [ {| pcl_product := 2; pcl_channel := 1; pcl_is_published := false;
            pcl_publication_date := None |};
         {| pcl_product := 2; pcl_channel := 2; pcl_is_published := true;
            pcl_publication_date := None |} ];
     variant_channel_listings := [] |}.

Definition add_entry (id : GlobalId) (published : bool)
    (date : option Date) : ProductChannelListingAddInput.t :=
  {| ProductChannelListingAddInput.channel_id := id;
     ProductChannelListingAddInput.is_published := published;
     ProductChannelListingAddInput.publication_date := date |}.

Definition request (adds : list ProductChannelListingAddInput.t)
    (removes : list GlobalId) : ProductChannelListingUpdateInput.t :=
  {| ProductChannelListingUpdateInput.add_channels := Some adds;
     ProductChannelListingUpdateInput.remove_channels := Some removes |}.

(** ** Reconciliation of the product listings *)

Module ProductReconcile.
Import ProductChannelListingAddInput ProductChannelListingUpdateInput.
Import ProductChannelListingUpdate ProductFacts.

(** The row that an add-entry of a request stands for: the channel that
    the entry's identifier resolves to, with the submitted attributes. *)
Definition submitted_row (from_global_id : GlobalId → option (NodeType * Z))
    (db : Database) (product : ProductModel)
    (a : ProductChannelListingAddInput.t) : option ProductChannelListing :=
  c ← get_channel from_global_id db (channel_id a);
  Some {| pcl_product := product_pk product;
          pcl_channel := channel_pk c;
          pcl_is_published := is_published a;
          pcl_publication_date := publication_date a |}.

Definition submitted_rows (from_global_id : GlobalId → option (NodeType * Z))
    (db : Database) (product : ProductModel)
    (input : ProductChannelListingUpdateInput.t)
    : list ProductChannelListing :=
  omap (submitted_row from_global_id db product)
       (default [] (ProductChannelListingUpdateInput.add_channels input)).

(** The channel keys that the add-list of a request resolves to. *)
Definition added_keys (from_global_id : GlobalId → option (NodeType * Z))
    (input : ProductChannelListingUpdateInput.t) : list Z :=
  omap (to_primary_key from_global_id ChannelNode)
       (channel_id <$>
          default [] (ProductChannelListingUpdateInput.add_channels input)).

(** The channel keys that the remove-list of a request resolves to. *)
Definition removed_keys (from_global_id : GlobalId → option (NodeType * Z))
    (input : ProductChannelListingUpdateInput.t) : list Z :=
  omap (to_primary_key from_global_id ChannelNode)
       (default [] (ProductChannelListingUpdateInput.remove_channels input)).

(** The set of rows as the specification words it: the previous rows
    without those of the removed channels, together with the added rows, an
    added row taking the place of the previous row of its channel. *)
Definition reconciled_as_stated (product : Z)
    (previous : list ProductChannelListing) (removed : list Z)
    (added : list ProductChannelListing) (r : ProductChannelListing)
    : Prop :=
  r ∈ added
  ∨ (r ∈ previous
     ∧ ¬ (pcl_product r = product ∧ pcl_channel r ∈ removed)
     ∧ ¬ (pcl_product r = product ∧ pcl_channel r ∈ pcl_channel <$> added)).

Section Reconcile.
Variable from_global_id : GlobalId → option (NodeType * Z).

Lemma submitted_rows_zip db product input channels_to_add :
  Forall2
    (λ (a : ProductChannelListingAddInput.t) c,
       get_channel from_global_id db (channel_id a) = Some c)
    (default [] (ProductChannelListingUpdateInput.add_channels input))
    channels_to_add →
  submitted_rows from_global_id db product input
  = listing_row product
      <$> zip_with Build_channel_listing
            (default [] (ProductChannelListingUpdateInput.add_channels input))
            channels_to_add.
Proof.
  unfold submitted_rows. induction 1 as [|a c adds cs Hc _ IH]; [done|].
  simpl. unfold submitted_row at 1. rewrite Hc. simpl. f_equal. exact IH.
Qed.

Lemma added_keys_zip db input channels_to_add :
  Forall2
    (λ (a : ProductChannelListingAddInput.t) c,
       get_channel from_global_id db (channel_id a) = Some c)
    (default [] (ProductChannelListingUpdateInput.add_channels input))
    channels_to_add →
  added_keys from_global_id input
  = upserted_keys
      (zip_with Build_channel_listing
         (default [] (ProductChannelListingUpdateInput.add_channels input))
         channels_to_add).
Proof.
  unfold added_keys. induction 1 as [|a c adds cs Hc _ IH]; [done|].
  simpl. apply get_channel_pk in Hc as [-> _]. simpl. f_equal. exact IH.
Qed.

Lemma last_for_channel_NoDup add_channels_ add_channel :
  NoDup (upserted_keys add_channels_) →
  add_channel ∈ add_channels_ →
  last_for_channel add_channels_ add_channel.
Proof.
  intros Hnd (l1 & l2 & ->)%list_elem_of_split. exists l1, l2. split; [done|].
  unfold upserted_keys in Hnd. rewrite fmap_app, fmap_cons in Hnd.
  apply NoDup_app in Hnd as (_ & _ & Hnd). by apply NoDup_cons in Hnd as [? _].
Qed.

End Reconcile.

(** C1 (as amended).  For every product-listing request that produces no
    validation error, on a table that has one row per (product, channel),
    and provided the add-entries resolve to pairwise distinct channels none
    of which is among the channel keys the remove-list resolves to: the
    mutation returns the product, every add-entry contributes a row, and
    the rows after the reconcile stage are exactly (the previous rows
    without those of the removed channels) together with (the added
    channels with their submitted [is_published] and [publication_date], a
    date that was not supplied being null), an added row replacing the
    previous row of its channel; the table still has one row per (product,
    channel). *)
Theorem reconcile_set_of_rows from_global_id id input db :
  unique_together pcl_key (product_channel_listings db) →
  (∀ errors, (perform_mutation from_global_id id input db).1
             ≠ Raise (Raised_ValidationError errors)) →
  NoDup (added_keys from_global_id input) →
  Forall (.∉ removed_keys from_global_id input)
    (added_keys from_global_id input) →
  ∃ product rows,
    perform_mutation from_global_id id input db
    = (Return product, set_product_channel_listings rows db)
    ∧ unique_together pcl_key rows
    ∧ length (submitted_rows from_global_id db product input)
      = length (default []
                  (ProductChannelListingUpdateInput.add_channels input))
    ∧ ∀ r, r ∈ rows ↔
           reconciled_as_stated (product_pk product)
             (product_channel_listings db)
             (removed_keys from_global_id input)
             (submitted_rows from_global_id db product input) r.
Proof.
  intros Huniq Hno Hdistinct Hdisjoint. rewrite Forall_forall in Hdisjoint.
  destruct (no_validation_errors_inv _ _ _ _ Hno)
    as (product & cs & _ & _ & Hcs & _ & ->).
  rewrite (added_keys_zip _ db _ cs) in Hdistinct, Hdisjoint by done.
  edestruct (save_spec product) as (rows & -> & Huniq' & Hmem); [exact Huniq|].
  exists product, rows.
  rewrite (submitted_rows_zip _ db product _ cs) by done.
  set (cleaned := zip_with Build_channel_listing _ cs) in *.
  split_and!; [done..| |].
  { rewrite length_fmap. unfold cleaned. rewrite length_zip_with.
    apply Forall2_length in Hcs. lia. }
  intros r. rewrite Hmem. simpl. fold cleaned. unfold reconciled_as_stated.
  fold (removed_keys from_global_id input).
  assert (pcl_channel <$> (listing_row product <$> cleaned)
          = upserted_keys cleaned) as ->.
  { unfold upserted_keys. rewrite <- list_fmap_compose. done. }
  split.
  - intros [[[Hr Hn]|(a & Hlast & ->)] Hrem].
    + right. done.
    + left. destruct Hlast as (l1 & l2 & Hl & _).
      apply list_elem_of_fmap_2. rewrite Hl, elem_of_app. right. left.
  - intros [(a & -> & Ha)%list_elem_of_fmap|(Hr & Hrem & Hadd)].
    + split.
      * right. exists a. split; [|done]. by apply last_for_channel_NoDup.
      * simpl. intros [_ Hin]. eapply Hdisjoint; [|exact Hin].
        unfold upserted_keys. by apply list_elem_of_fmap_2'  with a.
    + split; [by left|done].
Qed.

End ProductReconcile.

(** The scenario of the specification: product 2 has a category and an
    unpublished listing on channel 1; the request publishes it there from
    2024-01-01 and removes channel 3, on which the product is not listed. *)
Definition scenario_publish : ProductChannelListingUpdateInput.t :=
  request
    [add_entry "Channel:1" true (Some {| year := 2024; month := 1; day := 1 |})]
    ["Channel:3"].

Lemma reconcile_set_of_rows_witness :
  ProductChannelListingUpdate.perform_mutation typed_key "Product:2"
    scenario_publish shop
  = (Return {| product_pk := 2; category := Some 7%Z |},
     set_product_channel_listings
       [ {| pcl_product := 2; pcl_channel := 1; pcl_is_published := true;
            pcl_publication_date :=
              Some {| year := 2024; month := 1; day := 1 |} |};
         {| pcl_product := 2; pcl_channel := 2; pcl_is_published := true;
            pcl_publication_date := None |} ]
       shop)
  ∧ ∃ product rows,
      ProductChannelListingUpdate.perform_mutation typed_key "Product:2"
        scenario_publish shop
      = (Return product, set_product_channel_listings rows shop)
      ∧ unique_together ProductFacts.pcl_key rows
      ∧ length (ProductReconcile.submitted_rows typed_key shop product
                  scenario_publish)
        = length (default []
                    (ProductChannelListingUpdateInput.add_channels
                       scenario_publish))
      ∧ ∀ r, r ∈ rows ↔
             ProductReconcile.reconciled_as_stated (product_pk product)
               (product_channel_listings shop)
               (ProductReconcile.removed_keys typed_key scenario_publish)
               (ProductReconcile.submitted_rows typed_key shop product
                  scenario_publish) r.
Proof.
  split; [by vm_compute|].
  apply ProductReconcile.reconcile_set_of_rows.
  - apply (bool_decide_unpack _). by vm_compute.
  - intros errors. vm_compute. discriminate.
  - apply (bool_decide_unpack _). by vm_compute.
  - apply (bool_decide_unpack _). by vm_compute.
Defined.

(** Product 2 is not listed on channel 3; the request adds channel 3 and
    removes it under a second spelling of its key. *)
Definition scenario_two_spellings : ProductChannelListingUpdateInput.t :=
  request [add_entry "Channel:3" true None] ["Channel:03"].

(** C1 as it is worded fails when an add-entry and a remove-entry are two
    spellings of one channel key: the request passes every check and the
    mutation returns, the table after the reconcile stage is the table
    before it, and that is not the set the claim describes, which holds the
    added row of channel 3: the delete runs after the upsert. *)
Lemma reconcile_set_of_rows_counterexample :
  ProductChannelListingUpdate.perform_mutation typed_key "Product:2"
    scenario_two_spellings shop
  = (Return {| product_pk := 2; category := Some 7%Z |}, shop)
  ∧ ¬ (∀ r, r ∈ product_channel_listings shop ↔
            ProductReconcile.reconciled_as_stated 2
              (product_channel_listings shop)
              (ProductReconcile.removed_keys typed_key
                 scenario_two_spellings)
              (ProductReconcile.submitted_rows typed_key shop
                 {| product_pk := 2; category := Some 7%Z |}
                 scenario_two_spellings)
              r).
Proof.
  split; [by vm_compute|]. intros H.
  assert ({| pcl_product := 2; pcl_channel := 3; pcl_is_published := true;
             pcl_publication_date := None |}
          ∈ product_channel_listings shop) as Hin.
  { apply H. left. apply (bool_decide_unpack _). by vm_compute. }
  revert Hin. apply (bool_decide_unpack _). by vm_compute.
Qed.

(** ** The order of the upserts and the deletes *)

Module ProductOrder.
Import ProductChannelListingAddInput ProductChannelListingUpdateInput.
Import ProductChannelListingUpdate ProductFacts ProductReconcile.

(** [save] with its two statements swapped: every delete, then every
    upsert. *)
Definition save_remove_first (product : ProductModel)
    (cleaned_input : cleaned_input_dict) : DB unit :=
  transaction_atomic
    (remove_channels product
       (default [] (cleaned_remove_channels cleaned_input))
     ;; add_channels product
          (default [] (cleaned_add_channels cleaned_input))).

(** No channel key is spelled by two different identifiers, one in the
    add-list and one in the remove-list. *)
Definition one_spelling_per_key
    (from_global_id : GlobalId → option (NodeType * Z))
    (input : ProductChannelListingUpdateInput.t) : Prop :=
  Forall
    (λ a : ProductChannelListingAddInput.t,
       Forall
         (λ r : GlobalId,
            is_Some (to_primary_key from_global_id ChannelNode (channel_id a)) →
            to_primary_key from_global_id ChannelNode (channel_id a)
            = to_primary_key from_global_id ChannelNode r →
            channel_id a = r)
         (default [] (ProductChannelListingUpdateInput.remove_channels input)))
    (default [] (ProductChannelListingUpdateInput.add_channels input)).

Lemma save_remove_first_spec product cleaned_input db :
  unique_together pcl_key (product_channel_listings db) →
  ∃ rows,
    save_remove_first product cleaned_input db
    = (Return (), set_product_channel_listings rows db)
    ∧ unique_together pcl_key rows
    ∧ ∀ r, r ∈ rows ↔
        ((r ∈ product_channel_listings db
          ∧ ¬ (pcl_product r = product_pk product
               ∧ pcl_channel r
                 ∈ default [] (cleaned_remove_channels cleaned_input)))
         ∧ ¬ (pcl_product r = product_pk product
              ∧ pcl_channel r
                ∈ upserted_keys
                    (default [] (cleaned_add_channels cleaned_input))))
        ∨ (∃ add_channel,
             last_for_channel
               (default [] (cleaned_add_channels cleaned_input)) add_channel
             ∧ r = listing_row product add_channel).
Proof.
  intros Huniq.
  set (removed := default [] (cleaned_remove_channels cleaned_input)).
  set (rows1 := filter_delete
                  (λ r, pcl_product r = product_pk product
                        ∧ pcl_channel r ∈ removed)
                  (product_channel_listings db)).
  destruct (add_channels_spec product
              (default [] (cleaned_add_channels cleaned_input))
              (set_product_channel_listings rows1 db))
    as (rows & Hadd & Huniq' & Hmem).
  { by apply unique_together_filter. }
  exists rows. split_and!; [|done|].
  - unfold save_remove_first, transaction_atomic, mbind, DB_bind.
    unfold remove_channels at 1. fold removed rows1. by rewrite Hadd.
  - intros r. rewrite Hmem. simpl. unfold rows1, filter_delete.
    by rewrite list_elem_of_filter, (comm _ (_ ∈ product_channel_listings db)).
Qed.

Lemma added_keys_not_removed from_global_id input :
  structural_errors input = ∅ →
  one_spelling_per_key from_global_id input →
  Forall (.∉ removed_keys from_global_id input)
    (added_keys from_global_id input).
Proof.
  intros (_ & _ & Hcross)%structural_errors_empty Hone.
  unfold one_spelling_per_key in Hone. rewrite Forall_forall in Hone.
  apply Forall_forall. intros k.
  unfold added_keys, removed_keys. rewrite !list_elem_of_omap.
  intros (x & (a & -> & Ha)%list_elem_of_fmap & Hk) (r & Hr & Hk').
  specialize (Hone a Ha). rewrite Forall_forall in Hone.
  apply (Hcross (channel_id a)); [by apply list_elem_of_fmap_2|].
  rewrite (Hone r Hr); [done|by rewrite Hk|congruence].
Qed.

(** C9 (as amended).  For every product-listing request that reaches the
    reconcile stage, provided no channel key is spelled by two different
    identifiers of its add-list and its remove-list: the channel keys that
    are upserted are disjoint from the channel keys that are deleted (the
    cross add/remove duplicate check then guarantees it before any write),
    so the deletes that run after the upserts delete no row that the
    request just wrote, and the set of rows is the same when the deletes run
    first. *)
Theorem upserts_disjoint_from_deletes from_global_id id input db :
  unique_together pcl_key (product_channel_listings db) →
  (∀ errors, (perform_mutation from_global_id id input db).1
             ≠ Raise (Raised_ValidationError errors)) →
  one_spelling_per_key from_global_id input →
  ∃ product cleaned_input rows rows',
    clean_channels from_global_id db input ∅ = Return (cleaned_input, ∅)
    ∧ Forall (.∉ default [] (cleaned_remove_channels cleaned_input))
        (upserted_keys (default [] (cleaned_add_channels cleaned_input)))
    ∧ perform_mutation from_global_id id input db
      = (Return product, set_product_channel_listings rows db)
    ∧ save product cleaned_input db
      = (Return (), set_product_channel_listings rows db)
    ∧ (∀ add_channel,
         last_for_channel (default [] (cleaned_add_channels cleaned_input))
           add_channel →
         listing_row product add_channel ∈ rows)
    ∧ save_remove_first product cleaned_input db
      = (Return (), set_product_channel_listings rows' db)
    ∧ ∀ r, r ∈ rows ↔ r ∈ rows'.
Proof.
  intros Huniq Hno Hone.
  destruct (no_validation_errors_inv _ _ _ _ Hno)
    as (product & cs & _ & Hstruct & Hcs & _ & Hperform).
  pose proof (added_keys_not_removed _ _ Hstruct Hone) as Hdisjoint.
  rewrite (added_keys_zip _ db _ cs) in Hdisjoint by done.
  set (cleaned_input :=
         {| cleaned_add_channels :=
              Some (zip_with Build_channel_listing
                      (default []
                         (ProductChannelListingUpdateInput.add_channels input))
                      cs);
            cleaned_remove_channels :=
              Some (removed_keys from_global_id input) |}) in *.
  destruct (save_spec product cleaned_input db Huniq)
    as (rows & Hsave & _ & Hmem).
  destruct (save_remove_first_spec product cleaned_input db Huniq)
    as (rows' & Hsave' & _ & Hmem').
  exists product, cleaned_input, rows, rows'.
  assert (∀ add_channel,
            last_for_channel (default [] (cleaned_add_channels cleaned_input))
              add_channel →
            ¬ (pcl_product (listing_row product add_channel)
               = product_pk product
               ∧ pcl_channel (listing_row product add_channel)
                 ∈ default [] (cleaned_remove_channels cleaned_input)))
    as Hkept.
  { intros a (l1 & l2 & Hl & _) [_ Hin]. rewrite Forall_forall in Hdisjoint.
    eapply Hdisjoint; [|exact Hin]. unfold cleaned_input in Hl. simpl in Hl.
    rewrite Hl. unfold upserted_keys.
    rewrite fmap_app, fmap_cons, elem_of_app. right. left. }
  split_and!; [|done| |done| |done|].
  - rewrite clean_channels_resolve by done.
    erewrite (proj2 (get_nodes_or_error_Return _ _ _ _ cs)); [done|].
    apply Forall2_fmap_l. exact Hcs.
  - unfold removed_keys in cleaned_input. fold cleaned_input in Hperform.
    by rewrite Hperform, Hsave.
  - intros a Hlast. apply Hmem. split; [right; by exists a|by apply Hkept].
  - intros r. rewrite Hmem, Hmem'. split.
    + intros [[[Hr Hn]|(a & Hlast & ->)] Hrem]; [left|right]; eauto.
    + intros [[[Hr Hrem] Hn]|(a & Hlast & ->)]; [tauto|]. split; [right|]; eauto.
Qed.

End ProductOrder.

Lemma upserts_disjoint_from_deletes_witness :
  ∃ product cleaned_input rows rows',
    ProductChannelListingUpdate.clean_channels typed_key shop
      scenario_publish ∅ = Return (cleaned_input, ∅)
    ∧ Forall
        (.∉ default []
              (ProductChannelListingUpdate.cleaned_remove_channels
                 cleaned_input))
        (ProductFacts.upserted_keys
           (default []
              (ProductChannelListingUpdate.cleaned_add_channels
                 cleaned_input)))
    ∧ ProductChannelListingUpdate.perform_mutation typed_key "Product:2"
        scenario_publish shop
      = (Return product, set_product_channel_listings rows shop)
    ∧ ProductChannelListingUpdate.save product cleaned_input shop
      = (Return (), set_product_channel_listings rows shop)
    ∧ (∀ add_channel,
         ProductFacts.last_for_channel
           (default []
              (ProductChannelListingUpdate.cleaned_add_channels
                 cleaned_input))
           add_channel →
         ProductFacts.listing_row product add_channel ∈ rows)
    ∧ ProductOrder.save_remove_first product cleaned_input shop
      = (Return (), set_product_channel_listings rows' shop)
    ∧ ∀ r, r ∈ rows ↔ r ∈ rows'.
Proof.
  apply (ProductOrder.upserts_disjoint_from_deletes typed_key "Product:2"
           scenario_publish shop).
  - apply (bool_decide_unpack _). by vm_compute.
  - intros errors. vm_compute. discriminate.
  - apply (bool_decide_unpack _). by vm_compute.
Defined.

(** What the clean stage hands to [save] for the request that adds channel
    3 and removes it under a second spelling. *)
Definition cleaned_two_spellings
    : ProductChannelListingUpdate.cleaned_input_dict :=
  {| ProductChannelListingUpdate.cleaned_add_channels :=
       Some [ {| ProductChannelListingUpdate.data :=
                   add_entry "Channel:3" true None;
                 ProductChannelListingUpdate.channel :=
                   {| channel_pk := 3; currency_code := "PLN" |} |} ];
     ProductChannelListingUpdate.cleaned_remove_channels := Some [3%Z] |}.

(** C9 as it is worded fails: the duplicate check compares the identifiers
    as strings.  The request below passes it and reaches the reconcile
    stage with channel key 3 both upserted and deleted; the delete removes
    the row that the request just wrote, and with the deletes first the row
    would be there. *)
Lemma upserts_disjoint_from_deletes_counterexample :
  ProductChannelListingUpdate.clean_channels typed_key shop
    scenario_two_spellings ∅ = Return (cleaned_two_spellings, ∅)
  ∧ ProductChannelListingUpdate.perform_mutation typed_key "Product:2"
      scenario_two_spellings shop
    = (Return {| product_pk := 2; category := Some 7%Z |}, shop)
  ∧ ¬ Forall
        (.∉ default []
              (ProductChannelListingUpdate.cleaned_remove_channels
                 cleaned_two_spellings))
        (ProductFacts.upserted_keys
           (default []
              (ProductChannelListingUpdate.cleaned_add_channels
                 cleaned_two_spellings)))
  ∧ ProductChannelListingUpdate.save
      {| product_pk := 2; category := Some 7%Z |} cleaned_two_spellings shop
    = (Return (), shop)
  ∧ ProductOrder.save_remove_first
      {| product_pk := 2; category := Some 7%Z |} cleaned_two_spellings shop
    = (Return (),
       set_product_channel_listings
         (product_channel_listings shop
          ++ [ {| pcl_product := 2; pcl_channel := 3;
                  pcl_is_published := true;
                  pcl_publication_date := None |} ])
         shop).
Proof.
  split_and!; [by vm_compute..| |by vm_compute|by vm_compute].
  apply (bool_decide_unpack _). by vm_compute.
Qed.

(** ** Rejected product requests *)

Module ProductRejected.
Import ProductChannelListingAddInput ProductChannelListingUpdateInput.
Import ProductChannelListingUpdate ProductFacts.

(** The failure of the category check for a list of add-entries. *)
Definition product_without_category (channels : list GlobalId)
    : ValidationError :=
  {| message := "You must select a category to be able to publish.";
     code := PRODUCT_WITHOUT_CATEGORY;
     params_channels := channels |}.

(** The failure of the cross add/remove duplicate check. *)
Definition duplicated_in_both_lists (add_ids remove_ids : list GlobalId)
    : ValidationError :=
  {| message :=
       "The same object cannot be in both lists for adding and removing items.";
     code := DUPLICATED_INPUT_ITEM;
     params_channels := elements (get_duplicates_ids add_ids remove_ids) |}.

(** The failure of the duplicate check of one list. *)
Definition duplicated_in_list (ids : list GlobalId) : ValidationError :=
  {| message := "Duplicated channel ID.";
     code := DUPLICATED_INPUT_ITEM;
     params_channels := elements (get_duplicated_values ids) |}.

(** The identifiers of the add-entries that ask for publication. *)
Definition published_ids (adds : list ProductChannelListingAddInput.t)
    : list GlobalId :=
  channel_id <$> filter (λ a, is_published a = true) adds.

Lemma save_Raise product cleaned_input db e :
  (save product cleaned_input db).1 = Raise e →
  (save product cleaned_input db).2 = db.
Proof.
  unfold save, transaction_atomic.
  by match goal with
     | |- context [match ?block with _ => _ end] =>
         destruct block as [[?|?] ?]
     end.
Qed.

Lemma validate_without_add_channels cleaned_input errors :
  default [] (cleaned_add_channels cleaned_input) = [] →
  validate_product_without_category cleaned_input errors = errors.
Proof. unfold validate_product_without_category. by intros ->. Qed.

Lemma published_ids_zip (adds : list ProductChannelListingAddInput.t)
    (cs : list Channel) :
  length adds = length cs →
  (λ a : channel_listing, channel_id a)
    <$> filter (λ a : channel_listing, is_published a = true)
          (zip_with Build_channel_listing adds cs)
  = published_ids adds.
Proof.
  unfold published_ids. revert cs.
  induction adds as [|a adds IH]; intros [|c cs] Hlen; simplify_eq/=; [done|].
  rewrite !filter_cons. simpl.
  destruct (decide (is_published a = true)); simpl; by rewrite IH.
Qed.

Section Mutation.
Variable from_global_id : GlobalId → option (NodeType * Z).

(** Whatever is raised, nothing was written. *)
Lemma perform_mutation_Raise id input db e :
  (perform_mutation from_global_id id input db).1 = Raise e →
  (perform_mutation from_global_id id input db).2 = db.
Proof.
  rewrite perform_mutation_unfold.
  destruct (get_node_or_error _ _ _ _ _ _) as [?|product]; [done|].
  destruct (clean_channels _ _ _ _) as [?|[cleaned_input errors]]; [done|].
  cbv zeta. destruct (truthy _); [done|].
  pose proof (save_Raise product cleaned_input db) as Hsave.
  destruct (save product cleaned_input db) as [[e'|?] db']; [|done].
  intros _. by apply (Hsave e').
Qed.

(** A request with a structural duplicate: the clean stage resolves
    nothing, the category check sees no add-entry, and the structural
    failures are raised. *)
Lemma perform_mutation_structural id input db product :
  get_node_or_error from_global_id Product product_pk (products db) id "id"
  = Return product →
  truthy (structural_errors input) = true →
  perform_mutation from_global_id id input db
  = (Raise (Raised_ValidationError (structural_errors input)), db).
Proof.
  intros Hnode Hstruct. rewrite perform_mutation_unfold, Hnode.
  rewrite clean_channels_structural by done. cbv zeta.
  rewrite validate_without_add_channels by done.
  destruct (category product); by rewrite Hstruct.
Qed.

(** A request without structural duplicate one of whose add identifiers
    does not resolve: the resolver's failure is raised on its own. *)
Lemma perform_mutation_not_found id input db product e :
  get_node_or_error from_global_id Product product_pk (products db) id "id"
  = Return product →
  structural_errors input = ∅ →
  get_nodes_or_error from_global_id db
    (channel_id <$>
       default [] (ProductChannelListingUpdateInput.add_channels input))
    "channel_id" = Raise e →
  perform_mutation from_global_id id input db = (Raise e, db).
Proof.
  intros Hnode Hstruct Hnodes. rewrite perform_mutation_unfold, Hnode.
  rewrite clean_channels_resolve by done. by rewrite Hnodes.
Qed.

(** A request that passes the clean stage, for a product without category
    that it asks to publish. *)
Lemma perform_mutation_without_category id input db product :
  get_node_or_error from_global_id Product product_pk (products db) id "id"
  = Return product →
  category product = None →
  structural_errors input = ∅ →
  Forall
    (λ a, is_Some (get_channel from_global_id db (channel_id a)))
    (default [] (ProductChannelListingUpdateInput.add_channels input)) →
  published_ids
    (default [] (ProductChannelListingUpdateInput.add_channels input)) ≠ [] →
  perform_mutation from_global_id id input db
  = (Raise
       (Raised_ValidationError
          {[ "is_published" :=
               [product_without_category
                  (published_ids
                     (default []
                        (ProductChannelListingUpdateInput.add_channels
                           input)))] ]}),
     db).
Proof.
  intros Hnode Hcat Hstruct Hall Hpub.
  destruct (get_nodes_or_error_total from_global_id db
              (channel_id <$>
                 default []
                   (ProductChannelListingUpdateInput.add_channels input))
              "channel_id") as [cs Hcs].
  { intros x (a & -> & Ha)%list_elem_of_fmap.
    rewrite Forall_forall in Hall. by apply Hall. }
  rewrite perform_mutation_unfold, Hnode.
  rewrite clean_channels_resolve by done. rewrite Hcs, Hcat. simpl.
  apply get_nodes_or_error_Return, Forall2_length in Hcs.
  rewrite length_fmap in Hcs.
  unfold validate_product_without_category. simpl.
  rewrite published_ids_zip by done.
  destruct (published_ids _) as [|x l] eqn:Hp; [done|].
  by rewrite truthy_append_error, append_error_empty.
Qed.

Lemma published_ids_Exists adds :
  Exists (λ a, is_published a = true) adds → published_ids adds ≠ [].
Proof.
  intros (a & Ha & Hp)%Exists_exists Hnil. unfold published_ids in Hnil.
  apply fmap_nil_inv in Hnil.
  by destruct (filter_nil_not_elem_of _ _ a Hnil Hp).
Qed.

(** C4 (as amended).  For every product-listing request where the product
    has no category and some add-entry has [isPublished = true], the
    request is rejected and zero storage writes occur; when moreover the
    clean stage finds no structural duplicate and resolves every add
    identifier, the validate stage produces a single
    PRODUCT_WITHOUT_CATEGORY error that lists every such channel identifier
    (not one error per channel), and it is the only error of the
    response. *)
Theorem publish_without_category id input db product :
  get_node_or_error from_global_id Product product_pk (products db) id "id"
  = Return product →
  category product = None →
  Exists (λ a, is_published a = true)
    (default [] (ProductChannelListingUpdateInput.add_channels input)) →
  (∃ errors,
     perform_mutation from_global_id id input db
     = (Raise (Raised_ValidationError errors), db))
  ∧ (structural_errors input = ∅ →
     Forall
       (λ a, is_Some (get_channel from_global_id db (channel_id a)))
       (default [] (ProductChannelListingUpdateInput.add_channels input)) →
     perform_mutation from_global_id id input db
     = (Raise
          (Raised_ValidationError
             {[ "is_published" :=
                  [product_without_category
                     (channel_id
                        <$> filter (λ a, is_published a = true)
                              (default []
                                 (ProductChannelListingUpdateInput.add_channels
                                    input)))] ]}),
        db)).
Proof.
  intros Hnode Hcat Hpub%published_ids_Exists.
  assert (structural_errors input = ∅ →
          Forall
            (λ a, is_Some (get_channel from_global_id db (channel_id a)))
            (default [] (ProductChannelListingUpdateInput.add_channels input)) →
          perform_mutation from_global_id id input db
          = (Raise
               (Raised_ValidationError
                  {[ "is_published" :=
                       [product_without_category
                          (published_ids
                             (default []
                                (ProductChannelListingUpdateInput.add_channels
                                   input)))] ]}),
             db)) as Hpassed.
  { intros. by apply (perform_mutation_without_category _ _ _ product). }
  split; [|exact Hpassed].
  destruct (truthy (structural_errors input)) eqn:Hstruct.
  { eexists. exact (perform_mutation_structural _ _ _ _ Hnode Hstruct). }
  apply truthy_false in Hstruct.
  destruct (get_nodes_or_error from_global_id db
              (channel_id <$>
                 default []
                   (ProductChannelListingUpdateInput.add_channels input))
              "channel_id") as [e|cs] eqn:Hnodes.
  - pose proof Hnodes as (x & _ & _ & ->)%get_nodes_or_error_Raise.
    eexists. exact (perform_mutation_not_found _ _ _ _ _ Hnode Hstruct Hnodes).
  - eexists. apply Hpassed; [done|].
    apply get_nodes_or_error_Return, Forall2_fmap_l in Hnodes.
    eapply Forall2_Forall_l; [exact Hnodes|]. apply Forall_true.
    intros c a Hc. simpl in Hc. by rewrite Hc.
Qed.

End Mutation.
End ProductRejected.

(** Product 1 has no category; the request publishes it on the channels 1
    and 3 and lists it, unpublished, on channel 2. *)
Definition scenario_publish_without_category
    : ProductChannelListingUpdateInput.t :=
  request
    [add_entry "Channel:1" true None; add_entry "Channel:2" false None;
     add_entry "Channel:3" true None]
    [].

Lemma publish_without_category_witness :
  ProductChannelListingUpdate.perform_mutation typed_key "Product:1"
    scenario_publish_without_category shop
  = (Raise
       (Raised_ValidationError
          {[ "is_published" :=
               [ProductRejected.product_without_category
                  ["Channel:1"; "Channel:3"]] ]}),
     shop).
Proof.
  refine (proj2
    (ProductRejected.publish_without_category typed_key "Product:1"
       scenario_publish_without_category shop
       {| product_pk := 1; category := None |} _ _ _) _ _).
  - by vm_compute.
  - reflexivity.
  - apply (bool_decide_unpack _). by vm_compute.
  - by vm_compute.
  - apply (bool_decide_unpack _). by vm_compute.
Defined.

(** The scenario of the specification: product 1 has no category, and the
    request adds channel 1 twice, published and unpublished. *)
Definition scenario_added_twice : ProductChannelListingUpdateInput.t :=
  {| ProductChannelListingUpdateInput.add_channels :=
       Some [add_entry "Channel:1" true None;
             add_entry "Channel:1" false None];
     ProductChannelListingUpdateInput.remove_channels := None |}.

(** C4 as it is worded fails on a request that the clean stage stops: the
    product has no category, an add-entry has [isPublished = true], and the
    response holds no PRODUCT_WITHOUT_CATEGORY error, because
    [clean_channels] returns an empty cleaned input once a structural
    duplicate is found. *)
Lemma publish_without_category_counterexample :
  get_node_or_error typed_key Product product_pk (products shop)
    "Product:1" "id"
  = Return {| product_pk := 1; category := None |}
  ∧ Exists (λ a, ProductChannelListingAddInput.is_published a = true)
      (default []
         (ProductChannelListingUpdateInput.add_channels scenario_added_twice))
  ∧ ProductChannelListingUpdate.perform_mutation typed_key "Product:1"
      scenario_added_twice shop
    = (Raise
         (Raised_ValidationError
            {[ "add_channels" :=
                 [ProductRejected.duplicated_in_list
                    ["Channel:1"; "Channel:1"]] ]}),
       shop)
  ∧ errors_with_code PRODUCT_WITHOUT_CATEGORY
      {[ "add_channels" :=
           [ProductRejected.duplicated_in_list ["Channel:1"; "Channel:1"]] ]}
    = [].
Proof.
  split_and!; [by vm_compute| |by vm_compute|by vm_compute].
  apply (bool_decide_unpack _). by vm_compute.
Qed.

(** ** Structural duplicates in product requests *)

Module ProductDuplicates.
Import ProductChannelListingAddInput ProductChannelListingUpdateInput.
Import ProductChannelListingUpdate ProductFacts ProductRejected.

Lemma validate_duplicated_values_lookup_ne ids field errors other :
  field ≠ other →
  validate_duplicated_values ids field errors !! other = errors !! other.
Proof.
  intros Hne. unfold validate_duplicated_values. cbv zeta.
  destruct (bool_decide _); [|done]. unfold append_error.
  by rewrite lookup_insert_ne.
Qed.

Lemma get_duplicated_values_twice x : get_duplicated_values [x; x] = {[ x ]}.
Proof.
  apply set_eq. intros y.
  rewrite elem_of_get_duplicated_values, elem_of_singleton. split.
  - intros [Hy _]. apply elem_of_cons in Hy as [->|Hy]; [done|].
    by apply list_elem_of_singleton in Hy.
  - intros ->. split; [left|]. rewrite !occurrences_cons, !decide_True by done.
    simpl. lia.
Qed.

Section Mutation.
Variable from_global_id : GlobalId → option (NodeType * Z).

(** C6 (as amended).  For every product-listing request in which the same
    channel identifier appears in both the add-list and the remove-list,
    the request is rejected, the response holds under the field [input]
    exactly one DUPLICATED_INPUT_ITEM error, whose parameters are the
    identifiers that appear in both lists and so name that identifier, and
    no storage writes occur; it is the only error of the response when
    neither list repeats an identifier. *)
Theorem duplicated_across_lists id input db product x :
  get_node_or_error from_global_id Product product_pk (products db) id "id"
  = Return product →
  x ∈ channel_id
        <$> default [] (ProductChannelListingUpdateInput.add_channels input) →
  x ∈ default [] (ProductChannelListingUpdateInput.remove_channels input) →
  let add_ids :=
    channel_id
      <$> default [] (ProductChannelListingUpdateInput.add_channels input) in
  let remove_ids :=
    default [] (ProductChannelListingUpdateInput.remove_channels input) in
  let duplicated := duplicated_in_both_lists add_ids remove_ids in
  ∃ errors,
    perform_mutation from_global_id id input db
    = (Raise (Raised_ValidationError errors), db)
    ∧ errors !! "input" = Some [duplicated]
    ∧ code duplicated = DUPLICATED_INPUT_ITEM
    ∧ x ∈ params_channels duplicated
    ∧ (∀ y, y ∈ params_channels duplicated ↔ y ∈ add_ids ∧ y ∈ remove_ids)
    ∧ (NoDup add_ids → NoDup remove_ids →
       errors = {[ "input" := [duplicated] ]}).
Proof.
  intros Hnode Hadd Hremove add_ids remove_ids duplicated.
  exists (structural_errors input).
  assert (validate_duplicated_ids add_ids remove_ids ∅
          = {[ "input" := [duplicated] ]}) as Hcross.
  { rewrite (validate_duplicated_ids_dup _ _ _ x) by done.
    by rewrite append_error_empty. }
  assert (∀ y, y ∈ params_channels duplicated ↔ y ∈ add_ids ∧ y ∈ remove_ids)
    as Hparams.
  { intros y. unfold duplicated, duplicated_in_both_lists. simpl.
    by rewrite elem_of_elements, elem_of_get_duplicates_ids. }
  assert (structural_errors input !! "input" = Some [duplicated]) as Hinput.
  { unfold structural_errors. cbv zeta. fold add_ids remove_ids.
    rewrite !validate_duplicated_values_lookup_ne by done.
    by rewrite Hcross, lookup_singleton_eq. }
  split_and!; [|done|done| |done|].
  - apply (perform_mutation_structural _ _ _ _ product); [done|].
    destruct (truthy _) eqn:Ht; [done|]. apply truthy_false in Ht.
    by rewrite Ht, lookup_empty in Hinput.
  - by apply Hparams.
  - intros Ha Hr. unfold structural_errors. cbv zeta. fold add_ids remove_ids.
    by rewrite !validate_duplicated_values_NoDup.
Qed.

End Mutation.
End ProductDuplicates.

(** Channel 2 is both added and removed. *)
Definition scenario_add_and_remove : ProductChannelListingUpdateInput.t :=
  request [add_entry "Channel:1" false None; add_entry "Channel:2" false None]
    ["Channel:2"; "Channel:3"].

Lemma duplicated_across_lists_witness :
  ∃ errors,
    ProductChannelListingUpdate.perform_mutation typed_key "Product:2"
      scenario_add_and_remove shop
    = (Raise (Raised_ValidationError errors), shop)
    ∧ errors !! "input"
      = Some [ProductRejected.duplicated_in_both_lists
                ["Channel:1"; "Channel:2"] ["Channel:2"; "Channel:3"]]
    ∧ code (ProductRejected.duplicated_in_both_lists
              ["Channel:1"; "Channel:2"] ["Channel:2"; "Channel:3"])
      = DUPLICATED_INPUT_ITEM
    ∧ "Channel:2"
      ∈ params_channels
          (ProductRejected.duplicated_in_both_lists
             ["Channel:1"; "Channel:2"] ["Channel:2"; "Channel:3"])
    ∧ (∀ y, y ∈ params_channels
                  (ProductRejected.duplicated_in_both_lists
                     ["Channel:1"; "Channel:2"] ["Channel:2"; "Channel:3"])
            ↔ y ∈ ["Channel:1"; "Channel:2"]
              ∧ y ∈ ["Channel:2"; "Channel:3"])
    ∧ (NoDup ["Channel:1"; "Channel:2"] → NoDup ["Channel:2"; "Channel:3"] →
       errors
       = {[ "input" :=
              [ProductRejected.duplicated_in_both_lists
                 ["Channel:1"; "Channel:2"] ["Channel:2"; "Channel:3"]] ]}).
Proof.
  apply (ProductDuplicates.duplicated_across_lists typed_key "Product:2"
           scenario_add_and_remove shop
           {| product_pk := 2; category := Some 7%Z |} "Channel:2").
  - by vm_compute.
  - apply (bool_decide_unpack _). by vm_compute.
  - apply (bool_decide_unpack _). by vm_compute.
Defined.

(** Channel 1 is added twice and removed. *)
Definition scenario_added_twice_and_removed
    : ProductChannelListingUpdateInput.t :=
  request [add_entry "Channel:1" true None; add_entry "Channel:1" false None]
    ["Channel:1"].

(** The response to that request. *)
Definition errors_added_twice_and_removed : ErrorType :=
  <[ "input" :=
       [ {| message :=
              "The same object cannot be in both lists for adding and removing items.";
            code := DUPLICATED_INPUT_ITEM;
            params_channels := ["Channel:1"] |} ] ]>
  {[ "add_channels" :=
       [ {| message := "Duplicated channel ID.";
            code := DUPLICATED_INPUT_ITEM;
            params_channels := ["Channel:1"] |} ] ]}.

(** C6 as it is worded fails when a list also repeats the identifier: the
    identifier is in both lists, and the response holds two
    DUPLICATED_INPUT_ITEM errors that name it, one of the cross check and
    one of the check of the add-list. *)
Lemma duplicated_across_lists_counterexample :
  "Channel:1"
  ∈ ProductChannelListingAddInput.channel_id
      <$> default []
            (ProductChannelListingUpdateInput.add_channels
               scenario_added_twice_and_removed)
  ∧ "Channel:1"
    ∈ default []
        (ProductChannelListingUpdateInput.remove_channels
           scenario_added_twice_and_removed)
  ∧ ProductChannelListingUpdate.perform_mutation typed_key "Product:2"
      scenario_added_twice_and_removed shop
    = (Raise (Raised_ValidationError errors_added_twice_and_removed), shop)
  ∧ length
      (errors_with_code DUPLICATED_INPUT_ITEM errors_added_twice_and_removed)
    = 2
  ∧ Forall (λ e, params_channels e = ["Channel:1"])
      (errors_with_code DUPLICATED_INPUT_ITEM errors_added_twice_and_removed).
Proof.
  split_and!.
  - apply (bool_decide_unpack _). by vm_compute.
  - apply (bool_decide_unpack _). by vm_compute.
  - by vm_compute.
  - by vm_compute.
  - apply (bool_decide_unpack _). by vm_compute.
Qed.

Module ProductShortCircuit.
Import ProductChannelListingAddInput ProductChannelListingUpdateInput.
Import ProductChannelListingUpdate ProductFacts ProductRejected.
Import ProductDuplicates.

(** The failure for the one identifier that a list repeats. *)
Definition duplicated_channel (id : GlobalId) : ValidationError :=
  {| message := "Duplicated channel ID.";
     code := DUPLICATED_INPUT_ITEM;
     params_channels := [id] |}.

(** What the clean stage returns once it has found a structural
    duplicate. *)
Definition empty_cleaned_input : cleaned_input_dict :=
  {| cleaned_add_channels := None; cleaned_remove_channels := None |}.

(** Every failure of the dictionary carries the code [c]. *)
Definition all_codes (c : ProductErrorCode) (errors : ErrorType) : Prop :=
  ∀ field l e, errors !! field = Some l → e ∈ l → code e = c.

Lemma all_codes_append_error c field error errors :
  code error = c → all_codes c errors →
  all_codes c (append_error field error errors).
Proof.
  intros Hc Hall field' l e. unfold append_error.
  destruct (decide (field = field')) as [<-|Hne].
  - rewrite lookup_insert_eq. intros [= <-].
    rewrite elem_of_app, list_elem_of_singleton. intros [He| ->]; [|done].
    destruct (errors !! field) as [l'|] eqn:Hl; simpl in He.
    + by apply (Hall field l').
    + by apply elem_of_nil in He.
  - rewrite lookup_insert_ne by done. apply Hall.
Qed.

Lemma all_codes_structural_errors input :
  all_codes DUPLICATED_INPUT_ITEM (structural_errors input).
Proof.
  unfold structural_errors, validate_duplicated_values,
    validate_duplicated_ids. cbv zeta.
  repeat (destruct (bool_decide _));
    repeat (apply all_codes_append_error; [done|]);
    by intros ? ? ? ?%lookup_empty_Some.
Qed.

Lemma errors_with_code_all_codes c c' errors :
  all_codes c errors → c ≠ c' → errors_with_code c' errors = [].
Proof.
  intros Hall Hne. unfold errors_with_code, all_errors.
  destruct (filter _ _) as [|e ?] eqn:Hf; [done|].
  assert (e ∈ filter (λ e, code e = c') (mjoin (map_to_list errors).*2))
    as [Hc He]%list_elem_of_filter by (rewrite Hf; left).
  apply list_elem_of_join in He as (l & He & Hl).
  apply list_elem_of_fmap in Hl as ([field l'] & -> & Hl).
  apply elem_of_map_to_list in Hl. destruct Hne.
  rewrite <- Hc. symmetry. by apply (Hall field l').
Qed.

Lemma structural_errors_add_channels input :
  let add_ids :=
    channel_id
      <$> default [] (ProductChannelListingUpdateInput.add_channels input) in
  ¬ NoDup add_ids →
  structural_errors input !! "add_channels"
  = Some [duplicated_in_list add_ids].
Proof.
  intros add_ids Hdup. unfold structural_errors. cbv zeta. fold add_ids.
  rewrite validate_duplicated_values_lookup_ne by done.
  rewrite validate_duplicated_values_dup by done.
  unfold append_error. rewrite lookup_insert_eq.
  unfold validate_duplicated_ids. cbv zeta.
  destruct (bool_decide _); [|done].
  unfold append_error. by rewrite lookup_insert_ne.
Qed.

(** C7 (as amended).  For a product with no category and a request whose
    add-list holds the same channel identifier twice (whatever the publish
    flags): for every identifier resolution and every database the clean
    stage returns the structural failures with an empty cleaned input, on
    which the category check adds nothing; these failures are raised and
    nothing is written; under [add_channels] they hold a single error, a
    DUPLICATED_INPUT_ITEM that names that channel, and nowhere a
    PRODUCT_WITHOUT_CATEGORY error; that error names only that channel when
    no other identifier is repeated, and it is the only error of the
    response when the remove-list repeats no identifier and shares none with
    the add-list. *)
Theorem duplicate_in_add_list_short_circuits from_global_id id input db
    product x :
  get_node_or_error from_global_id Product product_pk (products db) id "id"
  = Return product →
  category product = None →
  let add_ids :=
    channel_id
      <$> default [] (ProductChannelListingUpdateInput.add_channels input) in
  let remove_ids :=
    default [] (ProductChannelListingUpdateInput.remove_channels input) in
  1 < occurrences x add_ids →
  (∀ resolver db',
     clean_channels resolver db' input ∅
     = Return (empty_cleaned_input, structural_errors input))
  ∧ validate_product_without_category empty_cleaned_input
      (structural_errors input)
    = structural_errors input
  ∧ perform_mutation from_global_id id input db
    = (Raise (Raised_ValidationError (structural_errors input)), db)
  ∧ structural_errors input !! "add_channels"
    = Some [duplicated_in_list add_ids]
  ∧ code (duplicated_in_list add_ids) = DUPLICATED_INPUT_ITEM
  ∧ x ∈ params_channels (duplicated_in_list add_ids)
  ∧ errors_with_code PRODUCT_WITHOUT_CATEGORY (structural_errors input) = []
  ∧ ((∀ y, 1 < occurrences y add_ids → y = x) →
     duplicated_in_list add_ids = duplicated_channel x)
  ∧ (NoDup remove_ids → (∀ y, y ∈ add_ids → y ∉ remove_ids) →
     structural_errors input
     = {[ "add_channels" := [duplicated_in_list add_ids] ]}).
Proof.
  intros Hnode Hcat add_ids remove_ids Htwice.
  assert (x ∈ add_ids) as Hx.
  { destruct (decide (x ∈ add_ids)) as [|Hn]; [done|].
    apply occurrences_not_elem_of in Hn. lia. }
  assert (¬ NoDup add_ids) as Hdup.
  { intros Hnodup.
    pose proof (proj1 (NoDup_occurrences add_ids) Hnodup x Hx). lia. }
  pose proof (structural_errors_add_channels input Hdup) as Hlookup.
  fold add_ids in Hlookup.
  assert (truthy (structural_errors input) = true) as Htruthy.
  { destruct (truthy _) eqn:Ht; [done|]. apply truthy_false in Ht.
    by rewrite Ht, lookup_empty in Hlookup. }
  split_and!.
  - intros resolver db'. by apply clean_channels_structural.
  - done.
  - by apply (perform_mutation_structural _ _ _ _ product).
  - done.
  - done.
  - simpl. apply elem_of_elements, elem_of_get_duplicated_values. done.
  - apply (errors_with_code_all_codes DUPLICATED_INPUT_ITEM);
      [apply all_codes_structural_errors|done].
  - intros Honly. unfold duplicated_in_list, duplicated_channel. f_equal.
    assert (get_duplicated_values add_ids = {[ x ]}) as ->
      by (apply set_eq; intros y;
          rewrite elem_of_get_duplicated_values, elem_of_singleton;
          split; [intros [_ ?]; by apply Honly | by intros ->]).
    apply elements_singleton.
  - intros Hremove Hcross. unfold structural_errors. cbv zeta.
    fold add_ids remove_ids.
    rewrite (validate_duplicated_values_NoDup remove_ids) by done.
    rewrite validate_duplicated_ids_NoDup by done.
    rewrite validate_duplicated_values_dup by done.
    apply append_error_empty.
Qed.

End ProductShortCircuit.

Lemma duplicate_in_add_list_short_circuits_witness :
  (∀ resolver db',
     ProductChannelListingUpdate.clean_channels resolver db'
       scenario_added_twice ∅
     = Return
         (ProductShortCircuit.empty_cleaned_input,
          {[ "add_channels" :=
               [ProductShortCircuit.duplicated_channel "Channel:1"] ]}))
  ∧ ProductChannelListingUpdate.perform_mutation typed_key "Product:1"
      scenario_added_twice shop
    = (Raise
         (Raised_ValidationError
            {[ "add_channels" :=
                 [ProductShortCircuit.duplicated_channel "Channel:1"] ]}),
       shop)
  ∧ errors_with_code PRODUCT_WITHOUT_CATEGORY
      {[ "add_channels" :=
           [ProductShortCircuit.duplicated_channel "Channel:1"] ]}
    = [].
Proof.
  destruct (ProductShortCircuit.duplicate_in_add_list_short_circuits typed_key
              "Product:1" scenario_added_twice shop
              {| product_pk := 1; category := None |} "Channel:1")
    as (Hclean & _ & Hperform & _ & _ & _ & Hnone & _ & _).
  - by vm_compute.
  - reflexivity.
  - vm_compute. lia.
  - assert (ProductFacts.structural_errors scenario_added_twice
            = {[ "add_channels" :=
                   [ProductShortCircuit.duplicated_channel "Channel:1"] ]})
      as Heq by (vm_compute; reflexivity).
    rewrite Heq in Hclean, Hperform, Hnone.
    split_and!; [exact Hclean|exact Hperform|exact Hnone].
Defined.

(** C7 as it is worded fails when the repeated identifier is also in the
    remove-list: product 1 has no category, the add-list holds channel 1
    twice, published and unpublished, and the response holds two
    DUPLICATED_INPUT_ITEM errors for that channel, one of the check of the
    add-list and one of the cross check, which runs whatever the check of
    the add-list finds. *)
Lemma duplicate_in_add_list_short_circuits_counterexample :
  get_node_or_error typed_key Product product_pk (products shop) "Product:1"
    "id" = Return {| product_pk := 1; category := None |}
  ∧ default []
      (ProductChannelListingUpdateInput.add_channels
         scenario_added_twice_and_removed)
    = [add_entry "Channel:1" true None; add_entry "Channel:1" false None]
  ∧ ProductChannelListingUpdate.perform_mutation typed_key "Product:1"
      scenario_added_twice_and_removed shop
    = (Raise (Raised_ValidationError errors_added_twice_and_removed), shop)
  ∧ length
      (errors_with_code DUPLICATED_INPUT_ITEM errors_added_twice_and_removed)
    = 2
  ∧ Forall (λ e, params_channels e = ["Channel:1"])
      (errors_with_code DUPLICATED_INPUT_ITEM errors_added_twice_and_removed)
  ∧ errors_with_code PRODUCT_WITHOUT_CATEGORY errors_added_twice_and_removed
    = [].
Proof.
  split_and!.
  - by vm_compute.
  - reflexivity.
  - by vm_compute.
  - by vm_compute.
  - apply (bool_decide_unpack _). by vm_compute.
  - by vm_compute.
Qed.

(** ** Removing channels *)

Module ProductRemove.
Import ProductChannelListingAddInput ProductChannelListingUpdateInput.
Import ProductChannelListingUpdate ProductFacts ProductReconcile.




Section Mutation.
Variable from_global_id : GlobalId → option (NodeType * Z).



End Mutation.
End ProductRemove.





(** ** The variant manager *)

Module VariantFacts.
Import ProductVariantChannelListingAddInput.
Import ProductVaraintChannelListingUpdate.

(** The columns of the uniqueness constraint of
    [ProductVariantChannelListing]. *)
Definition pvcl_key (r : ProductVariantChannelListing) : Z * Z :=
  (pvcl_variant r, pvcl_channel r).

(** The row that [save] upserts for one cleaned entry. *)
Definition price_row (variant : ProductVariantModel)
    (d : channel_listing_data) : ProductVariantChannelListing :=
  {| pvcl_variant := variant_pk variant;
     pvcl_channel := channel_pk (channel d);
     price_amount := price d;
     currency := currency_code (channel d) |}.

(** The channels on which the parent product of the variant is listed. *)
Definition assigned_channels (db : Database) (variant : ProductVariantModel)
    : list Z :=
  pcl_channel
    <$> filter (λ r, pcl_product r = product_id variant)
          (product_channel_listings db).

(** The identifiers of the entries whose channel is not one of them. *)
Definition unassigned_ids (db : Database) (variant : ProductVariantModel)
    (cleaned_input : list channel_listing_data) : list GlobalId :=
  (λ d : channel_listing_data, channel_id d)
    <$> filter (λ d : channel_listing_data,
                  channel_pk (channel d) ∉ assigned_channels db variant)
          cleaned_input.

(** The identifiers of the entries whose price is below zero. *)
Definition negative_price_ids (cleaned_input : list channel_listing_data)
    : list GlobalId :=
  (λ d : channel_listing_data, channel_id d)
    <$> filter (λ d : channel_listing_data,
                  price_lower_than_0 (price d) = true)
          cleaned_input.

Definition product_not_assigned (channels : list GlobalId)
    : ValidationError :=
  {| message := "Product not available in channels.";
     code := PRODUCT_NOT_ASSIGNED_TO_CHANNEL;
     params_channels := channels |}.

Definition invalid_price (channels : list GlobalId) : ValidationError :=
  {| message := "Product price cannot be lower than 0.";
     code := INVALID;
     params_channels := channels |}.

Definition duplicated_channel_ids (ids : list GlobalId) : ValidationError :=
  {| message := "Duplicated channel ID.";
     code := DUPLICATED_INPUT_ITEM;
     params_channels := elements (get_duplicated_values ids) |}.

(** What the two checks of the validate stage add to the dictionary. *)
Definition with_assignment_error (unassigned : list GlobalId)
    (errors : ErrorType) : ErrorType :=
  if unassigned is [] then errors
  else append_error "input" (product_not_assigned unassigned) errors.

Definition with_price_error (negative : list GlobalId) (errors : ErrorType)
    : ErrorType :=
  if negative is [] then errors
  else append_error "price" (invalid_price negative) errors.

Lemma filter_ext_elem_of {A} (P Q : A → Prop) `{∀ x, Decision (P x)}
    `{∀ x, Decision (Q x)} (l : list A) :
  (∀ x, x ∈ l → P x ↔ Q x) → filter P l = filter Q l.
Proof.
  induction l as [|x l IH]; [done|]. intros Hext.
  rewrite !filter_cons.
  rewrite IH by (intros y Hy; apply Hext; by right).
  destruct (decide (P x)) as [HP|HP], (decide (Q x)) as [HQ|HQ]; try done.
  - destruct HQ. apply (Hext x); [left|done].
  - destruct HP. apply (Hext x); [left|done].
Qed.

Lemma validate_product_assigned_to_channel_eq db variant cleaned_input
    errors :
  validate_product_assigned_to_channel db variant cleaned_input errors
  = with_assignment_error (unassigned_ids db variant cleaned_input) errors.
Proof.
  unfold validate_product_assigned_to_channel, with_assignment_error.
  cbv zeta. fold (assigned_channels db variant).
  set (pks := (λ d : channel_listing_data, channel_pk (channel d))
                <$> cleaned_input).
  set (missing := list_to_set pks ∖ list_to_set (assigned_channels db variant)
                  : gset Z).
  assert (filter (λ d : channel_listing_data,
                    channel_pk (channel d) ∈ missing) cleaned_input
          = filter (λ d : channel_listing_data,
                      channel_pk (channel d) ∉ assigned_channels db variant)
              cleaned_input) as Hfilter.
  { apply filter_ext_elem_of. intros d Hd. unfold missing.
    rewrite elem_of_difference, !elem_of_list_to_set.
    split; [tauto|]. intros Hn. split; [|done].
    unfold pks. by apply list_elem_of_fmap_2'  with d. }
  rewrite Hfilter. clear Hfilter.
  fold (unassigned_ids db variant cleaned_input).
  destruct (unassigned_ids db variant cleaned_input) as [|x l] eqn:Hids.
  - rewrite bool_decide_false; [done|]. intros Hne. apply Hne.
    apply set_eq. intros k. split; [|by intros ?%not_elem_of_empty].
    unfold missing. rewrite elem_of_difference, !elem_of_list_to_set.
    intros [(d & -> & Hd)%list_elem_of_fmap Hn].
    unfold unassigned_ids in Hids. apply fmap_nil_inv in Hids.
    by destruct (filter_nil_not_elem_of _ _ d Hids Hn).
  - rewrite bool_decide_true; [done|]. intros Hempty.
    unfold unassigned_ids in Hids.
    destruct (filter _ cleaned_input) as [|d ?] eqn:Hf; [by simplify_eq/=|].
    assert (d ∈ filter (λ d : channel_listing_data,
                          channel_pk (channel d)
                          ∉ assigned_channels db variant) cleaned_input)
      as [Hn Hd]%list_elem_of_filter by (rewrite Hf; left).
    assert (channel_pk (channel d) ∈ missing) as Hin.
    { unfold missing. rewrite elem_of_difference, !elem_of_list_to_set.
      split; [|done]. unfold pks. by apply list_elem_of_fmap_2'  with d. }
    rewrite Hempty in Hin. by apply not_elem_of_empty in Hin.
Qed.

Lemma clean_prices_eq cleaned_input errors :
  clean_prices cleaned_input errors
  = (cleaned_input,
     with_price_error (negative_price_ids cleaned_input) errors).
Proof. done. Qed.

Section Mutation.
Variable from_global_id : GlobalId → option (NodeType * Z).

Lemma clean_channels_duplicates db
    (input : list ProductVariantChannelListingAddInput.t) :
  ¬ NoDup (channel_id <$> input) →
  clean_channels from_global_id db input ∅
  = Return ([], {[ "channelId" :=
                     [duplicated_channel_ids (channel_id <$> input)] ]}).
Proof.
  intros Hdup. unfold clean_channels. cbv zeta.
  rewrite bool_decide_true by (by rewrite get_duplicated_values_empty).
  by rewrite append_error_empty.
Qed.

Lemma variant_clean_channels_resolve db
    (input : list ProductVariantChannelListingAddInput.t) :
  NoDup (channel_id <$> input) →
  clean_channels from_global_id db input ∅
  = (channels ←
       get_nodes_or_error from_global_id db (channel_id <$> input)
         "channel_id";
     mret (zip_with Build_channel_listing_data input channels, ∅)).
Proof.
  intros Hnodup%get_duplicated_values_empty. unfold clean_channels. cbv zeta.
  rewrite Hnodup, bool_decide_false by (by intros []).
  by destruct input.
Qed.

(** [perform_mutation], stage by stage. *)
Lemma variant_perform_mutation_unfold id input db :
  perform_mutation from_global_id id input db
  = match get_node_or_error from_global_id ProductVariant variant_pk
            (variants db) id "id" with
    | Raise e => (Raise e, db)
    | Return variant =>
        match clean_channels from_global_id db input ∅ with
        | Raise e => (Raise e, db)
        | Return (cleaned_input, errors) =>
            let errors :=
              with_price_error (negative_price_ids cleaned_input)
                (with_assignment_error
                   (unassigned_ids db variant cleaned_input) errors) in
            if truthy errors then (Raise (Raised_ValidationError errors), db)
            else
              match save variant cleaned_input db with
              | (Raise e, db') => (Raise e, db')
              | (Return _, db') => (Return variant, db')
              end
        end
    end.
Proof.
  unfold perform_mutation, mbind, DB_bind, read, raise.
  destruct (get_node_or_error _ _ _ _ _ _) as [e|variant]; [done|].
  destruct (clean_channels _ _ _ _) as [e|[cleaned_input errors]]; [done|].
  simpl. rewrite validate_product_assigned_to_channel_eq.
  by destruct (truthy _).
Qed.

Lemma variant_save_Raise variant cleaned_input db e :
  (save variant cleaned_input db).1 = Raise e →
  (save variant cleaned_input db).2 = db.
Proof.
  unfold save, transaction_atomic.
  by destruct (save_each variant cleaned_input db) as [[?|?] ?].
Qed.

(** Whatever is raised, nothing was written. *)
Lemma variant_perform_mutation_Raise id input db e :
  (perform_mutation from_global_id id input db).1 = Raise e →
  (perform_mutation from_global_id id input db).2 = db.
Proof.
  rewrite variant_perform_mutation_unfold.
  destruct (get_node_or_error _ _ _ _ _ _) as [?|variant]; [done|].
  destruct (clean_channels _ _ _ _) as [?|[cleaned_input errors]]; [done|].
  cbv zeta. destruct (truthy _); [done|].
  pose proof (variant_save_Raise variant cleaned_input db) as Hsave.
  destruct (save variant cleaned_input db) as [[e'|?] db']; [|done].
  intros _. by apply (Hsave e').
Qed.

End Mutation.
End VariantFacts.

(** *** Writes of the variant manager *)

Module VariantWrites.
Import ProductVariantChannelListingAddInput.
Import ProductVaraintChannelListingUpdate VariantFacts.

Lemma set_variant_channel_listings_same db :
  set_variant_channel_listings (variant_channel_listings db) db = db.
Proof. by destruct db. Qed.

(** The channel keys that a list of cleaned entries upserts. *)
Definition upserted_keys (cleaned_input : list channel_listing_data)
    : list Z :=
  (λ d : channel_listing_data, channel_pk (channel d)) <$> cleaned_input.

(** [d] is the last entry of the list for its channel. *)
Definition last_for_channel (cleaned_input : list channel_listing_data)
    (d : channel_listing_data) : Prop :=
  ∃ l1 l2, cleaned_input = l1 ++ d :: l2
           ∧ channel_pk (channel d) ∉ upserted_keys l2.

Lemma variant_objects_update_or_create_spec variant channel defaults db :
  unique_together pvcl_key (variant_channel_listings db) →
  ∃ rows,
    objects_update_or_create variant channel defaults db
    = (Return (), set_variant_channel_listings rows db)
    ∧ unique_together pvcl_key rows
    ∧ ∀ r, r ∈ rows ↔
           (r ∈ variant_channel_listings db
            ∧ pvcl_key r ≠ (variant_pk variant, channel_pk channel))
           ∨ r = {| pvcl_variant := variant_pk variant;
                    pvcl_channel := channel_pk channel;
                    price_amount := defaults.1;
                    currency := defaults.2 |}.
Proof.
  intros Huniq. unfold objects_update_or_create.
  edestruct (update_or_create_unique pvcl_key
               (λ r, pvcl_variant r = variant_pk variant
                     ∧ pvcl_channel r = channel_pk channel))
    as (rows & -> & Hrows & Hmem); [| | |exact Huniq|].
  - intros r. unfold pvcl_key. split; [by intros [-> ->]|by intros [= -> ->]].
  - done.
  - intros [] [= <- <-]. done.
  - by exists rows.
Qed.

Lemma save_each_spec variant cleaned_input db :
  unique_together pvcl_key (variant_channel_listings db) →
  ∃ rows,
    save_each variant cleaned_input db
    = (Return (), set_variant_channel_listings rows db)
    ∧ unique_together pvcl_key rows
    ∧ ∀ r, r ∈ rows ↔
           (r ∈ variant_channel_listings db
            ∧ ¬ (pvcl_variant r = variant_pk variant
                 ∧ pvcl_channel r ∈ upserted_keys cleaned_input))
           ∨ (∃ d, last_for_channel cleaned_input d
                   ∧ r = price_row variant d).
Proof.
  revert db. induction cleaned_input as [|a rest IH]; intros db Huniq.
  - exists (variant_channel_listings db). simpl.
    rewrite set_variant_channel_listings_same. split_and!; [done..|].
    intros r. split; [intros ?; left; split; [done|]|].
    + by intros [_ ?%elem_of_nil].
    + intros [[? _]|(a & (l1 & l2 & Hl & _) & _)]; [done|].
      by destruct l1.
  - destruct (variant_objects_update_or_create_spec variant (channel a)
                (price a, currency_code (channel a)) db Huniq)
      as (rows1 & Hupsert & Huniq1 & Hmem1).
    destruct (IH (set_variant_channel_listings rows1 db) Huniq1)
      as (rows & Hrest & Huniq' & Hmem).
    exists rows. split_and!; [|done|].
    { simpl. unfold mbind, DB_bind. by rewrite Hupsert, Hrest. }
    intros r. rewrite Hmem. simpl. rewrite Hmem1. clear Hmem Hmem1.
    rewrite elem_of_cons. split.
    + intros [[[[Hr Hk]| ->] Hn]|(a' & (l1 & l2 & -> & Hlast) & ->)].
      * left. split; [done|]. intros [Hp [Hc|Hc]]; [|tauto].
        apply Hk. unfold pvcl_key. congruence.
      * right. exists a. split; [|done]. exists [], rest.
        split; [done|]. intros Hin. by apply Hn.
      * right. exists a'. split; [|done]. by exists (a :: l1), l2.
    + intros [[Hr Hn]|(a' & (l1 & l2 & Hl & Hlast) & ->)].
      * left. split; [|tauto]. left. split; [done|].
        intros [= Hp Hc]. apply Hn. auto.
      * destruct l1 as [|a0 l1]; simplify_eq/=.
        -- left. split; [by right|]. by intros [_ ?].
        -- right. exists a'. split; [|done]. by exists l1, l2.
Qed.

Lemma save_each_app variant l1 l2 db :
  save_each variant (l1 ++ l2) db
  = (save_each variant l1 ;; save_each variant l2) db.
Proof.
  revert db. induction l1 as [|a l1 IH]; intros db; simpl.
  - done.
  - unfold mbind, DB_bind.
    destruct (objects_update_or_create _ _ _ db) as [[e|[]] db1]; [done|].
    apply IH.
Qed.

Lemma variant_save_spec variant cleaned_input db :
  unique_together pvcl_key (variant_channel_listings db) →
  ∃ rows,
    save variant cleaned_input db
    = (Return (), set_variant_channel_listings rows db)
    ∧ save_each variant cleaned_input db
      = (Return (), set_variant_channel_listings rows db)
    ∧ unique_together pvcl_key rows
    ∧ ∀ r, r ∈ rows ↔
           (r ∈ variant_channel_listings db
            ∧ ¬ (pvcl_variant r = variant_pk variant
                 ∧ pvcl_channel r ∈ upserted_keys cleaned_input))
           ∨ (∃ d, last_for_channel cleaned_input d
                   ∧ r = price_row variant d).
Proof.
  intros Huniq.
  destruct (save_each_spec variant cleaned_input db Huniq)
    as (rows & Heach & Huniq' & Hmem).
  exists rows. split_and!; [|done..].
  unfold save, transaction_atomic. by rewrite Heach.
Qed.

(** The entry [d] of [l1 ++ d :: l2]: after the loop has run over [l1] and
    [d] the table holds the row of [d], and no other row for its variant
    and channel; the loop then goes on over [l2]. *)
Lemma save_each_entry variant l1 d l2 db :
  unique_together pvcl_key (variant_channel_listings db) →
  ∃ rows1 rows,
    save_each variant (l1 ++ [d]) db
    = (Return (), set_variant_channel_listings rows1 db)
    ∧ price_row variant d ∈ rows1
    ∧ (∀ r, r ∈ rows1 →
            pvcl_key r = (variant_pk variant, channel_pk (channel d)) →
            r = price_row variant d)
    ∧ save_each variant l2 (set_variant_channel_listings rows1 db)
      = (Return (), set_variant_channel_listings rows db)
    ∧ save_each variant (l1 ++ d :: l2) db
      = (Return (), set_variant_channel_listings rows db)
    ∧ (channel_pk (channel d) ∉ upserted_keys l2 →
       price_row variant d ∈ rows).
Proof.
  intros Huniq.
  destruct (save_each_spec variant (l1 ++ [d]) db Huniq)
    as (rows1 & Hfirst & Huniq1 & Hmem1).
  destruct (save_each_spec variant l2
              (set_variant_channel_listings rows1 db) Huniq1)
    as (rows & Hrest & _ & Hmem).
  assert (price_row variant d ∈ rows1) as Hin.
  { apply Hmem1. right. exists d. split; [|done]. exists l1, [].
    split; [done|]. by intros ?%elem_of_nil. }
  exists rows1, rows. split_and!; [done|done| |done| |].
  - intros r Hr Hk.
    by apply (unique_together_elem_of pvcl_key rows1 r (price_row variant d)).
  - rewrite (cons_middle d), app_assoc, save_each_app.
    unfold mbind, DB_bind. by rewrite Hfirst.
  - intros Hlast. apply Hmem. left. split; [done|]. by intros [_ ?].
Qed.

End VariantWrites.

(** ** Variant requests that pass validation *)

Module VariantAccepted.
Import ProductVariantChannelListingAddInput.
Import ProductVaraintChannelListingUpdate VariantFacts VariantWrites.

Lemma truthy_validate_false unassigned negative errors :
  truthy (with_price_error negative (with_assignment_error unassigned errors))
  = false →
  errors = ∅ ∧ unassigned = [] ∧ negative = [].
Proof.
  unfold with_price_error, with_assignment_error.
  destruct negative; [|by rewrite truthy_append_error].
  destruct unassigned; [|by rewrite truthy_append_error].
  by intros ?%truthy_false.
Qed.

Section Mutation.
Variable from_global_id : GlobalId → option (NodeType * Z).

(** The cleaned input of a request that the clean stage lets through:
    every entry of the request, in order, with the channel that its
    identifier resolves to. *)
Definition cleaned_from (db : Database)
    (input : list ProductVariantChannelListingAddInput.t)
    (cleaned_input : list channel_listing_data) : Prop :=
  data <$> cleaned_input = input
  ∧ Forall
      (λ d : channel_listing_data,
         get_channel from_global_id db (channel_id d) = Some (channel d))
      cleaned_input.

Lemma cleaned_from_zip db input channels :
  Forall2
    (λ (a : ProductVariantChannelListingAddInput.t) c,
       get_channel from_global_id db (channel_id a) = Some c)
    input channels →
  cleaned_from db input (zip_with Build_channel_listing_data input channels).
Proof.
  unfold cleaned_from. induction 1 as [|a c input cs Hc _ [IH1 IH2]]; [done|].
  simpl. split; [by f_equal|]. by constructor.
Qed.

(** What a request that produces no validation error went through. *)
Lemma variant_no_validation_errors_inv id input db :
  (∀ errors, (perform_mutation from_global_id id input db).1
             ≠ Raise (Raised_ValidationError errors)) →
  ∃ variant cleaned_input,
    get_node_or_error from_global_id ProductVariant variant_pk (variants db)
      id "id" = Return variant
    ∧ NoDup (channel_id <$> input)
    ∧ clean_channels from_global_id db input ∅ = Return (cleaned_input, ∅)
    ∧ cleaned_from db input cleaned_input
    ∧ unassigned_ids db variant cleaned_input = []
    ∧ negative_price_ids cleaned_input = []
    ∧ perform_mutation from_global_id id input db
      = match save variant cleaned_input db with
        | (Raise e, db') => (Raise e, db')
        | (Return _, db') => (Return variant, db')
        end.
Proof.
  rewrite variant_perform_mutation_unfold. intros Hno.
  destruct (get_node_or_error _ _ _ _ _ _) as [e|variant] eqn:Hnode.
  { apply ProductFacts.get_node_or_error_Raise in Hnode as ->.
    by destruct (Hno _ eq_refl). }
  destruct (decide (NoDup (channel_id <$> input))) as [Hnodup|Hdup]; cycle 1.
  { rewrite clean_channels_duplicates in Hno by done. cbv zeta in Hno.
    destruct (truthy _) eqn:Ht in Hno; [by destruct (Hno _ eq_refl)|].
    by apply truthy_validate_false in Ht as [Ht _]. }
  rewrite variant_clean_channels_resolve in Hno |- * by done.
  destruct (get_nodes_or_error _ _ _ _) as [e|channels] eqn:Hnodes.
  { apply get_nodes_or_error_Raise in Hnodes as (? & _ & _ & ->).
    by destruct (Hno _ eq_refl). }
  apply get_nodes_or_error_Return, Forall2_fmap_l in Hnodes.
  simpl in Hno |- *.
  exists variant, (zip_with Build_channel_listing_data input channels).
  destruct (truthy _) eqn:Ht; [by destruct (Hno _ eq_refl)|].
  apply truthy_validate_false in Ht as (_ & Hu & Hn).
  split_and!; [done..|by apply cleaned_from_zip|done|done|done].
Qed.

(** C2.  For every variant-listing request that passes validation, on a
    table that has one row per (variant, channel): the mutation returns the
    variant; the cleaned input is every entry of the request with the
    channel its identifier resolves to; every entry is upserted, in request
    order, as the one row of its (variant, channel), whose [price_amount]
    is the submitted price and whose [currency] is the [currency_code] of
    the channel, and that row is in the final table unless a later entry of
    the request writes the same channel; every row of the final table that
    the table did not hold before is such a row, so its currency is the
    currency code of a channel of the database: no field of the input
    supplies it. *)
Theorem variant_listings_upserted id input db :
  unique_together pvcl_key (variant_channel_listings db) →
  (∀ errors, (perform_mutation from_global_id id input db).1
             ≠ Raise (Raised_ValidationError errors)) →
  ∃ variant cleaned_input rows,
    clean_channels from_global_id db input ∅ = Return (cleaned_input, ∅)
    ∧ cleaned_from db input cleaned_input
    ∧ perform_mutation from_global_id id input db
      = (Return variant, set_variant_channel_listings rows db)
    ∧ unique_together pvcl_key rows
    ∧ (∀ l1 d l2, cleaned_input = l1 ++ d :: l2 →
         ∃ rows1,
           save_each variant (l1 ++ [d]) db
           = (Return (), set_variant_channel_listings rows1 db)
           ∧ price_row variant d ∈ rows1
           ∧ (∀ r, r ∈ rows1 →
                   pvcl_key r = (variant_pk variant, channel_pk (channel d)) →
                   r = price_row variant d)
           ∧ save_each variant l2 (set_variant_channel_listings rows1 db)
             = (Return (), set_variant_channel_listings rows db)
           ∧ (channel_pk (channel d) ∉ upserted_keys l2 →
              price_row variant d ∈ rows))
    ∧ (∀ r, r ∈ rows →
            r ∈ variant_channel_listings db
            ∨ ∃ (d : channel_listing_data) c,
                d ∈ cleaned_input
                     ∧ get_channel from_global_id db (channel_id d) = Some c
                     ∧ c ∈ channels db
                     ∧ r = {| pvcl_variant := variant_pk variant;
                              pvcl_channel := channel_pk c;
                              price_amount := price d;
                              currency := currency_code c |}).
Proof.
  intros Huniq Hno.
  destruct (variant_no_validation_errors_inv _ _ _ Hno)
    as (variant & cleaned_input & _ & _ & Hclean & Hfrom & _ & _ & Hperform).
  destruct (variant_save_spec variant cleaned_input db Huniq)
    as (rows & Hsave & Heach & Huniq' & Hmem).
  exists variant, cleaned_input, rows.
  split_and!; [done|done|by rewrite Hperform, Hsave|done| |].
  - intros l1 d l2 ->.
    destruct (save_each_entry variant l1 d l2 db Huniq)
      as (rows1 & rows' & H1 & H2 & H3 & H4 & H5 & H6).
    rewrite Heach in H5. injection H5 as H5. subst rows'.
    by exists rows1.
  - intros r [[Hr _]|(d & (l1 & l2 & -> & _) & ->)]%Hmem; [by left|right].
    destruct Hfrom as [_ Hresolved]. rewrite Forall_forall in Hresolved.
    assert (d ∈ l1 ++ d :: l2) as Hd
      by (rewrite elem_of_app; right; left).
    exists d, (channel d). split_and!; [done|by apply Hresolved| |done].
    by eapply get_channel_pk, Hresolved.
Qed.

End Mutation.
End VariantAccepted.

Definition price_entry (id : GlobalId) (price : option Decimal)
    : ProductVariantChannelListingAddInput.t :=
  {| ProductVariantChannelListingAddInput.channel_id := id;
     ProductVariantChannelListingAddInput.price := price |}.

(** Variant 1 belongs to product 2, which is listed on the channels 1 and
    2; the request prices it at 10.00 and 5.50 there. *)
Definition scenario_prices : list ProductVariantChannelListingAddInput.t :=
  [price_entry "Channel:1" (Some {| coefficient := 1000; exponent := -2 |});
   price_entry "Channel:2" (Some {| coefficient := 550; exponent := -2 |})].

Lemma variant_listings_upserted_witness :
  ProductVaraintChannelListingUpdate.perform_mutation typed_key
    "ProductVariant:1" scenario_prices shop
  = (Return {| variant_pk := 1; product_id := 2 |},
     set_variant_channel_listings
       [ {| pvcl_variant := 1; pvcl_channel := 1;
            price_amount := Some {| coefficient := 1000; exponent := -2 |};
            currency := "USD" |};
         {| pvcl_variant := 1; pvcl_channel := 2;
            price_amount := Some {| coefficient := 550; exponent := -2 |};
            currency := "EUR" |} ]
       shop)
  ∧ ∃ variant cleaned_input rows,
      ProductVaraintChannelListingUpdate.clean_channels typed_key shop
        scenario_prices ∅ = Return (cleaned_input, ∅)
      ∧ VariantAccepted.cleaned_from typed_key shop scenario_prices
          cleaned_input
      ∧ ProductVaraintChannelListingUpdate.perform_mutation typed_key
          "ProductVariant:1" scenario_prices shop
        = (Return variant, set_variant_channel_listings rows shop)
      ∧ unique_together VariantFacts.pvcl_key rows.
Proof.
  split; [by vm_compute|].
  destruct (VariantAccepted.variant_listings_upserted typed_key
              "ProductVariant:1" scenario_prices shop)
    as (variant & cleaned_input & rows & H1 & H2 & H3 & H4 & _).
  - apply (bool_decide_unpack _). by vm_compute.
  - intros errors. vm_compute. discriminate.
  - by exists variant, cleaned_input, rows.
Defined.

(** ** Rejected variant requests *)

Module VariantRejected.
Import ProductVariantChannelListingAddInput.
Import ProductVaraintChannelListingUpdate VariantFacts VariantAccepted.

Lemma price_lower_than_0_spec price :
  price_lower_than_0 price = true ↔
  ∃ amount, price = Some amount ∧ (coefficient amount < 0)%Z.
Proof.
  unfold price_lower_than_0, Decimal_lt_0. destruct price as [amount|].
  - rewrite bool_decide_eq_true. split; [by exists amount|].
    by intros (? & [= <-] & ?).
  - split; [done|]. by intros (? & ? & _).
Qed.

Lemma validation_errors_lookup unassigned negative :
  let errors :=
    with_price_error negative (with_assignment_error unassigned ∅) in
  errors !! "input"
  = (if unassigned is [] then None
     else Some [product_not_assigned unassigned])
  ∧ errors !! "price"
    = (if negative is [] then None else Some [invalid_price negative])
  ∧ (∀ field, field ≠ "input" → field ≠ "price" → errors !! field = None)
  ∧ (unassigned ≠ [] ∨ negative ≠ [] → truthy errors = true).
Proof.
  unfold with_price_error, with_assignment_error, append_error.
  destruct unassigned, negative; simpl.
  - split_and!; [done..|by intros ? _ _|by intros [[]|[]]].
  - split_and!; [done|by simplify_map_eq| |].
    + intros ? _ ?. by simplify_map_eq.
    + intros _. unfold truthy. rewrite bool_decide_eq_true.
      apply insert_non_empty.
  - split_and!; [by simplify_map_eq|done| |].
    + intros ? ? _. by simplify_map_eq.
    + intros _. unfold truthy. rewrite bool_decide_eq_true.
      apply insert_non_empty.
  - split_and!; [by simplify_map_eq|by simplify_map_eq| |].
    + intros ? ? ?. by simplify_map_eq.
    + intros _. unfold truthy. rewrite bool_decide_eq_true.
      apply insert_non_empty.
Qed.

Section Mutation.
Variable from_global_id : GlobalId → option (NodeType * Z).

(** C3 (as amended).  In the variant manager, for a request that repeats no
    channel identifier and all of whose identifiers resolve to channels:
    the entries whose channel is not among the channels of the
    ProductChannelListing rows of the parent product yield one
    PRODUCT_NOT_ASSIGNED_TO_CHANNEL error, under [input], that collects the
    identifiers of all of them; the entries with a negative price yield one
    INVALID error, under [price], that collects the identifiers of all of
    them; an entry that is both has its identifier in both errors of the
    one response; there is no other error; and whenever the mutation raises,
    the database is left as it was. *)
Theorem variant_validation_errors id input db variant :
  get_node_or_error from_global_id ProductVariant variant_pk (variants db)
    id "id" = Return variant →
  NoDup (channel_id <$> input) →
  Forall (λ a, is_Some (get_channel from_global_id db (channel_id a)))
    input →
  ∃ cleaned_input,
    clean_channels from_global_id db input ∅ = Return (cleaned_input, ∅)
    ∧ cleaned_from from_global_id db input cleaned_input
    ∧ let unassigned := unassigned_ids db variant cleaned_input in
      let negative := negative_price_ids cleaned_input in
      let errors :=
        with_price_error negative (with_assignment_error unassigned ∅) in
      errors !! "input"
      = (if unassigned is [] then None
         else Some [product_not_assigned unassigned])
      ∧ errors !! "price"
        = (if negative is [] then None else Some [invalid_price negative])
      ∧ (∀ field, field ≠ "input" → field ≠ "price" →
                  errors !! field = None)
      ∧ (∀ x, x ∈ unassigned ↔
              ∃ d : channel_listing_data,
                d ∈ cleaned_input ∧ channel_id d = x
                ∧ channel_pk (channel d) ∉ assigned_channels db variant)
      ∧ (∀ x, x ∈ negative ↔
              ∃ (d : channel_listing_data) amount,
                d ∈ cleaned_input ∧ channel_id d = x
                ∧ price d = Some amount ∧ (coefficient amount < 0)%Z)
      ∧ (∀ d : channel_listing_data,
           d ∈ cleaned_input →
           channel_pk (channel d) ∉ assigned_channels db variant →
           price_lower_than_0 (price d) = true →
           channel_id d ∈ unassigned ∧ channel_id d ∈ negative)
      ∧ (unassigned ≠ [] ∨ negative ≠ [] →
         perform_mutation from_global_id id input db
         = (Raise (Raised_ValidationError errors), db))
      ∧ (∀ e, (perform_mutation from_global_id id input db).1 = Raise e →
              (perform_mutation from_global_id id input db).2 = db).
Proof.
  intros Hnode Hnodup Hall.
  destruct (get_nodes_or_error_total from_global_id db (channel_id <$> input)
              "channel_id") as [channels Hnodes].
  { intros x (a & -> & Ha)%list_elem_of_fmap.
    rewrite Forall_forall in Hall. by apply Hall. }
  assert (clean_channels from_global_id db input ∅
          = Return (zip_with Build_channel_listing_data input channels, ∅))
    as Hclean.
  { rewrite variant_clean_channels_resolve by done. by rewrite Hnodes. }
  exists (zip_with Build_channel_listing_data input channels).
  set (cleaned_input := zip_with Build_channel_listing_data input channels)
    in *.
  split_and!; [done| |].
  { apply cleaned_from_zip.
    by apply get_nodes_or_error_Return, Forall2_fmap_l in Hnodes. }
  intros unassigned negative errors.
  destruct (validation_errors_lookup unassigned negative)
    as (Hinput & Hprice & Hother & Htruthy).
  split_and!; [done|done|done| | | | |].
  - intros x. unfold unassigned, unassigned_ids.
    rewrite list_elem_of_fmap. split.
    + intros (d & -> & [? ?]%list_elem_of_filter). by exists d.
    + intros (d & ? & <- & ?). exists d. split; [done|].
      by apply list_elem_of_filter.
  - intros x. unfold negative, negative_price_ids.
    rewrite list_elem_of_fmap. split.
    + intros (d & -> & [Hp ?]%list_elem_of_filter).
      apply price_lower_than_0_spec in Hp as (amount & ? & ?).
      by exists d, amount.
    + intros (d & amount & ? & <- & Hp & ?). exists d. split; [done|].
      apply list_elem_of_filter. split; [|done].
      apply price_lower_than_0_spec. by exists amount.
  - intros d Hd Hunassigned Hnegative.
    unfold unassigned, unassigned_ids, negative, negative_price_ids.
    split; apply (list_elem_of_fmap_2 (λ d : channel_listing_data,
                                         channel_id d));
      by apply list_elem_of_filter.
  - intros Hsome. rewrite variant_perform_mutation_unfold, Hnode, Hclean.
    cbv zeta. specialize (Htruthy Hsome).
    unfold errors, unassigned, negative in *. by rewrite Htruthy.
  - apply VariantFacts.variant_perform_mutation_Raise.
Qed.

End Mutation.
End VariantRejected.

(** Variant 1 belongs to product 2, which is listed on the channels 1 and 2
    only; the request prices it at 10.00 on channel 1, at -5.00 on channel
    3 and at -1.00 on channel 2. *)
Definition scenario_bad_prices
    : list ProductVariantChannelListingAddInput.t :=
  [price_entry "Channel:1" (Some {| coefficient := 1000; exponent := -2 |});
   price_entry "Channel:3" (Some {| coefficient := -500; exponent := -2 |});
   price_entry "Channel:2" (Some {| coefficient := -100; exponent := -2 |})].

Lemma variant_validation_errors_witness :
  ProductVaraintChannelListingUpdate.perform_mutation typed_key
    "ProductVariant:1" scenario_bad_prices shop
  = (Raise
       (Raised_ValidationError
          (<[ "price" :=
                [VariantFacts.invalid_price ["Channel:3"; "Channel:2"]] ]>
           {[ "input" :=
                [VariantFacts.product_not_assigned ["Channel:3"]] ]})),
     shop).
Proof.
  destruct (VariantRejected.variant_validation_errors typed_key
              "ProductVariant:1" scenario_bad_prices shop
              {| variant_pk := 1; product_id := 2 |})
    as (cleaned_input & Hclean & _ & _ & _ & _ & _ & _ & _ & Hraise & _).
  - by vm_compute.
  - apply (bool_decide_unpack _). by vm_compute.
  - apply (bool_decide_unpack _). by vm_compute.
  - assert (cleaned_input
            = zip_with ProductVaraintChannelListingUpdate.Build_channel_listing_data
                scenario_bad_prices
                [ {| channel_pk := 1; currency_code := "USD" |};
                  {| channel_pk := 3; currency_code := "PLN" |};
                  {| channel_pk := 2; currency_code := "EUR" |} ]) as ->.
    { assert (ProductVaraintChannelListingUpdate.clean_channels typed_key
                shop scenario_bad_prices ∅
              = Return
                  (zip_with
                     ProductVaraintChannelListingUpdate.Build_channel_listing_data
                     scenario_bad_prices
                     [ {| channel_pk := 1; currency_code := "USD" |};
                       {| channel_pk := 3; currency_code := "PLN" |};
                       {| channel_pk := 2; currency_code := "EUR" |} ], ∅))
        as Hcomputed by by vm_compute.
      rewrite Hcomputed in Hclean. by injection Hclean as <-. }
    rewrite Hraise; [by vm_compute|]. left. by vm_compute.
Defined.

(** Channel 3, on which the product is not listed, priced below zero
    twice. *)
Definition scenario_repeated_bad_prices
    : list ProductVariantChannelListingAddInput.t :=
  [price_entry "Channel:3" (Some {| coefficient := -100; exponent := -2 |});
   price_entry "Channel:3" (Some {| coefficient := -200; exponent := -2 |})].

(** C3 as it is worded fails on a request that the clean stage stops: both
    entries name a channel that is not among the channels of the parent
    product, both prices are negative, and the response holds neither a
    PRODUCT_NOT_ASSIGNED_TO_CHANNEL nor an INVALID error, because
    [clean_channels] hands an empty cleaned input to the two checks once an
    identifier is repeated. *)
Lemma variant_validation_errors_counterexample :
  Forall
    (λ a, ProductVaraintChannelListingUpdate.price_lower_than_0
            (ProductVariantChannelListingAddInput.price a) = true
          ∧ ∃ c, get_channel typed_key shop
                   (ProductVariantChannelListingAddInput.channel_id a)
                 = Some c
                 ∧ channel_pk c
                   ∉ VariantFacts.assigned_channels shop
                       {| variant_pk := 1; product_id := 2 |})
    scenario_repeated_bad_prices
  ∧ ProductVaraintChannelListingUpdate.perform_mutation typed_key
      "ProductVariant:1" scenario_repeated_bad_prices shop
    = (Raise
         (Raised_ValidationError
            {[ "channelId" :=
                 [ {| message := "Duplicated channel ID.";
                      code := DUPLICATED_INPUT_ITEM;
                      params_channels := ["Channel:3"] |} ] ]}),
       shop)
  ∧ errors_with_code PRODUCT_NOT_ASSIGNED_TO_CHANNEL
      {[ "channelId" :=
           [ {| message := "Duplicated channel ID.";
                code := DUPLICATED_INPUT_ITEM;
                params_channels := ["Channel:3"] |} ] ]}
    = []
  ∧ errors_with_code INVALID
      {[ "channelId" :=
           [ {| message := "Duplicated channel ID.";
                code := DUPLICATED_INPUT_ITEM;
                params_channels := ["Channel:3"] |} ] ]}
    = [].
Proof.
  split_and!; [|by vm_compute..].
  repeat constructor.
  - exists {| channel_pk := 3; currency_code := "PLN" |}.
    split; [by vm_compute|]. apply (bool_decide_unpack _). by vm_compute.
  - exists {| channel_pk := 3; currency_code := "PLN" |}.
    split; [by vm_compute|]. apply (bool_decide_unpack _). by vm_compute.
Qed.

(** ** Entries without a price *)

Module VariantAbsentPrice.
Import ProductVariantChannelListingAddInput.
Import ProductVaraintChannelListingUpdate VariantFacts VariantWrites.
Import VariantRejected.

Lemma elem_of_negative_price_ids cleaned_input x :
  x ∈ negative_price_ids cleaned_input ↔
  ∃ (d : channel_listing_data) amount,
    d ∈ cleaned_input ∧ channel_id d = x
    ∧ price d = Some amount ∧ (coefficient amount < 0)%Z.
Proof.
  unfold negative_price_ids. rewrite list_elem_of_fmap. split.
  - intros (d & -> & [Hp ?]%list_elem_of_filter).
    apply price_lower_than_0_spec in Hp as (amount & ? & ?).
    by exists d, amount.
  - intros (d & amount & ? & <- & Hp & ?). exists d. split; [done|].
    apply list_elem_of_filter. split; [|done].
    apply price_lower_than_0_spec. by exists amount.
Qed.

(** C10.  The negative-price check flags exactly the identifiers of the
    entries whose price is present and strictly below zero: an entry whose
    price is absent is not flagged (its identifier is in the INVALID error
    only when another entry with a negative price carries the same
    identifier, which the clean stage excludes), and when the cleaned input
    that holds it reaches [save], on a table that has one row per (variant,
    channel), the row it upserts has [price_amount = None]; that row is the
    row of its variant and channel in the final table unless a later entry
    writes the same channel. *)
Theorem absent_price_is_stored_as_null variant l1
    (d : channel_listing_data) l2 errors db :
  unique_together pvcl_key (variant_channel_listings db) →
  price d = None →
  let cleaned_input := l1 ++ d :: l2 in
  price_lower_than_0 (price d) = false
  ∧ clean_prices cleaned_input errors
    = (cleaned_input,
       with_price_error (negative_price_ids cleaned_input) errors)
  ∧ (∀ x, x ∈ negative_price_ids cleaned_input ↔
          ∃ (d' : channel_listing_data) amount,
            d' ∈ cleaned_input ∧ channel_id d' = x
            ∧ price d' = Some amount ∧ (coefficient amount < 0)%Z)
  ∧ (NoDup ((λ d' : channel_listing_data, channel_id d') <$> cleaned_input) →
     channel_id d ∉ negative_price_ids cleaned_input)
  ∧ ∃ rows1 rows,
      save_each variant (l1 ++ [d]) db
      = (Return (), set_variant_channel_listings rows1 db)
      ∧ (∀ r, r ∈ rows1 →
              pvcl_key r = (variant_pk variant, channel_pk (channel d)) →
              price_amount r = None)
      ∧ {| pvcl_variant := variant_pk variant;
           pvcl_channel := channel_pk (channel d);
           price_amount := None;
           currency := currency_code (channel d) |} ∈ rows1
      ∧ save variant cleaned_input db
        = (Return (), set_variant_channel_listings rows db)
      ∧ (channel_pk (channel d) ∉ upserted_keys l2 →
         {| pvcl_variant := variant_pk variant;
            pvcl_channel := channel_pk (channel d);
            price_amount := None;
            currency := currency_code (channel d) |} ∈ rows
         ∧ ∀ r, r ∈ rows →
                pvcl_key r = (variant_pk variant, channel_pk (channel d)) →
                price_amount r = None).
Proof.
  intros Huniq Hprice cleaned_input.
  assert (price_row variant d
          = {| pvcl_variant := variant_pk variant;
               pvcl_channel := channel_pk (channel d);
               price_amount := None;
               currency := currency_code (channel d) |}) as Hrow
    by (unfold price_row; by rewrite Hprice).
  split_and!.
  - by rewrite Hprice.
  - done.
  - apply elem_of_negative_price_ids.
  - intros Hnodup (d' & amount & Hd' & Hid & Hp & _)%elem_of_negative_price_ids.
    assert (d' = d) as ->; [|congruence].
    unfold cleaned_input in *.
    apply list_elem_of_lookup in Hd' as [i Hi].
    assert ((l1 ++ d :: l2) !! length l1 = Some d) as Hj
      by by rewrite list_lookup_middle.
    assert (i = length l1) as ->; [|congruence].
    eapply NoDup_lookup; [exact Hnodup| |].
    + by rewrite list_lookup_fmap, Hi.
    + rewrite list_lookup_fmap, Hj. simpl. by rewrite Hid.
  - destruct (save_each_entry variant l1 d l2 db Huniq)
      as (rows1 & rows & H1 & H2 & H3 & H4 & H5 & H6).
    destruct (variant_save_spec variant cleaned_input db Huniq)
      as (rows' & Hsave & Heach & Huniq' & _).
    unfold cleaned_input in Heach. rewrite H5 in Heach.
    injection Heach as ->.
    exists rows1, rows'. rewrite <- Hrow. split_and!; [done| |done|done|].
    + intros r Hr Hk. rewrite (H3 r Hr Hk). by rewrite Hrow.
    + intros Hlast. split; [by apply H6|]. intros r Hr Hk.
      rewrite (unique_together_elem_of pvcl_key rows' r (price_row variant d));
        [by rewrite Hrow|done|done|by apply H6|done].
Qed.

End VariantAbsentPrice.

(** An entry for channel 1 without a price, as the clean stage hands it to
    the checks and to [save]. *)
Definition entry_without_price
    : ProductVaraintChannelListingUpdate.channel_listing_data :=
  {| ProductVaraintChannelListingUpdate.data := price_entry "Channel:1" None;
     ProductVaraintChannelListingUpdate.channel :=
       {| channel_pk := 1; currency_code := "USD" |} |}.

Lemma absent_price_is_stored_as_null_witness :
  ProductVaraintChannelListingUpdate.perform_mutation typed_key
    "ProductVariant:1" [price_entry "Channel:1" None] shop
  = (Return {| variant_pk := 1; product_id := 2 |},
     set_variant_channel_listings
       [ {| pvcl_variant := 1; pvcl_channel := 1; price_amount := None;
            currency := "USD" |} ]
       shop)
  ∧ ProductVaraintChannelListingUpdate.clean_prices [entry_without_price] ∅
    = ([entry_without_price], ∅)
  ∧ ∃ rows,
      ProductVaraintChannelListingUpdate.save
        {| variant_pk := 1; product_id := 2 |} [entry_without_price] shop
      = (Return (), set_variant_channel_listings rows shop)
      ∧ ∀ r, r ∈ rows → VariantFacts.pvcl_key r = (1%Z, 1%Z) →
             price_amount r = None.
Proof.
  split; [by vm_compute|].
  destruct (VariantAbsentPrice.absent_price_is_stored_as_null
              {| variant_pk := 1; product_id := 2 |} [] entry_without_price
              [] ∅ shop)
    as (_ & Hclean & _ & _ & rows1 & rows & _ & _ & _ & Hsave & Hlast).
  - apply (bool_decide_unpack _). by vm_compute.
  - reflexivity.
  - split; [exact Hclean|]. exists rows. split; [exact Hsave|].
    apply Hlast. by intros ?%elem_of_nil.
Defined.

(** ** How validation failures are reported *)

Module Reporting.
Import ProductFacts VariantFacts.

Lemma validate_duplicated_ids_lookup_ne add_ids remove_ids errors other :
  other ≠ "input" →
  ProductChannelListingUpdate.validate_duplicated_ids add_ids remove_ids
    errors !! other
  = errors !! other.
Proof.
  intros Hne. unfold ProductChannelListingUpdate.validate_duplicated_ids.
  cbv zeta. destruct (bool_decide _); [|done]. unfold append_error.
  by rewrite lookup_insert_ne.
Qed.

(** The entries of the dictionary of the three structural checks: each
    check that finds something has its failure there, whatever the others
    find. *)
Lemma structural_errors_entries input :
  let add_ids :=
    ProductChannelListingAddInput.channel_id
      <$> default [] (ProductChannelListingUpdateInput.add_channels input) in
  let remove_ids :=
    default [] (ProductChannelListingUpdateInput.remove_channels input) in
  ((∃ x, x ∈ add_ids ∧ x ∈ remove_ids) →
   structural_errors input !! "input"
   = Some [ProductRejected.duplicated_in_both_lists add_ids remove_ids])
  ∧ (¬ NoDup add_ids →
     structural_errors input !! "add_channels"
     = Some [ProductRejected.duplicated_in_list add_ids])
  ∧ (¬ NoDup remove_ids →
     structural_errors input !! "remove_channels"
     = Some [ProductRejected.duplicated_in_list remove_ids]).
Proof.
  intros add_ids remove_ids. unfold structural_errors. cbv zeta.
  fold add_ids remove_ids. split_and!.
  - intros (x & Ha & Hr).
    rewrite !ProductDuplicates.validate_duplicated_values_lookup_ne by done.
    rewrite (validate_duplicated_ids_dup _ _ _ x) by done.
    unfold append_error. by rewrite lookup_insert_eq, lookup_empty.
  - intros Hdup.
    rewrite ProductDuplicates.validate_duplicated_values_lookup_ne by done.
    rewrite validate_duplicated_values_dup by done.
    unfold append_error at 1. rewrite lookup_insert_eq.
    by rewrite validate_duplicated_ids_lookup_ne, lookup_empty.
  - intros Hdup. rewrite validate_duplicated_values_dup by done.
    unfold append_error at 1. rewrite lookup_insert_eq.
    rewrite ProductDuplicates.validate_duplicated_values_lookup_ne by done.
    by rewrite validate_duplicated_ids_lookup_ne, lookup_empty.
Qed.

Section Mutation.
Variable from_global_id : GlobalId → option (NodeType * Z).

(** The product manager.  A structural duplicate: the failures of the
    three duplicate checks sit together in the one dictionary that is
    raised, each under its field, whatever the identifiers resolve to.  No
    structural duplicate and an add identifier that does not resolve: the
    resolver's "not found" failure is raised on its own, under
    [channel_id], and no later check runs.  Otherwise: the failures of the
    validate stage are raised together in one dictionary, or [save] runs
    when there is none. *)
Definition product_failures_reported (id : GlobalId)
    (input : ProductChannelListingUpdateInput.t) (db : Database)
    (product : ProductModel) : Prop :=
  let add_ids :=
    ProductChannelListingAddInput.channel_id
      <$> default [] (ProductChannelListingUpdateInput.add_channels input) in
  let remove_ids :=
    default [] (ProductChannelListingUpdateInput.remove_channels input) in
  (truthy (structural_errors input) = true →
   ProductChannelListingUpdate.perform_mutation from_global_id id input db
   = (Raise (Raised_ValidationError (structural_errors input)), db))
  ∧ ((∃ x, x ∈ add_ids ∧ x ∈ remove_ids) ∨ ¬ NoDup add_ids
     ∨ ¬ NoDup remove_ids →
     ∃ errors,
       ProductChannelListingUpdate.perform_mutation from_global_id id input
         db = (Raise (Raised_ValidationError errors), db)
       ∧ ((∃ x, x ∈ add_ids ∧ x ∈ remove_ids) →
          errors !! "input"
          = Some [ProductRejected.duplicated_in_both_lists add_ids
                    remove_ids])
       ∧ (¬ NoDup add_ids →
          errors !! "add_channels"
          = Some [ProductRejected.duplicated_in_list add_ids])
       ∧ (¬ NoDup remove_ids →
          errors !! "remove_channels"
          = Some [ProductRejected.duplicated_in_list remove_ids]))
  ∧ (structural_errors input = ∅ →
     ∀ e, get_nodes_or_error from_global_id db add_ids "channel_id"
          = Raise e →
          ProductChannelListingUpdate.perform_mutation from_global_id id
            input db = (Raise e, db)
          ∧ ∃ x, x ∈ add_ids
                 ∧ get_channel from_global_id db x = None
                 ∧ e = Raised_ValidationError
                         {[ "channel_id" := [not_found x] ]})
  ∧ (structural_errors input = ∅ →
     ∀ channels_to_add,
       get_nodes_or_error from_global_id db add_ids "channel_id"
       = Return channels_to_add →
       ∃ cleaned_input,
         ProductChannelListingUpdate.clean_channels from_global_id db input ∅
         = Return (cleaned_input, ∅)
         ∧ let errors :=
             if category product is None then
               ProductChannelListingUpdate.validate_product_without_category
                 cleaned_input ∅
             else ∅ in
           ProductChannelListingUpdate.perform_mutation from_global_id id
             input db
           = if truthy errors then (Raise (Raised_ValidationError errors), db)
             else
               match
                 ProductChannelListingUpdate.save product cleaned_input db
               with
               | (Raise e, db') => (Raise e, db')
               | (Return _, db') => (Return product, db')
               end).

Lemma product_reporting id input db product :
  get_node_or_error from_global_id Product product_pk (products db) id "id"
  = Return product →
  product_failures_reported id input db product.
Proof.
  intros Hnode. unfold product_failures_reported.
  set (add_ids := ProductChannelListingAddInput.channel_id <$> _).
  set (remove_ids := default [] _).
  destruct (structural_errors_entries input) as (Hinput & Hadd & Hremove).
  fold add_ids remove_ids in Hinput, Hadd, Hremove.
  split_and!.
  - intros Hstruct. by apply (ProductRejected.perform_mutation_structural
                                 _ _ _ _ product).
  - intros Hsome. exists (structural_errors input).
    split_and!; [|done..].
    apply (ProductRejected.perform_mutation_structural _ _ _ _ product);
      [done|].
    destruct (truthy (structural_errors input)) eqn:Htruthy; [done|].
    apply truthy_false in Htruthy.
    destruct Hsome as [H|[H|H]];
      [apply Hinput in H|apply Hadd in H|apply Hremove in H];
      by rewrite Htruthy, lookup_empty in H.
  - intros Hstruct e Hnodes. split.
    + by apply (ProductRejected.perform_mutation_not_found _ _ _ _ product).
    + by apply get_nodes_or_error_Raise in Hnodes.
  - intros Hstruct cs Hnodes. eexists. split.
    + rewrite ProductFacts.clean_channels_resolve by done.
      fold add_ids. rewrite Hnodes. reflexivity.
    + rewrite ProductFacts.perform_mutation_unfold, Hnode.
      rewrite ProductFacts.clean_channels_resolve by done.
      fold add_ids. rewrite Hnodes. reflexivity.
Qed.

(** The variant manager, likewise: a repeated identifier is raised alone
    (the two checks of the validate stage see an empty cleaned input); an
    identifier that does not resolve is raised by the resolver on its own;
    otherwise the failures of the two checks sit together in the one
    dictionary that is raised, the assignment failure under [input] and the
    price failure under [price], or [save] runs when there is none. *)
Definition variant_failures_reported (id : GlobalId)
    (input : list ProductVariantChannelListingAddInput.t) (db : Database)
    (variant : ProductVariantModel) : Prop :=
  let ids := ProductVariantChannelListingAddInput.channel_id <$> input in
  (¬ NoDup ids →
   ProductVaraintChannelListingUpdate.perform_mutation from_global_id id
     input db
   = (Raise
        (Raised_ValidationError
           {[ "channelId" := [duplicated_channel_ids ids] ]}),
      db))
  ∧ (NoDup ids →
     ∀ e, get_nodes_or_error from_global_id db ids "channel_id" = Raise e →
          ProductVaraintChannelListingUpdate.perform_mutation from_global_id
            id input db = (Raise e, db)
          ∧ ∃ x, x ∈ ids
                 ∧ get_channel from_global_id db x = None
                 ∧ e = Raised_ValidationError
                         {[ "channel_id" := [not_found x] ]})
  ∧ (NoDup ids →
     ∀ channels,
       get_nodes_or_error from_global_id db ids "channel_id"
       = Return channels →
       let cleaned_input :=
         zip_with ProductVaraintChannelListingUpdate.Build_channel_listing_data
           input channels in
       let unassigned := unassigned_ids db variant cleaned_input in
       let negative := negative_price_ids cleaned_input in
       ProductVaraintChannelListingUpdate.clean_channels from_global_id db
         input ∅ = Return (cleaned_input, ∅)
       ∧ (unassigned ≠ [] ∨ negative ≠ [] →
          ∃ errors,
            ProductVaraintChannelListingUpdate.perform_mutation
              from_global_id id input db
            = (Raise (Raised_ValidationError errors), db)
            ∧ errors !! "input"
              = (if unassigned is [] then None
                 else Some [product_not_assigned unassigned])
            ∧ errors !! "price"
              = (if negative is [] then None
                 else Some [invalid_price negative]))
       ∧ (unassigned = [] → negative = [] →
          ProductVaraintChannelListingUpdate.perform_mutation from_global_id
            id input db
          = match
              ProductVaraintChannelListingUpdate.save variant cleaned_input
                db
            with
            | (Raise e, db') => (Raise e, db')
            | (Return _, db') => (Return variant, db')
            end)).

Lemma variant_reporting id input db variant :
  get_node_or_error from_global_id ProductVariant variant_pk (variants db)
    id "id" = Return variant →
  variant_failures_reported id input db variant.
Proof.
  intros Hnode. unfold variant_failures_reported.
  set (ids := ProductVariantChannelListingAddInput.channel_id <$> input).
  split_and!.
  - intros Hdup. rewrite VariantFacts.variant_perform_mutation_unfold, Hnode.
    rewrite VariantFacts.clean_channels_duplicates by done.
    cbv zeta. unfold unassigned_ids, negative_price_ids. simpl.
    unfold truthy. rewrite bool_decide_true; [done|]. apply insert_non_empty.
  - intros Hnodup e Hnodes. split.
    + rewrite VariantFacts.variant_perform_mutation_unfold, Hnode.
      rewrite VariantFacts.variant_clean_channels_resolve by done.
      fold ids. by rewrite Hnodes.
    + by apply get_nodes_or_error_Raise in Hnodes.
  - intros Hnodup cs Hnodes. cbv zeta.
    set (cleaned_input :=
           zip_with
             ProductVaraintChannelListingUpdate.Build_channel_listing_data
             input cs).
    set (unassigned := unassigned_ids db variant cleaned_input).
    set (negative := negative_price_ids cleaned_input).
    assert (ProductVaraintChannelListingUpdate.clean_channels from_global_id
              db input ∅ = Return (cleaned_input, ∅)) as Hclean.
    { rewrite VariantFacts.variant_clean_channels_resolve by done.
      fold ids. by rewrite Hnodes. }
    destruct (VariantRejected.validation_errors_lookup unassigned negative)
      as (Hinput & Hprice & _ & Htruthy).
    cbv zeta in Hinput, Hprice, Htruthy.
    split_and!; [done| |].
    + intros Hsome. eexists. split_and!; [|exact Hinput|exact Hprice].
      rewrite VariantFacts.variant_perform_mutation_unfold, Hnode, Hclean.
      cbv zeta. fold unassigned negative. by rewrite (Htruthy Hsome).
    + intros Hun Hneg.
      rewrite VariantFacts.variant_perform_mutation_unfold, Hnode, Hclean.
      cbv zeta. fold unassigned negative. rewrite Hun, Hneg. simpl.
      by rewrite truthy_empty.
Qed.

(** C5 (as amended).  In both managers the validation failures of one
    request are reported stage by stage: the failures of the
    structural-duplicate checks are accumulated into one field-to-list
    dictionary and raised together, each under its field, a detected
    structural duplicate suppressing identifier resolution and leaving the
    later checks nothing to report; an add-path "channel not found" failure
    is raised by the resolver on its own, as soon as it is met, and no later
    check runs; and when the clean stage passes, the failures of the
    validate stage (category; assignment and price) are accumulated into
    one dictionary and raised together: the assignment failure and the
    price failure of one variant request are both in its response. *)
Theorem failures_reported_stage_by_stage db
    product_id product_input product variant_id variant_input variant :
  get_node_or_error from_global_id Product product_pk (products db)
    product_id "id" = Return product →
  get_node_or_error from_global_id ProductVariant variant_pk (variants db)
    variant_id "id" = Return variant →
  product_failures_reported product_id product_input db product
  ∧ variant_failures_reported variant_id variant_input db variant.
Proof.
  intros Hproduct Hvariant. split.
  - by apply product_reporting.
  - by apply variant_reporting.
Qed.

End Mutation.
End Reporting.

(** Product 1 has no category; the request publishes it on channel 1 and
    on a channel that does not exist. *)
Definition scenario_unknown_channel : ProductChannelListingUpdateInput.t :=
  request [add_entry "Channel:1" true None; add_entry "Channel:9" true None]
    [].

(** The two structural failures of the request that adds channel 1 twice
    and removes it are in one response, and so are the assignment failure
    and the price failure of the variant request. *)
Lemma failures_reported_stage_by_stage_witness :
  (∃ errors,
     ProductChannelListingUpdate.perform_mutation typed_key "Product:1"
       scenario_added_twice_and_removed shop
     = (Raise (Raised_ValidationError errors), shop)
     ∧ errors !! "input"
       = Some [ProductRejected.duplicated_in_both_lists
                 ["Channel:1"; "Channel:1"] ["Channel:1"]]
     ∧ errors !! "add_channels"
       = Some [ProductRejected.duplicated_in_list
                 ["Channel:1"; "Channel:1"]])
  ∧ (∃ errors,
       ProductVaraintChannelListingUpdate.perform_mutation typed_key
         "ProductVariant:1" scenario_bad_prices shop
       = (Raise (Raised_ValidationError errors), shop)
       ∧ errors !! "input"
         = Some [VariantFacts.product_not_assigned ["Channel:3"]]
       ∧ errors !! "price"
         = Some [VariantFacts.invalid_price ["Channel:3"; "Channel:2"]]).
Proof.
  destruct (Reporting.failures_reported_stage_by_stage typed_key shop
              "Product:1" scenario_added_twice_and_removed
              {| product_pk := 1; category := None |}
              "ProductVariant:1" scenario_bad_prices
              {| variant_pk := 1; product_id := 2 |})
    as [(_ & Hstructural & _ & _) (_ & _ & Hvalidate)].
  - by vm_compute.
  - by vm_compute.
  - split.
    + destruct Hstructural as (errors & Hraise & Hinput & Hadd & _).
      { right. left. apply (bool_decide_unpack _). by vm_compute. }
      exists errors. split_and!; [exact Hraise| |].
      * apply Hinput. exists "Channel:1".
        split; apply (bool_decide_unpack _); by vm_compute.
      * apply Hadd. apply (bool_decide_unpack _). by vm_compute.
    + destruct (Hvalidate
                  ltac:(apply (bool_decide_unpack _); by vm_compute)
                  [ {| channel_pk := 1; currency_code := "USD" |};
                    {| channel_pk := 3; currency_code := "PLN" |};
                    {| channel_pk := 2; currency_code := "EUR" |} ]
                  ltac:(by vm_compute))
        as (_ & Hraise & _).
      destruct Hraise as (errors & Hraise & Hinput & Hprice).
      { left. by vm_compute. }
      exists errors. split_and!; [exact Hraise| |].
      * rewrite Hinput. by vm_compute.
      * rewrite Hprice. by vm_compute.
Defined.

(** C5 as it is worded fails: the request has two validation failures, a
    channel that is not found and a publication without category, and the
    response holds the first alone.  [get_nodes_or_error] raises inside
    [clean_channels], which is not given the dictionary [errors] to add to,
    and [perform_mutation] does not catch it, so the category check never
    runs; the same request without the unknown channel gets the category
    failure. *)
Lemma failures_reported_stage_by_stage_counterexample :
  ProductChannelListingUpdate.perform_mutation typed_key "Product:1"
    scenario_unknown_channel shop
  = (Raise
       (Raised_ValidationError {[ "channel_id" := [not_found "Channel:9"] ]}),
     shop)
  ∧ errors_with_code PRODUCT_WITHOUT_CATEGORY
      {[ "channel_id" := [not_found "Channel:9"] ]}
    = []
  ∧ ProductChannelListingUpdate.perform_mutation typed_key "Product:1"
      (request [add_entry "Channel:1" true None] []) shop
    = (Raise
         (Raised_ValidationError
            {[ "is_published" :=
                 [ProductRejected.product_without_category ["Channel:1"]] ]}),
       shop).
Proof. split_and!; by vm_compute. Qed.

(** * Further properties of the two mutations *)

(** ** The error dictionary under [append] *)

Lemma lookup_append_error field error (errors : ErrorType) field' l :
  append_error field error errors !! field' = Some l
  ↔ (field' = field ∧ l = default [] (errors !! field) ++ [error])
    ∨ (field' ≠ field ∧ errors !! field' = Some l).
Proof.
  unfold append_error. rewrite lookup_insert_Some.
  split; (intros [[Heq Hl]|[Hne Hl]]; [left|right]; by split).
Qed.

(** [errors'] holds every failure of [errors], under the same field and
    before the failures it adds. *)
Definition extends (errors errors' : ErrorType) : Prop :=
  ∀ field l, errors !! field = Some l →
             ∃ l', errors' !! field = Some (l ++ l').

Lemma extends_refl errors : extends errors errors.
Proof. intros field l Hl. exists []. by rewrite app_nil_r. Qed.

Lemma extends_trans errors1 errors2 errors3 :
  extends errors1 errors2 → extends errors2 errors3 →
  extends errors1 errors3.
Proof.
  intros H12 H23 field l Hl. destruct (H12 _ _ Hl) as [l' Hl'].
  destruct (H23 _ _ Hl') as [l'' Hl'']. exists (l' ++ l'').
  by rewrite app_assoc.
Qed.

Lemma extends_append_error field error errors :
  extends errors (append_error field error errors).
Proof.
  intros field' l Hl. unfold append_error.
  destruct (decide (field' = field)) as [->|Hne].
  - exists [error]. by rewrite lookup_insert_eq, Hl.
  - exists []. by rewrite lookup_insert_ne, app_nil_r.
Qed.

Lemma extends_empty errors : extends errors ∅ → errors = ∅.
Proof.
  intros Hext. apply map_empty. intros field.
  destruct (errors !! field) as [l|] eqn:Hl; [|done].
  destruct (Hext _ _ Hl) as [l' Hl']. by rewrite lookup_empty in Hl'.
Qed.

(** The dictionary is not empty, and each of its fields holds one failure,
    with a code that the list allows for the field. *)
Definition one_failure_per_field
    (allowed : list (string * ProductErrorCode)) (errors : ErrorType)
    : Prop :=
  errors ≠ ∅
  ∧ ∀ field l, errors !! field = Some l →
               ∃ e, l = [e] ∧ (field, code e) ∈ allowed.

Lemma one_failure_per_field_singleton allowed field e :
  (field, code e) ∈ allowed →
  one_failure_per_field allowed {[ field := [e] ]}.
Proof.
  intros Hin. split; [apply insert_non_empty|].
  intros field' l [<- <-]%lookup_singleton_Some. by exists e.
Qed.


(** ** Tables, whatever they hold *)

Section TableRows.
Context {Row K : Type} `{EqDecision K} (key : Row → K).
Implicit Types (rows : list Row) (k : K).

(** The rows of a table under one key. *)
Definition rows_with_key k rows : list Row := filter (λ r, key r = k) rows.

Lemma filter_fmap_preserved (P : Row → Prop) `{∀ r, Decision (P r)}
    (f : Row → Row) rows :
  (∀ r, r ∈ rows → P (f r) ↔ P r) →
  filter P (f <$> rows) = f <$> filter P rows.
Proof.
  induction rows as [|r rows IH]; [done|]. intros Hf.
  rewrite fmap_cons, !filter_cons.
  rewrite IH by (intros r' Hr'; apply Hf; by right).
  destruct (decide (P (f r))) as [HP|HP], (decide (P r)) as [HQ|HQ];
    try done.
  - destruct HQ. apply (Hf r); [left|done].
  - destruct HP. apply (Hf r); [left|done].
Qed.

Lemma filter_fmap_untouched (P : Row → Prop) `{∀ r, Decision (P r)}
    (f : Row → Row) rows :
  (∀ r, r ∈ rows → P r → f r = r) →
  (∀ r, r ∈ rows → ¬ P r → ¬ P (f r)) →
  filter P (f <$> rows) = filter P rows.
Proof.
  induction rows as [|r rows IH]; [done|]. intros Hsame Hout.
  rewrite fmap_cons, !filter_cons.
  rewrite IH;
    [|intros r' Hr'; apply Hsame; by right|intros r' Hr'; apply Hout; by right].
  destruct (decide (P r)) as [HP|HP].
  - rewrite (Hsame r) by (done || left). by rewrite decide_True.
  - rewrite decide_False; [done|]. apply Hout; [left|done].
Qed.

Section Upsert.
Context (lookup : Row → Prop) `{∀ r, Decision (lookup r)}.
Context (set_defaults : Row → Row) (create : Row) (k : K).
Hypothesis lookup_key : ∀ r, lookup r ↔ key r = k.
Hypothesis key_create : key create = k.
Hypothesis key_set_defaults : ∀ r, key r = k → key (set_defaults r) = k.

(** The upsert on any table: it fails exactly when the table holds several
    rows under the key, and then with [MultipleObjectsReturned]; otherwise
    the table holds one row under the key afterwards, and as many rows as
    before under every other key. *)
Lemma update_or_create_outcome rows :
  match update_or_create lookup set_defaults create rows with
  | Return rows' =>
      length (rows_with_key k rows) ≤ 1
      ∧ length (rows_with_key k rows') = 1
      ∧ ∀ k', k' ≠ k →
              length (rows_with_key k' rows') = length (rows_with_key k' rows)
  | Raise e =>
      e = MultipleObjectsReturned ∧ 1 < length (rows_with_key k rows)
  end.
Proof.
  unfold update_or_create, rows_with_key.
  rewrite (list_filter_iff (λ r, key r = k) lookup)
    by (intros r; symmetry; apply lookup_key).
  destruct (filter lookup rows) as [|r0 [|r1 ?]] eqn:Hf; simpl.
  - split_and!; [lia| |].
    + rewrite filter_app, (list_filter_iff (λ r, key r = k) lookup), Hf
        by (intros r; symmetry; apply lookup_key).
      rewrite filter_cons_True by exact key_create. done.
    + intros k' Hne. rewrite filter_app, length_app.
      rewrite filter_cons_False by congruence. simpl. lia.
  - assert (∀ k' r, r ∈ rows →
              key (if decide (lookup r) then set_defaults r else r) = k'
              ↔ key r = k') as Hkeys.
    { intros k' r _. destruct (decide (lookup r)) as [Hl|]; [|done].
      apply lookup_key in Hl. rewrite key_set_defaults by done.
      by rewrite Hl. }
    split_and!; [lia| |].
    + rewrite filter_fmap_preserved by apply Hkeys. rewrite length_fmap.
      by rewrite (list_filter_iff (λ r, key r = k) lookup), Hf
        by (intros r; symmetry; apply lookup_key).
    + intros k' _. rewrite filter_fmap_preserved by apply Hkeys.
      by rewrite length_fmap.
  - split; [done|lia].
Qed.

(** The rows that a predicate picks are left alone, and in place, by an
    upsert whose key lies outside the predicate. *)
Lemma update_or_create_frame (P : Row → Prop) `{∀ r, Decision (P r)} rows
    rows' :
  (∀ r, P r → key r ≠ k) →
  update_or_create lookup set_defaults create rows = Return rows' →
  filter P rows' = filter P rows.
Proof.
  intros Hout. unfold update_or_create.
  destruct (filter lookup rows) as [|r0 [|r1 ?]]; [| |done].
  - intros [= <-]. rewrite filter_app.
    rewrite (filter_cons_False _ create) by (intros HP; by apply (Hout create)).
    by rewrite filter_nil, app_nil_r.
  - intros [= <-]. apply filter_fmap_untouched.
    + intros r _ HP. rewrite decide_False; [done|].
      rewrite lookup_key. by apply Hout.
    + intros r _ HP. destruct (decide (lookup r)) as [Hl|]; [|done].
      intros HP'. apply (Hout _ HP'), key_set_defaults. by apply lookup_key.
Qed.

End Upsert.
End TableRows.

(** ** Writes of the product manager on any table *)

Module ProductTable.
Import ProductChannelListingAddInput ProductChannelListingUpdateInput.
Import ProductChannelListingUpdate ProductFacts.

(** The rows of a product on a channel. *)
Definition rows_on (product : ProductModel) (channel : Z)
    (rows : list ProductChannelListing) : list ProductChannelListing :=
  rows_with_key pcl_key (product_pk product, channel) rows.

Lemma objects_update_or_create_outcome product channel defaults db :
  match objects_update_or_create product channel defaults db with
  | (Return _, db') =>
      db' = set_product_channel_listings (product_channel_listings db') db
      ∧ length (rows_on product (channel_pk channel)
                  (product_channel_listings db)) ≤ 1
      ∧ length (rows_on product (channel_pk channel)
                  (product_channel_listings db')) = 1
      ∧ ∀ k, k ≠ (product_pk product, channel_pk channel) →
             length (rows_with_key pcl_key k (product_channel_listings db'))
             = length (rows_with_key pcl_key k (product_channel_listings db))
  | (Raise e, db') =>
      db' = db ∧ e = MultipleObjectsReturned
      ∧ 1 < length (rows_on product (channel_pk channel)
                      (product_channel_listings db))
  end.
Proof.
  unfold objects_update_or_create, rows_on.
  pose proof (update_or_create_outcome pcl_key
                (λ r, pcl_product r = product_pk product
                      ∧ pcl_channel r = channel_pk channel)
                (λ r, {| pcl_product := pcl_product r;
                         pcl_channel := pcl_channel r;
                         pcl_is_published := defaults.1;
                         pcl_publication_date := defaults.2 |})
                {| pcl_product := product_pk product;
                   pcl_channel := channel_pk channel;
                   pcl_is_published := defaults.1;
                   pcl_publication_date := defaults.2 |}
                (product_pk product, channel_pk channel)) as Hout.
  specialize (Hout ltac:(intros r; unfold pcl_key; split;
                           [by intros [-> ->]|by intros [= -> ->]])
                   eq_refl ltac:(by intros []) (product_channel_listings db)).
  destruct (update_or_create _ _ _ _) as [e|rows]; [by destruct Hout|].
  by destruct Hout as (? & ? & ?).
Qed.

Lemma add_channels_outcome product add_channels_ db :
  match add_channels product add_channels_ db with
  | (Return _, db') =>
      db' = set_product_channel_listings (product_channel_listings db') db
      ∧ Forall
          (λ a : channel_listing,
             length (rows_on product (channel_pk (channel a))
                       (product_channel_listings db)) ≤ 1)
          add_channels_
  | (Raise e, db') =>
      e = MultipleObjectsReturned
      ∧ Exists
          (λ a : channel_listing,
             1 < length (rows_on product (channel_pk (channel a))
                           (product_channel_listings db)))
          add_channels_
  end.
Proof.
  revert db. induction add_channels_ as [|a rest IH]; intros db; simpl.
  - split; [by rewrite set_product_channel_listings_same|constructor].
  - unfold mbind, DB_bind.
    pose proof (objects_update_or_create_outcome product (channel a)
                  (is_published a, publication_date a) db) as Hhead.
    destruct (objects_update_or_create _ _ _ db) as [[e|[]] db1].
    { destruct Hhead as (_ & -> & ?). split; [done|]. by left. }
    destruct Hhead as (Hdb1 & Hle & Hone & Hother).
    specialize (IH db1).
    assert (∀ a' : channel_listing,
              length (rows_on product (channel_pk (channel a'))
                        (product_channel_listings db1)) ≤ 1
              ↔ length (rows_on product (channel_pk (channel a'))
                          (product_channel_listings db)) ≤ 1) as Hsame.
    { intros a'. unfold rows_on in *.
      destruct (decide ((product_pk product, channel_pk (channel a'))
                        = (product_pk product, channel_pk (channel a))))
        as [->|Hne]; [lia|]. by rewrite Hother. }
    destruct (add_channels product rest db1) as [[e|[]] db'].
    + destruct IH as [-> Hex]. split; [done|]. right.
      eapply Exists_impl; [exact Hex|]. intros a' Hgt. simpl in Hgt.
      specialize (Hsame a'). lia.
    + destruct IH as [Hdb' Hall]. split.
      * rewrite Hdb', Hdb1. done.
      * constructor; [done|]. eapply Forall_impl; [exact Hall|].
        intros a' Hle'. by apply Hsame.
Qed.

(** The rows that a predicate picks are left alone, and in place, by the
    upserts of channels outside the predicate, whether or not they all
    succeed. *)
Lemma add_channels_frame (P : ProductChannelListing → Prop)
    `{∀ r, Decision (P r)} product add_channels_ db :
  (∀ r, P r → ¬ (pcl_product r = product_pk product
                 ∧ pcl_channel r ∈ upserted_keys add_channels_)) →
  (add_channels product add_channels_ db).2
  = set_product_channel_listings
      (product_channel_listings (add_channels product add_channels_ db).2) db
  ∧ filter P
      (product_channel_listings (add_channels product add_channels_ db).2)
    = filter P (product_channel_listings db).
Proof.
  revert db. induction add_channels_ as [|a rest IH]; intros db Hout; simpl.
  - by rewrite set_product_channel_listings_same.
  - unfold mbind, DB_bind, objects_update_or_create.
    destruct (update_or_create _ _ _ _) as [e|rows1] eqn:Hupsert; simpl.
    { by rewrite set_product_channel_listings_same. }
    destruct (IH (set_product_channel_listings rows1 db)) as [Hdb Hfilter].
    { intros r HP [Hp Hc]. apply (Hout r HP). split; [done|by right]. }
    destruct (add_channels product rest _) as [res db']. simpl in *.
    split; [by rewrite Hdb|]. rewrite Hfilter.
    eapply (update_or_create_frame pcl_key _ _ _
              (product_pk product, channel_pk (channel a)));
      [| | | |exact Hupsert].
    + intros r. unfold pcl_key.
      split; [by intros [-> ->]|by intros [= -> ->]].
    + done.
    + by intros [].
    + intros r HP Hk. apply (Hout r HP). unfold pcl_key in Hk.
      injection Hk as -> ->. split; [done|left].
Qed.

(** Every add-entry names a key that holds at most one row. *)
Definition upsertable (product : ProductModel)
    (add_channels_ : list channel_listing)
    (rows : list ProductChannelListing) : Prop :=
  Forall (λ a : channel_listing,
            length (rows_on product (channel_pk (channel a)) rows) ≤ 1)
         add_channels_.

#[global] Instance upsertable_dec product add_channels_ rows :
  Decision (upsertable product add_channels_ rows).
Proof. unfold upsertable. apply _. Defined.

Lemma unique_together_upsertable product add_channels_ rows :
  unique_together pcl_key rows → upsertable product add_channels_ rows.
Proof.
  intros Huniq. apply Forall_forall. intros a _.
  by apply unique_together_matches.
Qed.

Lemma save_outcome product cleaned_input db :
  match save product cleaned_input db with
  | (Return _, db') =>
      db' = set_product_channel_listings (product_channel_listings db') db
      ∧ upsertable product (default [] (cleaned_add_channels cleaned_input))
          (product_channel_listings db)
  | (Raise e, db') =>
      db' = db ∧ e = MultipleObjectsReturned
      ∧ ¬ upsertable product
            (default [] (cleaned_add_channels cleaned_input))
            (product_channel_listings db)
  end.
Proof.
  unfold save, transaction_atomic, mbind, DB_bind.
  pose proof (add_channels_outcome product
                (default [] (cleaned_add_channels cleaned_input)) db) as Hadd.
  destruct (add_channels _ _ db) as [[e|[]] db1].
  - destruct Hadd as [-> Hex]. split_and!; [done..|].
    intros Hall. apply Exists_exists in Hex as (a & Ha & Hgt).
    unfold upsertable in Hall. rewrite Forall_forall in Hall.
    specialize (Hall a Ha). simpl in Hall. lia.
  - destruct Hadd as [Hdb1 Hall]. unfold remove_channels. simpl.
    split; [|done]. by rewrite Hdb1.
Qed.

(** The rows that a predicate picks are left alone, and in place, by a
    [save] that neither upserts nor deletes any of them. *)
Lemma save_frame (P : ProductChannelListing → Prop)
    `{∀ r, Decision (P r)} product cleaned_input db :
  (∀ r, P r →
     ¬ (pcl_product r = product_pk product
        ∧ (pcl_channel r
             ∈ upserted_keys (default [] (cleaned_add_channels cleaned_input))
           ∨ pcl_channel r
               ∈ default [] (cleaned_remove_channels cleaned_input)))) →
  filter P (product_channel_listings (save product cleaned_input db).2)
  = filter P (product_channel_listings db).
Proof.
  intros Hout. unfold save, transaction_atomic, mbind, DB_bind.
  destruct (add_channels_frame P product
              (default [] (cleaned_add_channels cleaned_input)) db)
    as [_ Hadd].
  { intros r HP [Hp Hc]. apply (Hout r HP). auto. }
  destruct (add_channels _ _ db) as [[e|[]] db1]; [done|].
  unfold remove_channels, filter_delete. simpl in *.
  rewrite <- Hadd, list_filter_filter. apply list_filter_iff.
  intros r. split; [tauto|]. intros HP. split; [done|].
  intros [Hp Hc]. apply (Hout r HP). auto.
Qed.

(** X1. [save] is all or nothing on any table: it goes through exactly when
    every add-entry names a (product, channel) key that holds at most one
    row, and then only the table of product listings changes; otherwise it
    fails with [MultipleObjectsReturned] and the database is as it was, also
    when upserts of earlier entries had gone through. *)
Theorem product_save_all_or_nothing product cleaned_input db :
  if decide (upsertable product
               (default [] (cleaned_add_channels cleaned_input))
               (product_channel_listings db))
  then ∃ rows,
         save product cleaned_input db
         = (Return (), set_product_channel_listings rows db)
  else save product cleaned_input db = (Raise MultipleObjectsReturned, db).
Proof.
  pose proof (save_outcome product cleaned_input db) as Hsave.
  destruct (save product cleaned_input db) as [[e|[]] db'].
  - destruct Hsave as (-> & -> & Hno). by rewrite decide_False.
  - destruct Hsave as [Hdb' Hall]. rewrite decide_True by done.
    eexists. by rewrite Hdb' at 1.
Qed.

End ProductTable.

(** ** What a request to the product manager comes to *)

Module ProductOutcome.
Import ProductChannelListingAddInput ProductChannelListingUpdateInput.
Import ProductChannelListingUpdate ProductFacts ProductTable.

(** The identifiers of the add-entries that ask for publication, in the
    order of the request. *)
Definition published_channel_ids
    (adds : list ProductChannelListingAddInput.t) : list GlobalId :=
  channel_id <$> filter (λ a, is_published a = true) adds.

Definition without_category_error (ids : list GlobalId) : ValidationError :=
  {| message := "You must select a category to be able to publish.";
     code := PRODUCT_WITHOUT_CATEGORY;
     params_channels := ids |}.

Lemma published_channel_ids_zip
    (adds : list ProductChannelListingAddInput.t) (cs : list Channel) :
  length adds = length cs →
  (λ a : channel_listing, channel_id a)
    <$> filter (λ a : channel_listing, is_published a = true)
          (zip_with Build_channel_listing adds cs)
  = published_channel_ids adds.
Proof.
  unfold published_channel_ids. revert cs.
  induction adds as [|a adds IH]; intros [|c cs] Hlen; simplify_eq/=; [done|].
  rewrite !filter_cons. simpl.
  destruct (decide (is_published a = true)); simpl; by rewrite IH.
Qed.

Lemma published_channel_ids_nil adds :
  published_channel_ids adds = []
  ↔ Forall (λ a, is_published a = false) adds.
Proof.
  unfold published_channel_ids. rewrite Forall_forall. split.
  - intros Hnil%fmap_nil_inv a Ha.
    destruct (is_published a) eqn:Hp; [|done].
    by destruct (filter_nil_not_elem_of _ _ a Hnil Hp).
  - intros Hall. destruct (filter _ adds) as [|a l] eqn:Hf; [done|].
    assert (a ∈ filter (λ a, is_published a = true) adds) as Hin
      by (rewrite Hf; left).
    apply list_elem_of_filter in Hin as [Hp Hin].
    rewrite (Hall a Hin) in Hp. done.
Qed.

Section Mutation.
Variable from_global_id : GlobalId → option (NodeType * Z).

(** The cleaned input of a request whose add identifiers resolved to
    [channels_to_add]. *)
Definition cleaned (input : ProductChannelListingUpdateInput.t)
    (channels_to_add : list Channel) : cleaned_input_dict :=
  {| cleaned_add_channels :=
       Some (zip_with Build_channel_listing
               (default []
                  (ProductChannelListingUpdateInput.add_channels input))
               channels_to_add);
     cleaned_remove_channels :=
       Some (omap (to_primary_key from_global_id ChannelNode)
               (default []
                  (ProductChannelListingUpdateInput.remove_channels
                     input))) |}.

(** The channel keys that the identifiers of a request resolve to. *)
Definition resolved_keys (ids : list GlobalId) : list Z :=
  omap (to_primary_key from_global_id ChannelNode) ids.

Lemma get_node_or_error_Return {Node} only_type (pk_of : Node → Z)
    table id field node :
  get_node_or_error from_global_id only_type pk_of table id field
  = Return node →
  to_primary_key from_global_id only_type id = Some (pk_of node)
  ∧ node ∈ table.
Proof.
  unfold get_node_or_error.
  destruct (to_primary_key _ _ _) as [pk|]; simpl; [|done].
  destruct (head _) as [node'|] eqn:Hhead; [|done]. intros [= ->].
  apply head_Some_elem_of, list_elem_of_filter in Hhead as [-> ?]. done.
Qed.

Lemma upserted_keys_resolved db
    (adds : list ProductChannelListingAddInput.t) channels_to_add :
  Forall2 (λ (a : ProductChannelListingAddInput.t) c,
             get_channel from_global_id db (channel_id a) = Some c)
    adds channels_to_add →
  upserted_keys (zip_with Build_channel_listing adds channels_to_add)
  = resolved_keys (channel_id <$> adds).
Proof.
  unfold upserted_keys, resolved_keys.
  induction 1 as [|a c adds cs Hc _ IH]; [done|].
  apply get_channel_pk in Hc as [Hpk _]. simpl. rewrite Hpk. simpl.
  f_equal. exact IH.
Qed.

(** [perform_mutation] by the stage that settles the request. *)
Lemma perform_mutation_stages id input db :
  perform_mutation from_global_id id input db
  = match get_node_or_error from_global_id Product product_pk
            (products db) id "id" with
    | Raise _ =>
        (Raise (Raised_ValidationError {[ "id" := [not_found id] ]}), db)
    | Return product =>
        if truthy (structural_errors input) then
          (Raise (Raised_ValidationError (structural_errors input)), db)
        else
          match
            get_nodes_or_error from_global_id db
              (channel_id <$>
                 default []
                   (ProductChannelListingUpdateInput.add_channels input))
              "channel_id"
          with
          | Raise e => (Raise e, db)
          | Return channels_to_add =>
              match
                category product,
                published_channel_ids
                  (default []
                     (ProductChannelListingUpdateInput.add_channels input))
              with
              | None, id' :: ids =>
                  (Raise
                     (Raised_ValidationError
                        {[ "is_published" :=
                             [without_category_error (id' :: ids)] ]}),
                   db)
              | _, _ =>
                  match save product (cleaned input channels_to_add) db with
                  | (Raise e, db') => (Raise e, db')
                  | (Return _, db') => (Return product, db')
                  end
              end
          end
    end.
Proof.
  rewrite perform_mutation_unfold.
  destruct (get_node_or_error _ _ _ _ _ _) as [e|product] eqn:Hnode.
  { by apply get_node_or_error_Raise in Hnode as ->. }
  destruct (truthy (structural_errors input)) eqn:Hstruct.
  { rewrite clean_channels_structural by done. cbv zeta.
    unfold validate_product_without_category. simpl.
    destruct (category product); by rewrite Hstruct. }
  apply truthy_false in Hstruct. rewrite clean_channels_resolve by done.
  destruct (get_nodes_or_error _ _ _ _) as [e|channels_to_add] eqn:Hnodes;
    [done|].
  apply get_nodes_or_error_Return, Forall2_length in Hnodes.
  rewrite length_fmap in Hnodes. simpl.
  destruct (category product); [by rewrite truthy_empty|].
  unfold validate_product_without_category. simpl.
  rewrite published_channel_ids_zip by done.
  destruct (published_channel_ids _) as [|id' ids]; [by rewrite truthy_empty|].
  by rewrite truthy_append_error, append_error_empty.
Qed.

Lemma upsertable_resolved db product
    (adds : list ProductChannelListingAddInput.t) channels_to_add rows :
  Forall2 (λ (a : ProductChannelListingAddInput.t) c,
             get_channel from_global_id db (channel_id a) = Some c)
    adds channels_to_add →
  upsertable product (zip_with Build_channel_listing adds channels_to_add)
    rows
  ↔ Forall (λ a : ProductChannelListingAddInput.t,
              ∀ k, to_primary_key from_global_id ChannelNode (channel_id a)
                   = Some k →
                   length (rows_on product k rows) ≤ 1)
           adds.
Proof.
  unfold upsertable.
  induction 1 as [|a c adds cs Hc _ IH]; simpl; [by split; constructor|].
  apply get_channel_pk in Hc as [Hpk _]. rewrite !Forall_cons, IH. simpl.
  split; intros [Hhead ?]; (split; [|done]).
  - intros k Hk. by simplify_eq.
  - by apply Hhead.
Qed.

Lemma get_nodes_or_error_listings rows db ids field :
  get_nodes_or_error from_global_id (set_product_channel_listings rows db)
    ids field
  = get_nodes_or_error from_global_id db ids field.
Proof. induction ids as [|id ids IH]; [done|]. simpl. by rewrite IH. Qed.

(** The rows that a request can touch: those of the product that [id]
    names, on a channel that an add or remove identifier resolves to. *)
Definition touched (id : GlobalId)
    (input : ProductChannelListingUpdateInput.t)
    (r : ProductChannelListing) : Prop :=
  to_primary_key from_global_id Product id = Some (pcl_product r)
  ∧ pcl_channel r
      ∈ resolved_keys
          ((channel_id <$>
              default []
                (ProductChannelListingUpdateInput.add_channels input))
           ++ default []
                (ProductChannelListingUpdateInput.remove_channels input)).

#[global] Instance touched_dec id input r : Decision (touched id input r).
Proof. unfold touched. apply _. Defined.

(** X2. Whatever the request and its outcome, the product mutation leaves
    the channels, the products, the variants and the variant listings as
    they were, and every product listing other than those of the named
    product on a channel that an add or remove identifier resolves to stays
    as it was, in its place. *)
Theorem product_mutation_frame id input db :
  let db' := (perform_mutation from_global_id id input db).2 in
  channels db' = channels db
  ∧ products db' = products db
  ∧ variants db' = variants db
  ∧ variant_channel_listings db' = variant_channel_listings db
  ∧ filter (λ r, ¬ touched id input r) (product_channel_listings db')
    = filter (λ r, ¬ touched id input r) (product_channel_listings db).
Proof.
  cbv zeta. rewrite perform_mutation_stages.
  destruct (get_node_or_error _ _ _ _ _ _) as [e|product] eqn:Hnode; [done|].
  destruct (truthy _); [done|].
  destruct (get_nodes_or_error _ _ _ _) as [e|channels_to_add] eqn:Hnodes;
    [done|].
  apply get_node_or_error_Return in Hnode as [Hpk _].
  apply get_nodes_or_error_Return, Forall2_fmap_l in Hnodes.
  assert (let db' := (save product (cleaned input channels_to_add) db).2 in
          channels db' = channels db
          ∧ products db' = products db
          ∧ variants db' = variants db
          ∧ variant_channel_listings db' = variant_channel_listings db
          ∧ filter (λ r, ¬ touched id input r) (product_channel_listings db')
            = filter (λ r, ¬ touched id input r)
                (product_channel_listings db)) as Hsave.
  { cbv zeta. split_and!;
      try (pose proof (save_outcome product (cleaned input channels_to_add)
                         db) as Hout;
           destruct (save _ _ db) as [[e|[]] db'];
           [by destruct Hout as (-> & _)|destruct Hout as [-> _]; done]).
    apply save_frame. intros r Hr [Hp Hc]. apply Hr. split; [congruence|].
    unfold resolved_keys. rewrite omap_app, elem_of_app.
    simpl in Hc. erewrite upserted_keys_resolved in Hc by done. done. }
  cbv zeta in Hsave.
  destruct (category product) as [c|];
    [|destruct (published_channel_ids
                  (default []
                     (ProductChannelListingUpdateInput.add_channels input)))
        as [|id' ids]; [|done]];
    by destruct (save _ _ db) as [[e|[]] db'].
Qed.

Lemma product_mutation_saves id input db product channels_to_add :
  get_node_or_error from_global_id Product product_pk (products db) id "id"
  = Return product →
  truthy (structural_errors input) = false →
  get_nodes_or_error from_global_id db
    (channel_id <$>
       default [] (ProductChannelListingUpdateInput.add_channels input))
    "channel_id" = Return channels_to_add →
  (category product = None →
   published_channel_ids
     (default [] (ProductChannelListingUpdateInput.add_channels input))
   = []) →
  perform_mutation from_global_id id input db
  = match save product (cleaned input channels_to_add) db with
    | (Raise e, db') => (Raise e, db')
    | (Return _, db') => (Return product, db')
    end.
Proof.
  intros Hnode Hstruct Hnodes Hpub.
  rewrite perform_mutation_stages, Hnode, Hstruct, Hnodes.
  destruct (category product); [done|]. by rewrite Hpub.
Qed.

Lemma product_mutation_Return_inv id input db product :
  (perform_mutation from_global_id id input db).1 = Return product →
  ∃ channels_to_add,
    get_node_or_error from_global_id Product product_pk (products db) id
      "id" = Return product
    ∧ truthy (structural_errors input) = false
    ∧ get_nodes_or_error from_global_id db
        (channel_id <$>
           default [] (ProductChannelListingUpdateInput.add_channels input))
        "channel_id" = Return channels_to_add
    ∧ (category product = None →
       published_channel_ids
         (default [] (ProductChannelListingUpdateInput.add_channels input))
       = []).
Proof.
  rewrite perform_mutation_stages.
  destruct (get_node_or_error _ _ _ _ _ _) as [e|product']; [done|].
  destruct (truthy _); [done|].
  destruct (get_nodes_or_error _ _ _ _) as [e|channels_to_add]; [done|].
  intros Hret. exists channels_to_add.
  assert (product' = product) as ->.
  { destruct (category product'), (published_channel_ids
      (default [] (ProductChannelListingUpdateInput.add_channels input)));
      try done; destruct (save _ _ db) as [[e|[]] db']; by simplify_eq/=. }
  split_and!; [done..|]. intros Hcat. rewrite Hcat in Hret.
  by destruct (published_channel_ids _).
Qed.

(** X3. The product mutation returns the product only when: the
    identifier names it; no add identifier and no remove identifier is
    repeated and none is in both lists; every add identifier resolves to a
    channel; a product without category is published nowhere; and the table
    holds at most one row of the product for each channel added. *)
Theorem product_mutation_accepted_only_if id input db product :
  (perform_mutation from_global_id id input db).1 = Return product →
  let adds :=
    default [] (ProductChannelListingUpdateInput.add_channels input) in
  let removes :=
    default [] (ProductChannelListingUpdateInput.remove_channels input) in
  get_node_or_error from_global_id Product product_pk (products db) id
    "id" = Return product
  ∧ NoDup (channel_id <$> adds)
  ∧ NoDup removes
  ∧ (∀ x, x ∈ channel_id <$> adds → x ∉ removes)
  ∧ Forall (λ a, is_Some (get_channel from_global_id db (channel_id a)))
      adds
  ∧ (category product = None →
     Forall (λ a, is_published a = false) adds)
  ∧ Forall (λ a : ProductChannelListingAddInput.t,
              ∀ k, to_primary_key from_global_id ChannelNode
                     (channel_id a) = Some k →
                   length (rows_on product k
                             (product_channel_listings db)) ≤ 1)
      adds.
Proof.
  intros Hret. cbv zeta.
  pose proof Hret
    as (cs & Hnode & Hstruct & Hnodes & Hpub)%product_mutation_Return_inv.
  rewrite (product_mutation_saves id input db product cs) in Hret by done.
  apply truthy_false, structural_errors_empty in Hstruct as (Ha & Hr & Hd).
  apply get_nodes_or_error_Return, Forall2_fmap_l in Hnodes.
  split_and!; [done..| | |].
  - eapply Forall2_Forall_l; [exact Hnodes|]. apply Forall_true.
    intros c a Hc. simpl in Hc. by rewrite Hc.
  - intros Hcat. by apply published_channel_ids_nil, Hpub.
  - apply (upsertable_resolved db product _ cs); [done|].
    pose proof (save_outcome product (cleaned input cs) db) as Hsave.
    destruct (save _ _ db) as [[e|[]] db']; [done|]. by destruct Hsave.
Qed.

(** X4. The product mutation keeps the uniqueness of (product, channel) in
    the table of product listings, whatever the request and its outcome. *)
Theorem product_mutation_keeps_unique id input db :
  unique_together pcl_key (product_channel_listings db) →
  unique_together pcl_key
    (product_channel_listings
       (perform_mutation from_global_id id input db).2).
Proof.
  intros Huniq. rewrite perform_mutation_stages.
  destruct (get_node_or_error _ _ _ _ _ _) as [e|product]; [done|].
  destruct (truthy _); [done|].
  destruct (get_nodes_or_error _ _ _ _) as [e|channels_to_add]; [done|].
  destruct (save_spec product (cleaned input channels_to_add) db Huniq)
    as (rows & Hsave & Huniq' & _).
  destruct (category product) as [c|];
    [|destruct (published_channel_ids
                  (default []
                     (ProductChannelListingUpdateInput.add_channels input)))
        as [|id' ids]; [|done]];
    by rewrite Hsave.
Qed.

(** X5. A request that the product mutation accepted is accepted again on
    the database it left, and leaves the same product listings: the
    mutation is idempotent. *)
Theorem product_mutation_idempotent id input db product :
  unique_together pcl_key (product_channel_listings db) →
  (perform_mutation from_global_id id input db).1 = Return product →
  let db' := (perform_mutation from_global_id id input db).2 in
  ∃ rows,
    perform_mutation from_global_id id input db'
    = (Return product, set_product_channel_listings rows db')
    ∧ rows ≡ₚ product_channel_listings db'.
Proof.
  intros Huniq (cs & Hnode & Hstruct & Hnodes & Hpub)%product_mutation_Return_inv.
  cbv zeta.
  destruct (save_spec product (cleaned input cs) db Huniq)
    as (rows1 & Hsave1 & Huniq1 & Hmem1).
  destruct (save_spec product (cleaned input cs)
              (set_product_channel_listings rows1 db) Huniq1)
    as (rows2 & Hsave2 & Huniq2 & Hmem2).
  rewrite (product_mutation_saves id input db product cs) by done.
  rewrite Hsave1. simpl.
  rewrite (product_mutation_saves id input _ product cs);
    [|done..|by rewrite get_nodes_or_error_listings|done].
  rewrite Hsave2. exists rows2. split; [done|].
  apply NoDup_Permutation.
  - by apply NoDup_fmap_1 in Huniq2.
  - by apply NoDup_fmap_1 in Huniq1.
  - intros r. rewrite Hmem2. simpl. rewrite !Hmem1. tauto.
Qed.

(** *** The failures of a response *)

Lemma validate_duplicated_ids_lookup add_ids remove_ids errors field l :
  validate_duplicated_ids add_ids remove_ids errors !! field = Some l →
  (field = "input"
   ∧ ∃ e, code e = DUPLICATED_INPUT_ITEM
          ∧ l = default [] (errors !! "input") ++ [e])
  ∨ errors !! field = Some l.
Proof.
  unfold validate_duplicated_ids. cbv zeta. case_bool_decide; [|by right].
  rewrite lookup_append_error. intros [[-> ->]|[_ ?]]; [left|by right].
  split; [done|]. eexists. split; [|reflexivity]. reflexivity.
Qed.

Lemma validate_duplicated_values_lookup ids field' errors field l :
  validate_duplicated_values ids field' errors !! field = Some l →
  (field = field'
   ∧ ∃ e, code e = DUPLICATED_INPUT_ITEM
          ∧ l = default [] (errors !! field') ++ [e])
  ∨ errors !! field = Some l.
Proof.
  unfold validate_duplicated_values. cbv zeta. case_bool_decide; [|by right].
  rewrite lookup_append_error. intros [[-> ->]|[_ ?]]; [left|by right].
  split; [done|]. eexists. split; [|reflexivity]. reflexivity.
Qed.

Ltac lookup_checks H :=
  repeat first
    [ by rewrite lookup_empty in H
    | apply validate_duplicated_values_lookup in H
        as [(? & ? & ? & ?)|H]; [simplify_eq|]
    | apply validate_duplicated_ids_lookup in H
        as [(? & ? & ? & ?)|H]; [simplify_eq|] ].

Lemma structural_errors_fields input field l :
  structural_errors input !! field = Some l →
  ∃ e, l = [e] ∧ code e = DUPLICATED_INPUT_ITEM
       ∧ field ∈ ["input"; "add_channels"; "remove_channels"].
Proof.
  unfold structural_errors. cbv zeta. intros H.
  apply validate_duplicated_values_lookup in H
    as [(-> & e & He & ->)|H].
  { exists e. split_and!; [|done|set_solver].
    destruct (_ !! "remove_channels") as [l'|] eqn:H'; [|done].
    lookup_checks H'. }
  apply validate_duplicated_values_lookup in H
    as [(-> & e & He & ->)|H].
  { exists e. split_and!; [|done|set_solver].
    destruct (_ !! "add_channels") as [l'|] eqn:H'; [|done].
    lookup_checks H'. }
  apply validate_duplicated_ids_lookup in H
    as [(-> & e & He & ->)|H]; [|by rewrite lookup_empty in H].
  exists e. split_and!; [|done|set_solver]. by rewrite lookup_empty.
Qed.

(** The fields under which the checks of the product mutation record a
    failure, each with the code of its failure. *)
Definition product_failures : list (string * ProductErrorCode) :=
  [ ("input", DUPLICATED_INPUT_ITEM);
    ("add_channels", DUPLICATED_INPUT_ITEM);
    ("remove_channels", DUPLICATED_INPUT_ITEM);
    ("is_published", PRODUCT_WITHOUT_CATEGORY) ].

(** X6. When the product mutation raises a validation failure, the
    database is as it was, and the failure is either the one that the
    resolution of the product identifier or of the add identifiers raised,
    passed on as it is, or a dictionary of the checks of the mutation: it is
    not empty and each of its fields holds exactly one failure, under one of
    four fields with the code of that field.  When it raises
    [MultipleObjectsReturned], the database is as it was and the table
    already broke the uniqueness of (product, channel).  When it returns, the
    product is the one that the identifier names. *)
Theorem product_error_response id input db :
  match perform_mutation from_global_id id input db with
  | (Return product, _) =>
      get_node_or_error from_global_id Product product_pk (products db) id
        "id" = Return product
  | (Raise (Raised_ValidationError errors), db') =>
      db' = db
      ∧ (get_node_or_error from_global_id Product product_pk (products db)
           id "id" = Raise (Raised_ValidationError errors)
         ∨ (structural_errors input = ∅
            ∧ get_nodes_or_error from_global_id db
                (channel_id <$>
                   default []
                     (ProductChannelListingUpdateInput.add_channels input))
                "channel_id" = Raise (Raised_ValidationError errors))
         ∨ one_failure_per_field product_failures errors)
  | (Raise MultipleObjectsReturned, db') =>
      db' = db
      ∧ ¬ unique_together pcl_key (product_channel_listings db)
  end.
Proof.
  rewrite perform_mutation_stages.
  destruct (get_node_or_error _ _ _ _ _ _) as [e|product] eqn:Hnode.
  { apply get_node_or_error_Raise in Hnode as ->. split; [done|by left]. }
  destruct (truthy (structural_errors input)) eqn:Hstruct.
  { split; [done|]. right. right. split.
    - intros Hempty. by rewrite Hempty, truthy_empty in Hstruct.
    - intros field l (e & -> & He & Hfield)%structural_errors_fields.
      exists e. split; [done|]. rewrite He.
      rewrite !elem_of_cons in Hfield.
      destruct Hfield as [->|[->|[->|?%elem_of_nil]]]; [..|done];
        repeat first [apply list_elem_of_here|apply list_elem_of_further]. }
  apply truthy_false in Hstruct.
  destruct (get_nodes_or_error _ _ _ _) as [e|channels_to_add] eqn:Hnodes.
  { apply get_nodes_or_error_Raise in Hnodes as (x & _ & _ & ->).
    split; [done|]. right. by left. }
  assert (match
            match save product (cleaned input channels_to_add) db with
            | (Raise e, db') => (Raise e, db')
            | (Return _, db') => (Return product, db')
            end
          with
          | (Return product', _) =>
              Return (A:=ProductModel) product = Return product'
          | (Raise (Raised_ValidationError errors), db') =>
              db' = db
              ∧ (Return (A:=ProductModel) product
                 = Raise (Raised_ValidationError errors)
                 ∨ (structural_errors input = ∅
                    ∧ Return (A:=list Channel) channels_to_add
                      = Raise (Raised_ValidationError errors))
                 ∨ one_failure_per_field product_failures errors)
          | (Raise MultipleObjectsReturned, db') =>
              db' = db
              ∧ ¬ unique_together pcl_key (product_channel_listings db)
          end) as Hsave.
  { pose proof (save_outcome product (cleaned input channels_to_add) db)
      as Hout.
    destruct (save _ _ db) as [[e|[]] db']; [|done].
    destruct Hout as (-> & -> & Hno). split; [done|].
    intros Huniq. by apply Hno, unique_together_upsertable. }
  destruct (category product) as [c|]; [exact Hsave|].
  destruct (published_channel_ids _) as [|id' ids]; [exact Hsave|].
  split; [done|]. right. right. apply one_failure_per_field_singleton.
  repeat first [apply list_elem_of_here|apply list_elem_of_further].
Qed.

(** *** [clean_channels] on a dictionary that already holds failures *)

Lemma extends_validate_duplicated_ids add_ids remove_ids errors :
  extends errors (validate_duplicated_ids add_ids remove_ids errors).
Proof.
  unfold validate_duplicated_ids. cbv zeta.
  case_bool_decide; [apply extends_append_error|apply extends_refl].
Qed.

Lemma extends_validate_duplicated_values ids field errors :
  extends errors (validate_duplicated_values ids field errors).
Proof.
  unfold validate_duplicated_values. cbv zeta.
  case_bool_decide; [apply extends_append_error|apply extends_refl].
Qed.

Lemma extends_validate_product_without_category cleaned_input errors :
  extends errors (validate_product_without_category cleaned_input errors).
Proof.
  unfold validate_product_without_category. cbv zeta.
  destruct (_ <$> filter _ _); [apply extends_refl|apply extends_append_error].
Qed.

(** X7. The checks of the product mutation only add to the dictionary of
    failures: what it held stays, under the same field and ahead of what is
    added.  Whenever [clean_channels] returns, the dictionary it hands back
    holds a failure unless the one it was handed was empty, and when it
    holds a failure the cleaned input is the empty one: no identifier was
    resolved. *)
Theorem product_checks_only_append db input cleaned_input errors :
  extends errors (validate_product_without_category cleaned_input errors)
  ∧ match clean_channels from_global_id db input errors with
    | Return (cleaned_input', errors') =>
        extends errors errors'
        ∧ (truthy errors' = true ∨ errors = ∅)
        ∧ (truthy errors' = true →
           cleaned_input' = {| cleaned_add_channels := None;
                               cleaned_remove_channels := None |})
    | Raise _ => True
    end.
Proof.
  split; [apply extends_validate_product_without_category|].
  unfold clean_channels. cbv zeta.
  set (add_ids := channel_id <$> _). set (remove_ids := default [] _).
  set (errors3 :=
         validate_duplicated_values remove_ids "remove_channels"
           (validate_duplicated_values add_ids "add_channels"
              (validate_duplicated_ids add_ids remove_ids errors))).
  assert (extends errors errors3) as Hext.
  { eapply extends_trans; [apply extends_validate_duplicated_ids|].
    eapply extends_trans; apply extends_validate_duplicated_values. }
  destruct (truthy errors3) eqn:Htruthy.
  { simpl. rewrite Htruthy. split_and!; [done|by left|done]. }
  pose proof Htruthy as Hempty%truthy_false.
  assert (errors = ∅) as -> by (apply extends_empty; by rewrite <- Hempty).
  destruct (if add_ids is [] then mret [] else _) as [e|channels_to_add];
    simpl; [done|].
  rewrite Htruthy. split_and!; [done|by right|done].
Qed.

End Mutation.
End ProductOutcome.

(** Product 2 is listed on the channels 1 and 2; the request lists it on
    channel 3, hides it on channel 1 and removes channel 2, together with
    an identifier that names nothing. *)
Definition scenario_relist : ProductChannelListingUpdateInput.t :=
  request [add_entry "Channel:3" true None; add_entry "Channel:1" false None]
    ["Channel:2"; "gone"].

Lemma product_mutation_keeps_unique_witness :
  unique_together ProductFacts.pcl_key
    (product_channel_listings
       (ProductChannelListingUpdate.perform_mutation typed_key "Product:2"
          scenario_relist shop).2).
Proof.
  apply (ProductOutcome.product_mutation_keeps_unique typed_key).
  apply (bool_decide_unpack _). by vm_compute.
Defined.

Lemma product_mutation_idempotent_witness :
  ∃ rows,
    ProductChannelListingUpdate.perform_mutation typed_key "Product:2"
      scenario_relist
      (ProductChannelListingUpdate.perform_mutation typed_key "Product:2"
         scenario_relist shop).2
    = (Return {| product_pk := 2; category := Some 7%Z |},
       set_product_channel_listings rows
         (ProductChannelListingUpdate.perform_mutation typed_key "Product:2"
            scenario_relist shop).2)
    ∧ rows
      ≡ₚ product_channel_listings
           (ProductChannelListingUpdate.perform_mutation typed_key
              "Product:2" scenario_relist shop).2.
Proof.
  apply (ProductOutcome.product_mutation_idempotent typed_key "Product:2"
           scenario_relist shop).
  - apply (bool_decide_unpack _). by vm_compute.
  - vm_compute. reflexivity.
Defined.

Lemma product_mutation_accepted_only_if_witness :
  let adds :=
    default [] (ProductChannelListingUpdateInput.add_channels scenario_relist)
  in
  let removes :=
    default []
      (ProductChannelListingUpdateInput.remove_channels scenario_relist) in
  get_node_or_error typed_key Product product_pk (products shop) "Product:2"
    "id" = Return {| product_pk := 2; category := Some 7%Z |}
  ∧ NoDup (ProductChannelListingAddInput.channel_id <$> adds)
  ∧ NoDup removes
  ∧ (∀ x, x ∈ ProductChannelListingAddInput.channel_id <$> adds →
          x ∉ removes)
  ∧ Forall (λ a, is_Some
                   (get_channel typed_key shop
                      (ProductChannelListingAddInput.channel_id a)))
      adds
  ∧ (category {| product_pk := 2; category := Some 7%Z |} = None →
     Forall (λ a, ProductChannelListingAddInput.is_published a = false) adds)
  ∧ Forall (λ a : ProductChannelListingAddInput.t,
              ∀ k, to_primary_key typed_key ChannelNode
                     (ProductChannelListingAddInput.channel_id a) = Some k →
                   length (ProductTable.rows_on
                             {| product_pk := 2; category := Some 7%Z |} k
                             (product_channel_listings shop)) ≤ 1)
      adds.
Proof.
  apply (ProductOutcome.product_mutation_accepted_only_if typed_key
           "Product:2" scenario_relist shop).
  vm_compute. reflexivity.
Defined.

(** A table that breaks the uniqueness of (product, channel): product 2 has
    two rows on channel 2. *)
Definition shop_with_double_listing : Database :=
  set_product_channel_listings
    (product_channel_listings shop
     ++ [ {| pcl_product := 2; pcl_channel := 2; pcl_is_published := false;
             pcl_publication_date := None |} ])
    shop.

(** The cleaned add-entries for the channels 3 and 2, in this order. *)
Definition cleaned_three_then_two
    : ProductChannelListingUpdate.cleaned_input_dict :=
  {| ProductChannelListingUpdate.cleaned_add_channels :=
       Some [ ProductChannelListingUpdate.Build_channel_listing
                (add_entry "Channel:3" true None)
                {| channel_pk := 3; currency_code := "PLN" |};
              ProductChannelListingUpdate.Build_channel_listing
                (add_entry "Channel:2" true None)
                {| channel_pk := 2; currency_code := "EUR" |} ];
     ProductChannelListingUpdate.cleaned_remove_channels := Some [] |}.

(** On that table the upsert of channel 3 goes through and the upsert of
    channel 2 fails: [add_channels] leaves the row of channel 3 behind,
    [save] does not. *)
Lemma product_save_all_or_nothing_witness :
  ProductChannelListingUpdate.save {| product_pk := 2; category := Some 7%Z |}
    cleaned_three_then_two shop_with_double_listing
  = (Raise MultipleObjectsReturned, shop_with_double_listing)
  ∧ (ProductChannelListingUpdate.add_channels
       {| product_pk := 2; category := Some 7%Z |}
       (default []
          (ProductChannelListingUpdate.cleaned_add_channels
             cleaned_three_then_two))
       shop_with_double_listing).2
    ≠ shop_with_double_listing.
Proof.
  split.
  - exact (ProductTable.product_save_all_or_nothing
             {| product_pk := 2; category := Some 7%Z |}
             cleaned_three_then_two shop_with_double_listing).
  - vm_compute. discriminate.
Defined.

(** ** Writes of the variant manager on any table *)

Module VariantTable.
Import ProductVariantChannelListingAddInput.
Import ProductVaraintChannelListingUpdate VariantFacts VariantWrites.

(** The rows of a variant on a channel. *)
Definition prices_on (variant : ProductVariantModel) (channel : Z)
    (rows : list ProductVariantChannelListing)
    : list ProductVariantChannelListing :=
  rows_with_key pvcl_key (variant_pk variant, channel) rows.

Lemma variant_objects_update_or_create_outcome variant channel defaults db :
  match objects_update_or_create variant channel defaults db with
  | (Return _, db') =>
      db' = set_variant_channel_listings (variant_channel_listings db') db
      ∧ length (prices_on variant (channel_pk channel)
                  (variant_channel_listings db)) ≤ 1
      ∧ length (prices_on variant (channel_pk channel)
                  (variant_channel_listings db')) = 1
      ∧ ∀ k, k ≠ (variant_pk variant, channel_pk channel) →
             length (rows_with_key pvcl_key k (variant_channel_listings db'))
             = length (rows_with_key pvcl_key k (variant_channel_listings db))
  | (Raise e, db') =>
      db' = db ∧ e = MultipleObjectsReturned
      ∧ 1 < length (prices_on variant (channel_pk channel)
                      (variant_channel_listings db))
  end.
Proof.
  unfold objects_update_or_create, prices_on.
  pose proof (update_or_create_outcome pvcl_key
                (λ r, pvcl_variant r = variant_pk variant
                      ∧ pvcl_channel r = channel_pk channel)
                (λ r, {| pvcl_variant := pvcl_variant r;
                         pvcl_channel := pvcl_channel r;
                         price_amount := defaults.1;
                         currency := defaults.2 |})
                {| pvcl_variant := variant_pk variant;
                   pvcl_channel := channel_pk channel;
                   price_amount := defaults.1;
                   currency := defaults.2 |}
                (variant_pk variant, channel_pk channel)) as Hout.
  specialize (Hout ltac:(intros r; unfold pvcl_key; split;
                           [by intros [-> ->]|by intros [= -> ->]])
                   eq_refl ltac:(by intros []) (variant_channel_listings db)).
  destruct (update_or_create _ _ _ _) as [e|rows]; [by destruct Hout|].
  by destruct Hout as (? & ? & ?).
Qed.

Lemma save_each_outcome variant cleaned_input db :
  match save_each variant cleaned_input db with
  | (Return _, db') =>
      db' = set_variant_channel_listings (variant_channel_listings db') db
      ∧ Forall
          (λ d : channel_listing_data,
             length (prices_on variant (channel_pk (channel d))
                       (variant_channel_listings db)) ≤ 1)
          cleaned_input
      ∧ ∀ k, length (rows_with_key pvcl_key k (variant_channel_listings db))
             ≤ length (rows_with_key pvcl_key k
                         (variant_channel_listings db'))
  | (Raise e, db') =>
      e = MultipleObjectsReturned
      ∧ Exists
          (λ d : channel_listing_data,
             1 < length (prices_on variant (channel_pk (channel d))
                           (variant_channel_listings db)))
          cleaned_input
  end.
Proof.
  revert db. induction cleaned_input as [|a rest IH]; intros db; simpl.
  - split_and!; [by rewrite set_variant_channel_listings_same|constructor|done].
  - unfold mbind, DB_bind.
    pose proof (variant_objects_update_or_create_outcome variant (channel a)
                  (price a, currency_code (channel a)) db) as Hhead.
    destruct (objects_update_or_create _ _ _ db) as [[e|[]] db1].
    { destruct Hhead as (_ & -> & ?). split; [done|]. by left. }
    destruct Hhead as (Hdb1 & Hle & Hone & Hother).
    specialize (IH db1).
    assert (∀ k, length (rows_with_key pvcl_key k
                           (variant_channel_listings db))
                 ≤ length (rows_with_key pvcl_key k
                             (variant_channel_listings db1))) as Hgrow.
    { intros k. unfold prices_on in *.
      destruct (decide (k = (variant_pk variant, channel_pk (channel a))))
        as [->|Hne]; [lia|]. by rewrite Hother. }
    assert (∀ d : channel_listing_data,
              length (prices_on variant (channel_pk (channel d))
                        (variant_channel_listings db1)) ≤ 1
              ↔ length (prices_on variant (channel_pk (channel d))
                          (variant_channel_listings db)) ≤ 1) as Hsame.
    { intros d. unfold prices_on in *.
      destruct (decide ((variant_pk variant, channel_pk (channel d))
                        = (variant_pk variant, channel_pk (channel a))))
        as [->|Hne]; [lia|]. by rewrite Hother. }
    destruct (save_each variant rest db1) as [[e|[]] db'].
    + destruct IH as [-> Hex]. split; [done|]. right.
      eapply Exists_impl; [exact Hex|]. intros d Hgt. simpl in Hgt.
      specialize (Hsame d). lia.
    + destruct IH as (Hdb' & Hall & Hgrow'). split_and!.
      * rewrite Hdb', Hdb1. done.
      * constructor; [done|]. eapply Forall_impl; [exact Hall|].
        intros d Hle'. by apply Hsame.
      * intros k. specialize (Hgrow k). specialize (Hgrow' k). lia.
Qed.

(** The rows that a predicate picks are left alone, and in place, by the
    upserts of channels outside the predicate, whether or not they all
    succeed. *)
Lemma save_each_frame (P : ProductVariantChannelListing → Prop)
    `{∀ r, Decision (P r)} variant cleaned_input db :
  (∀ r, P r → ¬ (pvcl_variant r = variant_pk variant
                 ∧ pvcl_channel r ∈ upserted_keys cleaned_input)) →
  filter P (variant_channel_listings (save_each variant cleaned_input db).2)
  = filter P (variant_channel_listings db).
Proof.
  revert db. induction cleaned_input as [|a rest IH]; intros db Hout; simpl.
  - done.
  - unfold mbind, DB_bind, objects_update_or_create.
    destruct (update_or_create _ _ _ _) as [e|rows1] eqn:Hupsert; simpl.
    { done. }
    specialize (IH (set_variant_channel_listings rows1 db)).
    destruct (save_each variant rest _) as [res db']. simpl in *.
    rewrite IH.
    + eapply (update_or_create_frame pvcl_key _ _ _
                (variant_pk variant, channel_pk (channel a)));
        [| | | |exact Hupsert].
      * intros r. unfold pvcl_key.
        split; [by intros [-> ->]|by intros [= -> ->]].
      * done.
      * by intros [].
      * intros r HP Hk. apply (Hout r HP). unfold pvcl_key in Hk.
        injection Hk as -> ->. split; [done|left].
    + intros r HP [Hp Hc]. apply (Hout r HP). split; [done|by right].
Qed.

(** Every entry names a key that holds at most one row. *)
Definition priceable (variant : ProductVariantModel)
    (cleaned_input : list channel_listing_data)
    (rows : list ProductVariantChannelListing) : Prop :=
  Forall (λ d : channel_listing_data,
            length (prices_on variant (channel_pk (channel d)) rows) ≤ 1)
         cleaned_input.

#[global] Instance priceable_dec variant cleaned_input rows :
  Decision (priceable variant cleaned_input rows).
Proof. unfold priceable. apply _. Defined.

Lemma unique_together_priceable variant cleaned_input rows :
  unique_together pvcl_key rows → priceable variant cleaned_input rows.
Proof.
  intros Huniq. apply Forall_forall. intros d _.
  by apply unique_together_matches.
Qed.

Lemma variant_save_outcome variant cleaned_input db :
  match save variant cleaned_input db with
  | (Return _, db') =>
      db' = set_variant_channel_listings (variant_channel_listings db') db
      ∧ priceable variant cleaned_input (variant_channel_listings db)
      ∧ ∀ k, length (rows_with_key pvcl_key k (variant_channel_listings db))
             ≤ length (rows_with_key pvcl_key k
                         (variant_channel_listings db'))
  | (Raise e, db') =>
      db' = db ∧ e = MultipleObjectsReturned
      ∧ ¬ priceable variant cleaned_input (variant_channel_listings db)
  end.
Proof.
  unfold save, transaction_atomic.
  pose proof (save_each_outcome variant cleaned_input db) as Heach.
  destruct (save_each _ _ db) as [[e|[]] db1]; [|done].
  destruct Heach as [-> Hex]. split_and!; [done..|].
  intros Hall. apply Exists_exists in Hex as (d & Hd & Hgt).
  unfold priceable in Hall. rewrite Forall_forall in Hall.
  specialize (Hall d Hd). simpl in Hall. lia.
Qed.

Lemma variant_save_frame (P : ProductVariantChannelListing → Prop)
    `{∀ r, Decision (P r)} variant cleaned_input db :
  (∀ r, P r → ¬ (pvcl_variant r = variant_pk variant
                 ∧ pvcl_channel r ∈ upserted_keys cleaned_input)) →
  filter P (variant_channel_listings (save variant cleaned_input db).2)
  = filter P (variant_channel_listings db).
Proof.
  intros Hout. unfold save, transaction_atomic.
  pose proof (save_each_frame P variant cleaned_input db Hout) as Heach.
  by destruct (save_each _ _ db) as [[e|[]] db1].
Qed.

(** X8. [save] of the variant mutation is all or nothing on any table: it
    goes through exactly when every entry names a (variant, channel) key
    that holds at most one row, and then only the table of variant listings
    changes; otherwise it fails with [MultipleObjectsReturned] and the
    database is as it was, also when upserts of earlier entries had gone
    through. *)
Theorem variant_save_all_or_nothing variant cleaned_input db :
  if decide (priceable variant cleaned_input (variant_channel_listings db))
  then ∃ rows,
         save variant cleaned_input db
         = (Return (), set_variant_channel_listings rows db)
  else save variant cleaned_input db = (Raise MultipleObjectsReturned, db).
Proof.
  pose proof (variant_save_outcome variant cleaned_input db) as Hsave.
  destruct (save variant cleaned_input db) as [[e|[]] db'].
  - destruct Hsave as (-> & -> & Hno). by rewrite decide_False.
  - destruct Hsave as (Hdb' & Hall & _). rewrite decide_True by done.
    eexists. by rewrite Hdb' at 1.
Qed.

End VariantTable.

(** ** What a request to the variant manager comes to *)

Module VariantOutcome.
Import ProductVariantChannelListingAddInput.
Import ProductVaraintChannelListingUpdate VariantFacts VariantWrites.
Import VariantTable.

Lemma fmap_filter_nil {A B} (f : A → B) (P : A → Prop)
    `{∀ x, Decision (P x)} (l : list A) :
  f <$> filter P l = [] ↔ Forall (λ x, ¬ P x) l.
Proof.
  rewrite Forall_forall. split.
  - intros Hnil%fmap_nil_inv x Hx HP.
    by destruct (filter_nil_not_elem_of _ _ x Hnil HP).
  - intros Hall. destruct (filter P l) as [|x l'] eqn:Hf; [done|].
    assert (x ∈ filter P l) as [HP Hx]%list_elem_of_filter
      by (rewrite Hf; left).
    by destruct (Hall x Hx).
Qed.

Lemma unassigned_ids_nil db variant cleaned_input :
  unassigned_ids db variant cleaned_input = []
  ↔ Forall (λ d : channel_listing_data,
              channel_pk (channel d) ∈ assigned_channels db variant)
           cleaned_input.
Proof.
  unfold unassigned_ids. rewrite fmap_filter_nil.
  apply Forall_proper; [|done]. intros d. split; [apply dec_stable|auto].
Qed.

Lemma negative_price_ids_nil cleaned_input :
  negative_price_ids cleaned_input = []
  ↔ Forall (λ d : channel_listing_data,
              price_lower_than_0 (price d) = false)
           cleaned_input.
Proof.
  unfold negative_price_ids. rewrite fmap_filter_nil.
  apply Forall_proper; [|done]. intros d. apply not_true_iff_false.
Qed.

Lemma price_lower_than_0_false price :
  price_lower_than_0 price = false
  ↔ ∀ amount, price = Some amount → (0 <= Decimal_value amount)%Q.
Proof.
  destruct price as [d|]; simpl; [|by split].
  rewrite <- not_true_iff_false, Decimal_lt_0_value. split.
  - intros Hnot amount [= <-]. by apply Qnot_lt_le.
  - intros Hle Hlt. by apply (Qlt_not_le _ _ Hlt), Hle.
Qed.

(** The failures of the validate stage on a fresh dictionary. *)
Definition validation_errors (db : Database) (variant : ProductVariantModel)
    (cleaned_input : list channel_listing_data) : ErrorType :=
  with_price_error (negative_price_ids cleaned_input)
    (with_assignment_error (unassigned_ids db variant cleaned_input) ∅).

Lemma validation_errors_empty db variant cleaned_input :
  truthy (validation_errors db variant cleaned_input) = false
  ↔ unassigned_ids db variant cleaned_input = []
    ∧ negative_price_ids cleaned_input = [].
Proof.
  unfold validation_errors, with_price_error, with_assignment_error.
  destruct (negative_price_ids _) as [|x l];
    [|rewrite truthy_append_error; split; [done|by intros [_ ?]]].
  destruct (unassigned_ids _ _ _) as [|y l'];
    [|rewrite truthy_append_error; split; [done|by intros [? _]]].
  by rewrite truthy_empty.
Qed.

(** The fields under which the checks of the variant mutation record a
    failure, each with the code of its failure. *)
Definition variant_failures : list (string * ProductErrorCode) :=
  [ ("channelId", DUPLICATED_INPUT_ITEM);
    ("input", PRODUCT_NOT_ASSIGNED_TO_CHANNEL);
    ("price", INVALID) ].

Lemma validation_errors_fields db variant cleaned_input field l :
  validation_errors db variant cleaned_input !! field = Some l →
  ∃ e, l = [e] ∧ (field, code e) ∈ variant_failures.
Proof.
  unfold validation_errors, with_price_error, with_assignment_error.
  destruct (negative_price_ids _) as [|x neg],
           (unassigned_ids _ _ _) as [|y un];
    rewrite ?lookup_append_error, ?lookup_empty.
  - done.
  - intros [[-> ->]|[_ ?]]; [|done]. eexists. split; [done|].
    repeat first [apply list_elem_of_here|apply list_elem_of_further].
  - intros [[-> ->]|[_ ?]]; [|done]. eexists. split; [done|].
    repeat first [apply list_elem_of_here|apply list_elem_of_further].
  - intros [[-> ->]|[_ [[-> ->]|[_ ?]]]]; [| |done].
    + unfold append_error. rewrite lookup_insert_ne by done.
      rewrite lookup_empty. eexists. split; [done|].
      repeat first [apply list_elem_of_here|apply list_elem_of_further].
    + eexists. split; [done|].
      repeat first [apply list_elem_of_here|apply list_elem_of_further].
Qed.

Section Mutation.
Variable from_global_id : GlobalId → option (NodeType * Z).

Lemma variant_get_node_or_error_Return {Node} only_type (pk_of : Node → Z)
    table id field node :
  get_node_or_error from_global_id only_type pk_of table id field
  = Return node →
  to_primary_key from_global_id only_type id = Some (pk_of node)
  ∧ node ∈ table.
Proof.
  unfold get_node_or_error.
  destruct (to_primary_key _ _ _) as [pk|]; simpl; [|done].
  destruct (head _) as [node'|] eqn:Hhead; [|done]. intros [= ->].
  apply head_Some_elem_of, list_elem_of_filter in Hhead as [-> ?]. done.
Qed.

(** The channel keys that the identifiers of a request resolve to. *)
Definition resolved_channels
    (input : list ProductVariantChannelListingAddInput.t) : list Z :=
  omap (to_primary_key from_global_id ChannelNode) (channel_id <$> input).

Lemma variant_upserted_keys_resolved db
    (input : list ProductVariantChannelListingAddInput.t) channels :
  Forall2 (λ (a : ProductVariantChannelListingAddInput.t) c,
             get_channel from_global_id db (channel_id a) = Some c)
    input channels →
  upserted_keys (zip_with Build_channel_listing_data input channels)
  = resolved_channels input.
Proof.
  unfold upserted_keys, resolved_channels.
  induction 1 as [|a c input cs Hc _ IH]; [done|].
  apply get_channel_pk in Hc as [Hpk _]. simpl. rewrite Hpk. simpl.
  f_equal. exact IH.
Qed.

(** A property of the cleaned entries, read on the entries of the
    request. *)
Lemma Forall_cleaned db (Q : channel_listing_data → Prop)
    (Q' : ProductVariantChannelListingAddInput.t → Prop)
    (input : list ProductVariantChannelListingAddInput.t) channels :
  Forall2 (λ (a : ProductVariantChannelListingAddInput.t) c,
             get_channel from_global_id db (channel_id a) = Some c)
    input channels →
  (∀ a c, get_channel from_global_id db (channel_id a) = Some c →
          Q (Build_channel_listing_data a c) ↔ Q' a) →
  Forall Q (zip_with Build_channel_listing_data input channels)
  ↔ Forall Q' input.
Proof.
  intros Hnodes HQ.
  induction Hnodes as [|a c input cs Hc _ IH]; simpl;
    [by split; constructor|].
  by rewrite !Forall_cons, IH, (HQ a c Hc).
Qed.

Lemma get_nodes_or_error_prices rows db ids field :
  get_nodes_or_error from_global_id (set_variant_channel_listings rows db)
    ids field
  = get_nodes_or_error from_global_id db ids field.
Proof. induction ids as [|id ids IH]; [done|]. simpl. by rewrite IH. Qed.

(** [perform_mutation] by the stage that settles the request. *)
Lemma variant_perform_mutation_stages id input db :
  perform_mutation from_global_id id input db
  = match get_node_or_error from_global_id ProductVariant variant_pk
            (variants db) id "id" with
    | Raise _ =>
        (Raise (Raised_ValidationError {[ "id" := [not_found id] ]}), db)
    | Return variant =>
        if decide (NoDup (channel_id <$> input)) then
          match
            get_nodes_or_error from_global_id db (channel_id <$> input)
              "channel_id"
          with
          | Raise e => (Raise e, db)
          | Return channels =>
              let cleaned_input :=
                zip_with Build_channel_listing_data input channels in
              if truthy (validation_errors db variant cleaned_input) then
                (Raise
                   (Raised_ValidationError
                      (validation_errors db variant cleaned_input)),
                 db)
              else
                match save variant cleaned_input db with
                | (Raise e, db') => (Raise e, db')
                | (Return _, db') => (Return variant, db')
                end
          end
        else
          (Raise
             (Raised_ValidationError
                {[ "channelId" :=
                     [duplicated_channel_ids (channel_id <$> input)] ]}),
           db)
    end.
Proof.
  rewrite variant_perform_mutation_unfold.
  destruct (get_node_or_error _ _ _ _ _ _) as [e|variant] eqn:Hnode.
  { by apply ProductFacts.get_node_or_error_Raise in Hnode as ->. }
  destruct (decide (NoDup (channel_id <$> input))) as [Hnodup|Hdup].
  - rewrite variant_clean_channels_resolve by done.
    by destruct (get_nodes_or_error _ _ _ _) as [e|channels].
  - rewrite clean_channels_duplicates by done. cbv zeta.
    unfold unassigned_ids, negative_price_ids. simpl.
    unfold truthy. rewrite bool_decide_true; [done|]. apply insert_non_empty.
Qed.

(** The rows that a request can touch: those of the variant that [id]
    names, on a channel that an identifier of the request resolves to. *)
Definition priced (id : GlobalId)
    (input : list ProductVariantChannelListingAddInput.t)
    (r : ProductVariantChannelListing) : Prop :=
  to_primary_key from_global_id ProductVariant id = Some (pvcl_variant r)
  ∧ pvcl_channel r ∈ resolved_channels input.

#[global] Instance priced_dec id input r : Decision (priced id input r).
Proof. unfold priced. apply _. Defined.

(** X9. Whatever the request and its outcome, the variant mutation leaves
    the channels, the products, the variants and the product listings as
    they were; every variant listing other than those of the named variant
    on a channel that an identifier of the request resolves to stays as it
    was, in its place; and no row is removed: every (variant, channel) key
    holds at least as many rows as before. *)
Theorem variant_mutation_frame id input db :
  let db' := (perform_mutation from_global_id id input db).2 in
  channels db' = channels db
  ∧ products db' = products db
  ∧ variants db' = variants db
  ∧ product_channel_listings db' = product_channel_listings db
  ∧ filter (λ r, ¬ priced id input r) (variant_channel_listings db')
    = filter (λ r, ¬ priced id input r) (variant_channel_listings db)
  ∧ ∀ k, length (rows_with_key pvcl_key k (variant_channel_listings db))
         ≤ length (rows_with_key pvcl_key k (variant_channel_listings db')).
Proof.
  cbv zeta. rewrite variant_perform_mutation_stages.
  destruct (get_node_or_error _ _ _ _ _ _) as [e|variant] eqn:Hnode; [done|].
  destruct (decide _); [|done].
  destruct (get_nodes_or_error _ _ _ _) as [e|channels] eqn:Hnodes; [done|].
  cbv zeta. destruct (truthy _); [done|].
  apply variant_get_node_or_error_Return in Hnode as [Hpk _].
  apply get_nodes_or_error_Return, Forall2_fmap_l in Hnodes.
  pose proof (variant_save_outcome variant
                (zip_with Build_channel_listing_data input channels) db)
    as Hout.
  pose proof (variant_save_frame (λ r, ¬ priced id input r) variant
                (zip_with Build_channel_listing_data input channels) db)
    as Hframe.
  destruct (save _ _ db) as [[e|[]] db']; simpl in *.
  { by destruct Hout as (-> & _). }
  destruct Hout as (Hdb' & _ & Hgrow).
  split_and!; [by rewrite Hdb'..| |done].
  apply Hframe. intros r Hr [Hp Hc]. apply Hr. split; [congruence|].
  by erewrite variant_upserted_keys_resolved in Hc.
Qed.

(** X10. The variant mutation returns the variant exactly when: the
    identifier names it; no channel identifier is repeated; every channel
    identifier resolves to a channel; the parent product is listed on each
    of these channels; every price that is given is at least zero; and the
    table holds at most one row of the variant for each of these
    channels. *)
Theorem variant_mutation_accepted_iff id input db variant :
  (perform_mutation from_global_id id input db).1 = Return variant
  ↔ get_node_or_error from_global_id ProductVariant variant_pk (variants db)
      id "id" = Return variant
    ∧ NoDup (channel_id <$> input)
    ∧ Forall (λ a, is_Some (get_channel from_global_id db (channel_id a)))
        input
    ∧ Forall (λ a : ProductVariantChannelListingAddInput.t,
                ∀ k, to_primary_key from_global_id ChannelNode
                       (channel_id a) = Some k →
                     k ∈ assigned_channels db variant)
        input
    ∧ Forall (λ a, ∀ amount, price a = Some amount →
                               (0 <= Decimal_value amount)%Q)
        input
    ∧ Forall (λ a : ProductVariantChannelListingAddInput.t,
                ∀ k, to_primary_key from_global_id ChannelNode
                       (channel_id a) = Some k →
                     length (prices_on variant k
                               (variant_channel_listings db)) ≤ 1)
        input.
Proof.
  rewrite variant_perform_mutation_stages.
  destruct (get_node_or_error _ _ _ _ _ _) as [e|variant'] eqn:Hnode.
  { split; [done|]. by intros [? _]. }
  destruct (decide (NoDup (channel_id <$> input))) as [Hnodup|Hdup];
    [|split; [done|by intros (_ & ? & _)]].
  destruct (get_nodes_or_error _ _ _ _) as [e|channels] eqn:Hnodes.
  { split; [done|]. intros (_ & _ & Hall & _).
    apply get_nodes_or_error_Raise in Hnodes as (x & Hx & Hnone & _).
    apply list_elem_of_fmap in Hx as (a & -> & Hin).
    rewrite Forall_forall in Hall. destruct (Hall a Hin) as [? ?]. congruence. }
  apply get_nodes_or_error_Return, Forall2_fmap_l in Hnodes.
  assert (Forall (λ a, is_Some (get_channel from_global_id db (channel_id a)))
            input) as Hall.
  { eapply Forall2_Forall_l; [exact Hnodes|]. apply Forall_true.
    intros c a Hc. simpl in Hc. by rewrite Hc. }
  cbv zeta. set (cleaned_input := zip_with _ input channels).
  assert (Forall (λ d : channel_listing_data,
                    channel_pk (channel d) ∈ assigned_channels db variant')
            cleaned_input
          ↔ Forall (λ a : ProductVariantChannelListingAddInput.t,
                      ∀ k, to_primary_key from_global_id ChannelNode
                             (channel_id a) = Some k →
                           k ∈ assigned_channels db variant')
              input) as Hassigned.
  { apply (Forall_cleaned db); [done|]. intros a c [Hpk _]%get_channel_pk.
    simpl. split; [intros ? k Hk; by simplify_eq|intros Hk; by apply Hk]. }
  assert (Forall (λ d : channel_listing_data,
                    price_lower_than_0 (price d) = false)
            cleaned_input
          ↔ Forall (λ a, ∀ amount, price a = Some amount →
                                     (0 <= Decimal_value amount)%Q)
              input)
    as Hprices.
  { apply (Forall_cleaned db); [done|]. intros a c _. simpl.
    apply price_lower_than_0_false. }
  assert (priceable variant' cleaned_input (variant_channel_listings db)
          ↔ Forall (λ a : ProductVariantChannelListingAddInput.t,
                      ∀ k, to_primary_key from_global_id ChannelNode
                             (channel_id a) = Some k →
                           length (prices_on variant' k
                                     (variant_channel_listings db)) ≤ 1)
              input) as Hpriceable.
  { apply (Forall_cleaned db); [done|]. intros a c [Hpk _]%get_channel_pk.
    simpl. split; [intros ? k Hk; by simplify_eq|intros Hk; by apply Hk]. }
  destruct (truthy (validation_errors db variant' cleaned_input)) eqn:Hvalid.
  { split; [done|]. intros ([= ->] & _ & _ & Has & Hpr & _). exfalso.
    assert (truthy (validation_errors db variant cleaned_input) = false)
      as Hfalse; [|congruence].
    apply validation_errors_empty.
    rewrite unassigned_ids_nil, negative_price_ids_nil.
    split; [by apply Hassigned|by apply Hprices]. }
  apply validation_errors_empty in Hvalid as [Hun Hneg].
  apply unassigned_ids_nil, Hassigned in Hun.
  apply negative_price_ids_nil, Hprices in Hneg.
  pose proof (variant_save_outcome variant' cleaned_input db) as Hsave.
  destruct (save _ _ db) as [[e|[]] db']; simpl.
  - split; [done|]. intros ([= ->] & _ & _ & _ & _ & Hp).
    destruct Hsave as (_ & _ & Hno). destruct Hno. by apply Hpriceable.
  - destruct Hsave as (_ & Hp & _). split.
    + intros [= ->]. split_and!; [done..|]. by apply Hpriceable.
    + by intros ([= ->] & _).
Qed.

(** X11. When the variant mutation raises a validation failure, the
    database is as it was, and the failure is either the one that the
    resolution of the variant identifier or of the channel identifiers
    raised, passed on as it is, or a dictionary of the checks of the
    mutation: it is not empty and each of its fields holds exactly one
    failure, under one of three fields with the code of that field.  When it
    raises [MultipleObjectsReturned], the database is as it was and the
    table already broke the uniqueness of (variant, channel).  When it
    returns, the variant is the one that the identifier names. *)
Theorem variant_error_response id input db :
  match perform_mutation from_global_id id input db with
  | (Return variant, _) =>
      get_node_or_error from_global_id ProductVariant variant_pk
        (variants db) id "id" = Return variant
  | (Raise (Raised_ValidationError errors), db') =>
      db' = db
      ∧ (get_node_or_error from_global_id ProductVariant variant_pk
           (variants db) id "id" = Raise (Raised_ValidationError errors)
         ∨ (NoDup (channel_id <$> input)
            ∧ get_nodes_or_error from_global_id db (channel_id <$> input)
                "channel_id" = Raise (Raised_ValidationError errors))
         ∨ one_failure_per_field variant_failures errors)
  | (Raise MultipleObjectsReturned, db') =>
      db' = db
      ∧ ¬ unique_together pvcl_key (variant_channel_listings db)
  end.
Proof.
  rewrite variant_perform_mutation_stages.
  destruct (get_node_or_error _ _ _ _ _ _) as [e|variant] eqn:Hnode.
  { apply ProductFacts.get_node_or_error_Raise in Hnode as ->.
    split; [done|by left]. }
  destruct (decide _) as [Hnodup|Hdup]; cycle 1.
  { split; [done|]. right. right. apply one_failure_per_field_singleton.
    repeat first [apply list_elem_of_here|apply list_elem_of_further]. }
  destruct (get_nodes_or_error _ _ _ _) as [e|channels] eqn:Hnodes.
  { apply get_nodes_or_error_Raise in Hnodes as (x & _ & _ & ->).
    split; [done|]. right. by left. }
  cbv zeta. destruct (truthy _) eqn:Hvalid.
  { split; [done|]. right. right. split.
    - intros Hempty. by rewrite Hempty, truthy_empty in Hvalid.
    - apply validation_errors_fields. }
  pose proof (variant_save_outcome variant
                (zip_with Build_channel_listing_data input channels) db)
    as Hout.
  destruct (save _ _ db) as [[e|[]] db']; [|done].
  destruct Hout as (-> & -> & Hno). split; [done|].
  intros Huniq. by apply Hno, unique_together_priceable.
Qed.

(** X12. The variant mutation keeps the uniqueness of (variant, channel) in
    the table of variant listings, whatever the request and its outcome. *)
Theorem variant_mutation_keeps_unique id input db :
  unique_together pvcl_key (variant_channel_listings db) →
  unique_together pvcl_key
    (variant_channel_listings
       (perform_mutation from_global_id id input db).2).
Proof.
  intros Huniq. rewrite variant_perform_mutation_stages.
  destruct (get_node_or_error _ _ _ _ _ _) as [e|variant]; [done|].
  destruct (decide _); [|done].
  destruct (get_nodes_or_error _ _ _ _) as [e|channels]; [done|].
  cbv zeta. destruct (truthy _); [done|].
  destruct (variant_save_spec variant
              (zip_with Build_channel_listing_data input channels) db Huniq)
    as (rows & Hsave & _ & Huniq' & _).
  by rewrite Hsave.
Qed.

Lemma variant_mutation_saves id input db variant channels :
  get_node_or_error from_global_id ProductVariant variant_pk (variants db)
    id "id" = Return variant →
  NoDup (channel_id <$> input) →
  get_nodes_or_error from_global_id db (channel_id <$> input) "channel_id"
  = Return channels →
  truthy (validation_errors db variant
            (zip_with Build_channel_listing_data input channels)) = false →
  perform_mutation from_global_id id input db
  = match
      save variant (zip_with Build_channel_listing_data input channels) db
    with
    | (Raise e, db') => (Raise e, db')
    | (Return _, db') => (Return variant, db')
    end.
Proof.
  intros Hnode Hnodup Hnodes Hvalid.
  rewrite variant_perform_mutation_stages, Hnode, decide_True by done.
  rewrite Hnodes. cbv zeta. by rewrite Hvalid.
Qed.

Lemma variant_mutation_Return_inv id input db variant :
  (perform_mutation from_global_id id input db).1 = Return variant →
  ∃ channels,
    get_node_or_error from_global_id ProductVariant variant_pk (variants db)
      id "id" = Return variant
    ∧ NoDup (channel_id <$> input)
    ∧ get_nodes_or_error from_global_id db (channel_id <$> input)
        "channel_id" = Return channels
    ∧ truthy (validation_errors db variant
                (zip_with Build_channel_listing_data input channels))
      = false.
Proof.
  rewrite variant_perform_mutation_stages.
  destruct (get_node_or_error _ _ _ _ _ _) as [e|variant']; [done|].
  destruct (decide _); [|done].
  destruct (get_nodes_or_error _ _ _ _) as [e|channels]; [done|].
  cbv zeta. destruct (truthy _) eqn:Hvalid; [done|].
  intros Hret. exists channels.
  assert (variant' = variant) as ->
    by (destruct (save _ _ db) as [[e|[]] db']; by simplify_eq/=).
  done.
Qed.

(** X13. A request that the variant mutation accepted is accepted again on
    the database it left, and leaves the same variant listings: the
    mutation is idempotent. *)
Theorem variant_mutation_idempotent id input db variant :
  unique_together pvcl_key (variant_channel_listings db) →
  (perform_mutation from_global_id id input db).1 = Return variant →
  let db' := (perform_mutation from_global_id id input db).2 in
  ∃ rows,
    perform_mutation from_global_id id input db'
    = (Return variant, set_variant_channel_listings rows db')
    ∧ rows ≡ₚ variant_channel_listings db'.
Proof.
  intros Huniq
    (cs & Hnode & Hnodup & Hnodes & Hvalid)%variant_mutation_Return_inv.
  cbv zeta.
  destruct (variant_save_spec variant
              (zip_with Build_channel_listing_data input cs) db Huniq)
    as (rows1 & Hsave1 & _ & Huniq1 & Hmem1).
  destruct (variant_save_spec variant
              (zip_with Build_channel_listing_data input cs)
              (set_variant_channel_listings rows1 db) Huniq1)
    as (rows2 & Hsave2 & _ & Huniq2 & Hmem2).
  rewrite (variant_mutation_saves id input db variant cs) by done.
  rewrite Hsave1. simpl.
  rewrite (variant_mutation_saves id input _ variant cs);
    [|done|done|by rewrite get_nodes_or_error_prices|done].
  rewrite Hsave2. exists rows2. split; [done|].
  apply NoDup_Permutation.
  - by apply NoDup_fmap_1 in Huniq2.
  - by apply NoDup_fmap_1 in Huniq1.
  - intros r. rewrite Hmem2. simpl. rewrite !Hmem1. tauto.
Qed.

(** *** The checks on a dictionary that already holds failures *)

Lemma extends_with_assignment_error unassigned errors :
  extends errors (with_assignment_error unassigned errors).
Proof.
  unfold with_assignment_error.
  destruct unassigned; [apply extends_refl|apply extends_append_error].
Qed.

Lemma extends_with_price_error negative errors :
  extends errors (with_price_error negative errors).
Proof.
  unfold with_price_error.
  destruct negative; [apply extends_refl|apply extends_append_error].
Qed.

(** X14. The checks of the variant mutation only add to the dictionary of
    failures: what it held stays, under the same field and ahead of what is
    added.  [clean_prices] hands the cleaned entries back as they are;
    [clean_channels] returns no cleaned entry when an identifier is
    repeated, whatever the dictionary holds, and otherwise leaves the
    dictionary as it is. *)
Theorem variant_checks_only_append db variant input cleaned_input errors :
  extends errors
    (validate_product_assigned_to_channel db variant cleaned_input errors)
  ∧ (clean_prices cleaned_input errors).1 = cleaned_input
  ∧ extends errors (clean_prices cleaned_input errors).2
  ∧ match clean_channels from_global_id db input errors with
    | Return (cleaned_input', errors') =>
        extends errors errors'
        ∧ if decide (NoDup (channel_id <$> input))
          then errors' = errors
               ∧ Forall2
                   (λ (a : ProductVariantChannelListingAddInput.t) d,
                      data d = a
                      ∧ get_channel from_global_id db (channel_id a)
                        = Some (channel d))
                   input cleaned_input'
          else cleaned_input' = [] ∧ errors' ≠ ∅
    | Raise e =>
        NoDup (channel_id <$> input)
        ∧ ∃ x, x ∈ channel_id <$> input
               ∧ get_channel from_global_id db x = None
               ∧ e = Raised_ValidationError
                       {[ "channel_id" := [not_found x] ]}
    end.
Proof.
  split_and!.
  - rewrite validate_product_assigned_to_channel_eq.
    apply extends_with_assignment_error.
  - done.
  - rewrite clean_prices_eq. apply extends_with_price_error.
  - unfold clean_channels. cbv zeta.
    destruct (decide (NoDup (channel_id <$> input))) as [Hnodup|Hdup].
    + rewrite bool_decide_false
        by (by rewrite get_duplicated_values_empty; intros []).
      assert ((if channel_id <$> input is [] then mret []
               else get_nodes_or_error from_global_id db
                      (channel_id <$> input) "channel_id")
              = get_nodes_or_error from_global_id db (channel_id <$> input)
                  "channel_id") as -> by (by destruct input).
      destruct (get_nodes_or_error _ _ _ _) as [e|channels] eqn:Hnodes;
        simpl.
      * split; [done|]. by apply get_nodes_or_error_Raise in Hnodes.
      * split; [apply extends_refl|]. split; [done|].
        apply get_nodes_or_error_Return, Forall2_fmap_l in Hnodes.
        clear Hnodup. induction Hnodes as [|a c input cs Hc _ IH]; simpl;
          constructor; done.
    + rewrite bool_decide_true by (by rewrite get_duplicated_values_empty).
      simpl. split; [apply extends_append_error|]. split; [done|].
      apply insert_non_empty.
Qed.

End Mutation.
End VariantOutcome.

(** Variant 1 belongs to product 2, which is listed on the channels 1 and
    2; the request prices it on both, on channel 2 without a price. *)
Definition scenario_reprice : list ProductVariantChannelListingAddInput.t :=
  [price_entry "Channel:2" None;
   price_entry "Channel:1" (Some {| coefficient := 1999; exponent := -2 |})].

Lemma variant_mutation_keeps_unique_witness :
  unique_together VariantFacts.pvcl_key
    (variant_channel_listings
       (ProductVaraintChannelListingUpdate.perform_mutation typed_key
          "ProductVariant:1" scenario_reprice shop).2).
Proof.
  apply (VariantOutcome.variant_mutation_keeps_unique typed_key).
  apply (bool_decide_unpack _). by vm_compute.
Defined.

Lemma variant_mutation_idempotent_witness :
  ∃ rows,
    ProductVaraintChannelListingUpdate.perform_mutation typed_key
      "ProductVariant:1" scenario_reprice
      (ProductVaraintChannelListingUpdate.perform_mutation typed_key
         "ProductVariant:1" scenario_reprice shop).2
    = (Return {| variant_pk := 1; product_id := 2 |},
       set_variant_channel_listings rows
         (ProductVaraintChannelListingUpdate.perform_mutation typed_key
            "ProductVariant:1" scenario_reprice shop).2)
    ∧ rows
      ≡ₚ variant_channel_listings
           (ProductVaraintChannelListingUpdate.perform_mutation typed_key
              "ProductVariant:1" scenario_reprice shop).2.
Proof.
  apply (VariantOutcome.variant_mutation_idempotent typed_key
           "ProductVariant:1" scenario_reprice shop).
  - apply (bool_decide_unpack _). by vm_compute.
  - vm_compute. reflexivity.
Defined.

(** A table that breaks the uniqueness of (variant, channel): variant 1 has
    two rows on channel 2. *)
Definition shop_with_double_price : Database :=
  set_variant_channel_listings
    [ {| pvcl_variant := 1; pvcl_channel := 2; price_amount := None;
         currency := "EUR" |};
      {| pvcl_variant := 1; pvcl_channel := 2;
         price_amount := Some {| coefficient := 5; exponent := 0 |};
         currency := "EUR" |} ]
    shop.

(** The cleaned entries for the channels 1 and 2, in this order. *)
Definition cleaned_one_then_two
    : list ProductVaraintChannelListingUpdate.channel_listing_data :=
  [ ProductVaraintChannelListingUpdate.Build_channel_listing_data
      (price_entry "Channel:1" None)
      {| channel_pk := 1; currency_code := "USD" |};
    ProductVaraintChannelListingUpdate.Build_channel_listing_data
      (price_entry "Channel:2" None)
      {| channel_pk := 2; currency_code := "EUR" |} ].

(** On that table the upsert of channel 1 goes through and the upsert of
    channel 2 fails: the loop leaves the row of channel 1 behind, [save]
    does not. *)
Lemma variant_save_all_or_nothing_witness :
  ProductVaraintChannelListingUpdate.save
    {| variant_pk := 1; product_id := 2 |} cleaned_one_then_two
    shop_with_double_price
  = (Raise MultipleObjectsReturned, shop_with_double_price)
  ∧ (ProductVaraintChannelListingUpdate.save_each
       {| variant_pk := 1; product_id := 2 |} cleaned_one_then_two
       shop_with_double_price).2
    ≠ shop_with_double_price.
Proof.
  split.
  - exact (VariantTable.variant_save_all_or_nothing
             {| variant_pk := 1; product_id := 2 |} cleaned_one_then_two
             shop_with_double_price).
  - vm_compute. discriminate.
Defined.

(** ** The product mutation and the assignment check of the variant
    mutation *)

Module ListingAndPricing.
Import ProductChannelListingAddInput ProductChannelListingUpdateInput.
Import ProductChannelListingUpdate ProductFacts ProductOutcome.

Lemma last_for_channel_exists (add_channels_ : list channel_listing) k :
  k ∈ upserted_keys add_channels_ →
  ∃ add_channel,
    last_for_channel add_channels_ add_channel
    ∧ channel_pk (channel add_channel) = k.
Proof.
  induction add_channels_ as [|a rest IH]; [by intros ?%elem_of_nil|].
  intros Hin. destruct (decide (k ∈ upserted_keys rest)) as [Hrest|Hrest].
  - destruct (IH Hrest) as (a' & (l1 & l2 & -> & Hlast) & Hk).
    exists a'. split; [|done]. by exists (a :: l1), l2.
  - unfold upserted_keys in Hin. rewrite fmap_cons, elem_of_cons in Hin.
    destruct Hin as [->|Hin]; [|done].
    exists a. split; [|done]. by exists [], rest.
Qed.

Section Mutation.
Variable from_global_id : GlobalId → option (NodeType * Z).

(** X15. After the product mutation has returned, the channels on which
    the assignment check of the variant mutation lets a variant of the
    product be priced are those on which it could be priced before,
    together with those that an add identifier resolves to, except those
    that a remove identifier resolves to: a channel that is both added and
    removed, under two identifiers, is closed. *)
Theorem channels_open_to_pricing id input db product variant k :
  unique_together pcl_key (product_channel_listings db) →
  (perform_mutation from_global_id id input db).1 = Return product →
  product_id variant = product_pk product →
  k ∈ VariantFacts.assigned_channels
        (perform_mutation from_global_id id input db).2 variant
  ↔ (k ∈ VariantFacts.assigned_channels db variant
     ∨ k ∈ resolved_keys from_global_id
             (channel_id <$>
                default []
                  (ProductChannelListingUpdateInput.add_channels input)))
    ∧ k ∉ resolved_keys from_global_id
            (default []
               (ProductChannelListingUpdateInput.remove_channels input)).
Proof.
  intros Huniq
    (cs & Hnode & Hstruct & Hnodes & Hpub)%product_mutation_Return_inv
    Hparent.
  rewrite (product_mutation_saves from_global_id id input db product cs)
    by done.
  destruct (save_spec product (cleaned from_global_id input cs) db Huniq)
    as (rows & -> & _ & Hmem).
  apply get_nodes_or_error_Return, Forall2_fmap_l in Hnodes.
  simpl in Hmem.
  rewrite (upserted_keys_resolved from_global_id db) in Hmem by done.
  unfold VariantFacts.assigned_channels. simpl. rewrite Hparent.
  fold (resolved_keys from_global_id
          (default []
             (ProductChannelListingUpdateInput.remove_channels input)))
    in Hmem.
  rewrite !list_elem_of_fmap. split.
  - intros (r & -> & [Hp Hr]%list_elem_of_filter).
    apply Hmem in Hr as [[[Hr Hno]|(a & Hlast & ->)] Hkept].
    + split; [|tauto]. left. exists r. split; [done|].
      by apply list_elem_of_filter.
    + split; [|tauto]. right. simpl.
      rewrite <- (upserted_keys_resolved from_global_id db _ cs) by done.
      destruct Hlast as (l1 & l2 & Hl & _). rewrite Hl.
      unfold upserted_keys. rewrite fmap_app, fmap_cons.
      apply elem_of_app. right. left.
  - intros [Hopen Hkept].
    destruct (decide
                (k ∈ resolved_keys from_global_id
                       (channel_id <$>
                          default []
                            (ProductChannelListingUpdateInput.add_channels
                               input)))) as [Hadded|Hnot].
    + rewrite <- (upserted_keys_resolved from_global_id db _ cs) in Hadded
        by done.
      apply last_for_channel_exists in Hadded as (a & Hlast & <-).
      exists (listing_row product a). split; [done|].
      apply list_elem_of_filter. split; [done|]. apply Hmem.
      split; [|by intros [_ ?]]. right. by exists a.
    + destruct Hopen as [(r & -> & [Hp Hr]%list_elem_of_filter)|?];
        [|done].
      exists r. split; [done|]. apply list_elem_of_filter. split; [done|].
      apply Hmem. split; [|by intros [_ ?]]. left. split; [done|].
      by intros [_ ?].
Qed.

End Mutation.
End ListingAndPricing.

Lemma channels_open_to_pricing_witness :
  3%Z ∈ VariantFacts.assigned_channels
          (ProductChannelListingUpdate.perform_mutation typed_key "Product:2"
             scenario_relist shop).2
          {| variant_pk := 1; product_id := 2 |}
  ↔ (3%Z ∈ VariantFacts.assigned_channels shop
             {| variant_pk := 1; product_id := 2 |}
     ∨ 3%Z ∈ ProductOutcome.resolved_keys typed_key
               (ProductChannelListingAddInput.channel_id <$>
                  default []
                    (ProductChannelListingUpdateInput.add_channels
                       scenario_relist)))
    ∧ 3%Z ∉ ProductOutcome.resolved_keys typed_key
              (default []
                 (ProductChannelListingUpdateInput.remove_channels
                    scenario_relist)).
Proof.
  apply (ListingAndPricing.channels_open_to_pricing typed_key "Product:2"
           scenario_relist shop {| product_pk := 2; category := Some 7%Z |}).
  - apply (bool_decide_unpack _). by vm_compute.
  - vm_compute. reflexivity.
  - reflexivity.
Defined.
